(** * pantalaimon: the sync / trust / decrypt orchestration of [PanClient]

    A shallow embedding of [pantalaimon/client.py].  The class extends nio's
    [AsyncClient]; everything nio and asyncio provide (the event parser, the
    Olm machine, the transport, tasks and events) is an interface here, and
    the methods of [PanClient] are functions over it.

    - Python values that come from JSON are the type [json]; a Python [dict]
      is an association list in insertion order, with Python's rules for
      reading, writing and [update].
    - A method that mutates its argument in place returns the mutated value
      next to its result; a method that may raise returns a [result].
    - The coroutine [PanClient.loop] is a machine that is resumed at each
      [await] with what the awaited operation produced. *)

From Stdlib Require Import ZArith Lia.
From stdpp Require Import base list strings gmap.

Open Scope string_scope.
Open Scope list_scope.

(** ** Exceptions and results *)

(** The exception classes the handlers of [client.py] tell apart, plus the
    built-in ones raised by dictionary and attribute access.  An exception
    is identified with the class an [except] clause matches it against. *)
Inductive exn : Type :=
  | CancelledError
  | ClientProxyConnectionError
  | ServerDisconnectedError
  | ConnectionRefusedError
  | LocalProtocolError
  | EncryptionError
  | GroupEncryptionError
  | KeyError
  | TypeError
  | AttributeError
  | OtherError.

#[global] Instance exn_eq_dec : EqDecision exn.
Proof. solve_decision. Defined.

Inductive result (A : Type) : Type :=
  | Ok (a : A)
  | Raise (e : exn).
Arguments Ok {A} a.
Arguments Raise {A} e.

(** ** JSON values and Python dictionaries *)

#[local] Set Warnings "-register-all".

(** A value decoded from JSON.  Numbers are integers: [client.py] passes
    them through and never computes with them. *)
Inductive json : Type :=
  | JNull
  | JBool (b : bool)
  | JNum (n : Z)
  | JStr (s : string)
  | JList (l : list json)
  | JDict (d : list (string * json)).

(** A [dict] with string keys, in insertion order. *)
Abbreviation pydict := (list (string * json)).

(** [d.get(k)] / [k in d] *)
Fixpoint dict_get (k : string) (d : pydict) : option json :=
  match d with
  | [] => None
  | (k', v) :: d' => if decide (k = k') then Some v else dict_get k d'
  end.

Definition dict_mem (k : string) (d : pydict) : bool :=
  match dict_get k d with Some _ => true | None => false end.

(** [d[k] = v]: an existing key keeps its place, a new key goes last. *)
Fixpoint dict_set (k : string) (v : json) (d : pydict) : pydict :=
  match d with
  | [] => [(k, v)]
  | (k', v') :: d' =>
      if decide (k = k') then (k, v) :: d' else (k', v') :: dict_set k v d'
  end.

(** [d.update(src)] *)
Definition dict_update (d src : pydict) : pydict :=
  fold_left (fun acc kv => dict_set kv.1 kv.2 acc) src d.

(** [v[k]] for a string [k]: only a dict can be subscripted by a string. *)
Definition py_getitem (v : json) (k : string) : result json :=
  match v with
  | JDict d =>
      match dict_get k d with
      | Some x => Ok x
      | None => Raise KeyError
      end
  | _ => Raise TypeError
  end.

(** [v[k] = x] on a value known to be a dict; other values are left alone. *)
Definition py_setitem (v : json) (k : string) (x : json) : json :=
  match v with
  | JDict d => JDict (dict_set k x d)
  | _ => v
  end.

Definition is_str (s : string) (v : json) : bool :=
  match v with
  | JStr s' => bool_decide (s' = s)
  | _ => false
  end.

Definition is_substring (needle hay : string) : bool :=
  match String.index 0 needle hay with Some _ => true | None => false end.

(** [k in v] for a string [k]: key of a dict, element of a list, substring
    of a string; anything else is not a container. *)
Definition py_contains (k : string) (v : json) : result bool :=
  match v with
  | JDict d => Ok (dict_mem k d)
  | JList l => Ok (existsb (is_str k) l)
  | JStr s => Ok (is_substring k s)
  | _ => Raise TypeError
  end.

Fixpoint chars (s : string) : list json :=
  match s with
  | EmptyString => []
  | String a s' => JStr (String a EmptyString) :: chars s'
  end.

(** [for x in v]: the elements of a list, the keys of a dict, the
    characters of a string. *)
Definition py_iter (v : json) : result (list json) :=
  match v with
  | JList l => Ok l
  | JDict d => Ok (map (fun kv => JStr kv.1) d)
  | JStr s => Ok (chars s)
  | _ => Raise TypeError
  end.

(** [v.items()] *)
Definition py_items (v : json) : result pydict :=
  match v with
  | JDict d => Ok d
  | _ => Raise AttributeError
  end.

(** After a loop over [v] has mutated the elements it was handed: only the
    elements of a list are objects that can have changed. *)
Definition py_store (v : json) (elems : list json) : json :=
  match v with
  | JList _ => JList elems
  | _ => v
  end.

(** [for x in l: body(x)], where [body] may mutate [x] in place, change the
    state and raise; the first exception leaves the rest untouched. *)
Fixpoint py_for {A S : Type} (body : A -> S -> A * result unit * S)
    (l : list A) (s : S) : list A * result unit * S :=
  match l with
  | [] => ([], Ok (), s)
  | x :: rest =>
      let '(x', r, s1) := body x s in
      match r with
      | Raise e => (x' :: rest, Raise e, s1)
      | Ok _ =>
          let '(rest', r', s2) := py_for body rest s1 in
          (x' :: rest', r', s2)
      end
  end.

(** ** The nio interface used by the decryption pipeline *)

(** A parsed [MegolmEvent]; the attributes [client.py] reads or writes. *)
Record MegolmEvent : Type := mkMegolmEvent {
  ev_sender : string;
  ev_device_id : string;
  ev_session_id : string;
  ev_room_id : option string;
  ev_ciphertext : string
}.

(** What [RoomEncryptedEvent.parse_event] hands back: a [MegolmEvent] or an
    event of any other class (Olm, unknown algorithm, bad event). *)
Inductive parsed : Type :=
  | PMegolm (event : MegolmEvent)
  | PNotMegolm.

(** What [self.decrypt_event] produces: the decrypted event, of which the
    code reads [source] and [verified], or an exception. *)
Inductive decrypted : Type :=
  | DecOk (source : pydict) (verified : bool)
  | DecRaise (e : exn).

(** A [MatrixRoom] of [self.rooms]. *)
Record MatrixRoom : Type := mkRoom {
  encrypted : bool;
  display_name : string
}.

(** The crypto engine and parser of nio, over a state [Olm] of its own. *)
Class Engine (Olm : Type) : Type := {
  parse_event : json -> parsed;
  decrypt_event : MegolmEvent -> Olm -> decrypted * Olm;
  super_encrypt : string -> string -> json -> Olm -> result json * Olm;
  share_group_session : string -> Olm -> result unit * Olm
}.

(** Calls of [logger] made by the pipeline. *)
Inductive log_entry : Type :=
  | WarnNotMegolm (event_dict : json)
  | InfoDecrypted (source : pydict)
  | WarnEncryptionError
  | InfoDecryptingMessages
  | DebugNotEncrypted (event : json)
  | InfoDecryptingSync
  | InfoRoomNotEncrypted (name : string)
  | InfoUnknownRoom (room_id : string).

(** The part of [self] the pipeline reads and writes. *)
Record pan (Olm : Type) : Type := mkPan {
  pan_olm : Olm;
  pan_rooms : gmap string MatrixRoom;
  pan_log : list log_entry
}.
Arguments mkPan {Olm} _ _ _.
Arguments pan_olm {Olm} _.
Arguments pan_rooms {Olm} _.
Arguments pan_log {Olm} _.

Definition logged {Olm} (e : log_entry) (c : pan Olm) : pan Olm :=
  mkPan (pan_olm c) (pan_rooms c) (pan_log c ++ [e]).

Definition with_olm {Olm} (o : Olm) (c : pan Olm) : pan Olm :=
  mkPan o (pan_rooms c) (pan_log c).

(** [PanClient.unable_to_decrypt] *)
Definition unable_to_decrypt_body : string :=
  String.append "** Unable to decrypt: The sender's device has not "
                "sent us the keys for this message. **".

Definition unable_to_decrypt : pydict :=
  [ ("type", JStr "m.room.message");
    ("content", JDict [ ("msgtype", JStr "m.text");
                        ("body", JStr unable_to_decrypt_body) ]) ].

(** [not event.room_id] *)
Definition falsy_room_id (r : option string) : bool :=
  match r with
  | None => true
  | Some s => bool_decide (s = "")
  end.

Definition fill_room_id (event : MegolmEvent) (room_id : option string)
  : MegolmEvent :=
  if falsy_room_id (ev_room_id event)
  then mkMegolmEvent (ev_sender event) (ev_device_id event)
         (ev_session_id event) room_id (ev_ciphertext event)
  else event.

(** [event_dict.update(src)] on whatever [event_dict] is. *)
Definition py_update (event_dict : json) (src : pydict) : result json :=
  match event_dict with
  | JDict d => Ok (JDict (dict_update d src))
  | _ => Raise AttributeError
  end.

Section Pipeline.
Context {Olm : Type} `{!Engine Olm}.

(** [PanClient.pan_decrypt_event] *)
Definition pan_decrypt_event (event_dict : json) (room_id : option string)
    (ignore_failures : bool) (c : pan Olm) : json * result bool * pan Olm :=
  match parse_event event_dict with
  | PNotMegolm => (event_dict, Ok false, logged (WarnNotMegolm event_dict) c)
  | PMegolm event =>
      let event := fill_room_id event room_id in
      match decrypt_event event (pan_olm c) with
      | (DecOk source verified, o) =>
          let c1 := logged (InfoDecrypted source) (with_olm o c) in
          match py_update event_dict source with
          | Raise e => (event_dict, Raise e, c1)
          | Ok updated =>
              (py_setitem (py_setitem updated "decrypted" (JBool true))
                 "verified" (JBool verified),
               Ok true, c1)
          end
      | (DecRaise EncryptionError, o) =>
          let c1 := logged WarnEncryptionError (with_olm o c) in
          if ignore_failures then
            match py_update event_dict unable_to_decrypt with
            | Raise e => (event_dict, Raise e, c1)
            | Ok updated => (updated, Ok false, c1)
            end
          else (event_dict, Raise EncryptionError, c1)
      | (DecRaise e, o) => (event_dict, Raise e, with_olm o c)
      end
  end.

(** A call whose return value the caller drops. *)
Definition discard {A B S : Type} (x : A * result B * S)
  : A * result unit * S :=
  match x with
  | (a, Ok _, s) => (a, Ok (), s)
  | (a, Raise e, s) => (a, Raise e, s)
  end.

(** The body of the [for event in body["chunk"]] loop. *)
Definition messages_event (event : json) (c : pan Olm)
  : json * result unit * pan Olm :=
  match py_contains "type" event with
  | Raise e => (event, Raise e, c)
  | Ok false => (event, Ok (), c)
  | Ok true =>
      match py_getitem event "type" with
      | Raise e => (event, Raise e, c)
      | Ok t =>
          if is_str "m.room.encrypted" t
          then discard (pan_decrypt_event event None true c)
          else (event, Ok (), logged (DebugNotEncrypted event) c)
      end
  end.

(** [PanClient.decrypt_messages_body]: the body after the call, whether
    the call returned it ([Ok]) or raised, and the client afterwards. *)
Definition decrypt_messages_body (body : pydict) (c : pan Olm)
  : pydict * result unit * pan Olm :=
  match dict_get "chunk" body with
  | None => (body, Ok (), c)
  | Some chunk =>
      let c1 := logged InfoDecryptingMessages c in
      match py_iter chunk with
      | Raise e => (body, Raise e, c1)
      | Ok events =>
          let '(events', r, c2) := py_for messages_event events c1 in
          (dict_set "chunk" (py_store chunk events') body, r, c2)
      end
  end.

(** The body of the [for room_id, room_dict in ...items()] loop. *)
Definition sync_room (ignore_failures : bool) (item : string * json)
    (c : pan Olm) : (string * json) * result unit * pan Olm :=
  let '(room_id, room_dict) := item in
  match pan_rooms c !! room_id with
  | None => (item, Ok (), logged (InfoUnknownRoom room_id) c)
  | Some room =>
      if negb (encrypted room)
      then (item, Ok (), logged (InfoRoomNotEncrypted (display_name room)) c)
      else
        match py_getitem room_dict "timeline" with
        | Raise e => (item, Raise e, c)
        | Ok timeline =>
            match py_getitem timeline "events" with
            | Raise e => (item, Raise e, c)
            | Ok evs =>
                match py_iter evs with
                | Raise e => (item, Raise e, c)
                | Ok events =>
                    let '(events', r, c1) :=
                      py_for (fun event c =>
                                discard (pan_decrypt_event event
                                           (Some room_id) ignore_failures c))
                        events c in
                    ((room_id,
                      py_setitem room_dict "timeline"
                        (py_setitem timeline "events" (py_store evs events'))),
                     r, c1)
                end
            end
        end
  end.

(** [PanClient.decrypt_sync_body] *)
Definition decrypt_sync_body (body : pydict) (ignore_failures : bool)
    (c : pan Olm) : pydict * result unit * pan Olm :=
  let c0 := logged InfoDecryptingSync c in
  match dict_get "rooms" body with
  | None => (body, Raise KeyError, c0)
  | Some rooms =>
      match py_getitem rooms "join" with
      | Raise e => (body, Raise e, c0)
      | Ok join =>
          match py_items join with
          | Raise e => (body, Raise e, c0)
          | Ok items =>
              let '(items', r, c1) :=
                py_for (sync_room ignore_failures) items c0 in
              (dict_set "rooms" (py_setitem rooms "join" (JDict items')) body,
               r, c1)
          end
      end
  end.

(** [PanClient.encrypt]: the calls made on the engine, in order. *)
Inductive engine_call : Type :=
  | CallEncrypt (room_id msgtype : string) (content : json)
  | CallShareGroupSession (room_id : string).

Definition encrypt (room_id msgtype : string) (content : json) (o : Olm)
  : result json * Olm * list engine_call :=
  match super_encrypt room_id msgtype content o with
  | (Raise GroupEncryptionError, o1) =>
      match share_group_session room_id o1 with
      | (Raise e, o2) =>
          (Raise e, o2,
           [CallEncrypt room_id msgtype content;
            CallShareGroupSession room_id])
      | (Ok _, o2) =>
          let '(r, o3) := super_encrypt room_id msgtype content o2 in
          (r, o3,
           [CallEncrypt room_id msgtype content;
            CallShareGroupSession room_id;
            CallEncrypt room_id msgtype content])
      end
  | (r, o1) => (r, o1, [CallEncrypt room_id msgtype content])
  end.

End Pipeline.

(** ** asyncio: events and tasks *)

(** An [asyncio.Event]: its flag and the coroutines blocked in [wait()]. *)
Record aevent : Type := mkEvent {
  ev_flag : bool;
  ev_waiters : list nat
}.

(** [Event.set()]: raises the flag and releases every waiter; a no-op when
    the flag is already up.  Returns the event and the waiters released. *)
Definition event_set (e : aevent) : aevent * list nat :=
  if ev_flag e then (e, []) else (mkEvent true [], ev_waiters e).

(** [Event.clear()] *)
Definition event_clear (e : aevent) : aevent :=
  mkEvent false (ev_waiters e).

(** [await Event.wait()] by coroutine [w]: returns at once ([true]) when the
    flag is up, otherwise [w] blocks until the next [set()]. *)
Definition event_wait (w : nat) (e : aevent) : bool * aevent :=
  if ev_flag e then (true, e) else (false, mkEvent false (ev_waiters e ++ [w])).

(** The coroutines [client.py] hands to [create_task]. *)
Inductive coro : Type :=
  | RequestRoomKey (event : MegolmEvent)
  | AcceptKeyVerification (transaction_id : string)
  | AcceptShortAuthString (transaction_id : string)
  | ToDevice (message : string)
  | SyncLoop.

(** ** The nio state the loop and its callbacks read *)

Record Device : Type := mkDevice {
  dev_id : string;
  dev_user_id : string;
  dev_deleted : bool
}.

(** An active SAS verification of [self.key_verifications]. *)
Record Sas : Type := mkSas {
  sas_emoji : list (string * string);
  other_olm_device : Device
}.

Record nio_state : Type := mkNio {
  user_id : string;
  logged_in : bool;
  outgoing_key_requests : gset string;
  key_verifications : gmap string Sas;
  outgoing_to_device_messages : list string;
  should_upload_keys : bool;
  should_query_keys : bool
}.

(** [KeysQueryResponse.changed]: user id to device id to device. *)
Abbreviation changed_devices := (list (string * list (string * Device))).

(** The [KeyVerificationEvent]s the to-device callback is registered for. *)
Inductive KeyVerificationEvent : Type :=
  | KeyVerificationStart (transaction_id : string)
  | KeyVerificationKey (transaction_id : string)
  | KeyVerificationMac (transaction_id : string)
  | KeyVerificationOther (transaction_id : string).

(** An event for which nio runs one of the two registered callbacks while
    it handles a sync response. *)
Inductive in_event : Type :=
  | InMegolm (room_id : string) (event : MegolmEvent)
  | InKeyVerification (event : KeyVerificationEvent).

(** ** The client and what it does *)

(** The attributes [PanClient.__init__] adds to the nio client, and the
    number of tasks created on the event loop so far. *)
Record client : Type := mkClient {
  task : option nat;
  has_queue : bool;
  loop_running : bool;
  loop_stopped : aevent;
  synced : aevent;
  key_verificatins_tasks : list nat;
  key_request_tasks : list nat;
  created_tasks : nat
}.

Inductive loop_log : Type :=
  | InfoUnableToDecrypt (sender device_id : string)
  | InfoRequestingRoomKey
  | InfoKeyVerificationEvent (event : KeyVerificationEvent)
  | InfoShortAuthString (user device : string) (emoji : list (string * string))
  | InfoAutoVerify (device user : string)
  | InfoStartingLoop (user : string)
  | InfoStoppingLoop
  | InfoProtocolError.

(** What the client does that the outside can see, in order. *)
Inductive action : Type :=
  | ALog (l : loop_log)
  | ACreateTask (id : nat) (c : coro)
  | ASync (timeout : Z)
  | ASleep (seconds : Z)
  | AGatherToDevice (tasks : list nat)
  | AGatherVerifications (tasks : list nat)
  | AGatherKeyRequests (tasks : list nat)
  | AKeysUpload
  | AKeysQuery
  | AVerifyDevice (d : Device)
  | AQueuePut (user : string) (changed : changed_devices)
  | ASyncedSet (released : list nat)
  | ASyncedClear
  | ALoopStoppedSet (released : list nat).

Definition set_task (t : option nat) (s : client) : client :=
  mkClient t (has_queue s) (loop_running s) (loop_stopped s) (synced s)
    (key_verificatins_tasks s) (key_request_tasks s) (created_tasks s).

Definition set_loop_running (b : bool) (s : client) : client :=
  mkClient (task s) (has_queue s) b (loop_stopped s) (synced s)
    (key_verificatins_tasks s) (key_request_tasks s) (created_tasks s).

Definition set_loop_stopped (e : aevent) (s : client) : client :=
  mkClient (task s) (has_queue s) (loop_running s) e (synced s)
    (key_verificatins_tasks s) (key_request_tasks s) (created_tasks s).

Definition set_synced (e : aevent) (s : client) : client :=
  mkClient (task s) (has_queue s) (loop_running s) (loop_stopped s) e
    (key_verificatins_tasks s) (key_request_tasks s) (created_tasks s).

Definition set_key_verificatins_tasks (l : list nat) (s : client) : client :=
  mkClient (task s) (has_queue s) (loop_running s) (loop_stopped s) (synced s)
    l (key_request_tasks s) (created_tasks s).

Definition set_key_request_tasks (l : list nat) (s : client) : client :=
  mkClient (task s) (has_queue s) (loop_running s) (loop_stopped s) (synced s)
    (key_verificatins_tasks s) l (created_tasks s).

(** [loop.create_task(coro)]: the new task's id and the client with the
    event loop's count advanced.  The task only starts to run when the
    caller next suspends. *)
Definition create_task (s : client) : nat * client :=
  (created_tasks s,
   mkClient (task s) (has_queue s) (loop_running s) (loop_stopped s) (synced s)
     (key_verificatins_tasks s) (key_request_tasks s) (S (created_tasks s))).

(** [PanClient.__init__], for the attributes above. *)
Definition init (queue : bool) : client :=
  mkClient None queue false (mkEvent false []) (mkEvent false []) [] [] 0.

(** [PanClient.undecrypted_event_cb] *)
Definition undecrypted_event_cb (n : nio_state) (room_id : string)
    (event : MegolmEvent) (s : client) : client * list action :=
  let log1 := ALog (InfoUnableToDecrypt (ev_sender event) (ev_device_id event)) in
  if decide (ev_session_id event ∈ outgoing_key_requests n)
  then (s, [log1])
  else
    let '(t, s1) := create_task s in
    (set_key_request_tasks (key_request_tasks s1 ++ [t]) s1,
     [log1; ALog InfoRequestingRoomKey; ACreateTask t (RequestRoomKey event)]).

(** [PanClient.key_verification_cb], where it returns.  For a key event of
    a known transaction the entry logged carries the pairs of
    [sas.get_emoji()] that lines 105 to 115 lay out as the short string
    ([short_string] below).  The format of lines 109 to 114 has seven
    fields and raises [IndexError] on fewer than seven pairs; the callback
    then does not return, and [callback_raises] below tells these events
    apart. *)
Definition key_verification_cb (n : nio_state) (event : KeyVerificationEvent)
    (s : client) : client * list action :=
  let log1 := ALog (InfoKeyVerificationEvent event) in
  match event with
  | KeyVerificationStart txn =>
      let '(t, s1) := create_task s in
      (set_key_verificatins_tasks (key_verificatins_tasks s1 ++ [t]) s1,
       [log1; ACreateTask t (AcceptKeyVerification txn)])
  | KeyVerificationKey txn =>
      match key_verifications n !! txn with
      | None => (s, [log1])
      | Some sas =>
          let device := other_olm_device sas in
          (s, [log1;
               ALog (InfoShortAuthString (dev_user_id device) (dev_id device)
                       (sas_emoji sas))])
      end
  | KeyVerificationMac txn =>
      let '(t, s1) := create_task s in
      (set_key_verificatins_tasks (key_verificatins_tasks s1 ++ [t]) s1,
       [log1; ACreateTask t (AcceptShortAuthString txn)])
  | KeyVerificationOther _ => (s, [log1])
  end.

(** nio running the registered callbacks over the events of one response,
    each of them returning. *)
Definition run_callback (n : nio_state) (e : in_event) (s : client)
  : client * list action :=
  match e with
  | InMegolm room_id event => undecrypted_event_cb n room_id event s
  | InKeyVerification event => key_verification_cb n event s
  end.

Fixpoint run_callbacks (n : nio_state) (es : list in_event) (s : client)
  : client * list action :=
  match es with
  | [] => (s, [])
  | e :: es' =>
      let '(s1, a1) := run_callback n e s in
      let '(s2, a2) := run_callbacks n es' s1 in
      (s2, a1 ++ a2)
  end.

(** [PanClient.verify_devices] *)
Definition verify_user_devices (user : string) (devices : list (string * Device))
  : list action :=
  flat_map (fun kd : string * Device =>
              let device := kd.2 in
              if dev_deleted device then []
              else [ALog (InfoAutoVerify (dev_id device) user);
                    AVerifyDevice device])
           devices.

Definition verify_devices (changed : changed_devices) : list action :=
  flat_map (fun ud : string * list (string * Device) =>
              verify_user_devices ud.1 ud.2)
           changed.

(** [PanClient._loop_stop] *)
Definition _loop_stop (s : client) : client * list action :=
  let s1 := set_loop_running false s in
  let '(e, released) := event_set (loop_stopped s1) in
  (set_loop_stopped e s1, [ALoopStoppedSet released]).

(** ** The sync loop as a resumable machine *)

(** The [await]s of [PanClient.loop], by source line:
    165 [sync], 175 [sleep(5)] after a non-200 status, 178
    [send_to_device_messages] (its [gather]), 181 and 187 the two task
    lists, 190 [keys_upload], 193 [keys_query], 200 [queue.put], 220
    [sleep(5)] in the handler of the transport errors. *)
Inductive pc : Type :=
  | AtSync
  | AtSleepStatus
  | AtSend
  | AtGatherVerifications
  | AtGatherKeyRequests
  | AtKeysUpload
  | AtKeysQuery
  | AtQueuePut
  | AtSleepFault.

(** What the loop is resumed with: the exception the [await] raised, if
    any; the state of the nio client at that moment; and, when they apply,
    the status of the sync response with the events nio ran the callbacks
    for, or the [changed] devices of a [KeysQueryResponse] ([None] for any
    other response). *)
Record wake : Type := mkWake {
  w_exn : option exn;
  w_nio : nio_state;
  w_status : Z;
  w_events : list in_event;
  w_changed : option changed_devices
}.

(** Where a resumed loop gets to: the next [await] of the same iteration,
    the end of the [try] body ([Synced]), back to [while True] after a
    sleep ([Retry]), out of the loop by [break] ([Return]), or out of
    [loop()] by an exception no handler takes ([Propagate]). *)
Inductive next : Type :=
  | Suspend (p : pc) (s : client)
  | Synced (s : client)
  | Retry (s : client)
  | Return (s : client)
  | Propagate (e : exn) (s : client).

Definition is_transport_error (e : exn) : bool :=
  match e with
  | ClientProxyConnectionError
  | ServerDisconnectedError
  | ConnectionRefusedError => true
  | _ => false
  end.

(** The two [except] clauses of the outer [try] (lines 209 to 223), up to
    the [await] inside the second. *)
Definition handle_exception (e : exn) (s : client) : next * list action :=
  match e with
  | CancelledError =>
      let '(s1, a) := _loop_stop s in
      (Return s1, ALog InfoStoppingLoop :: a)
  | _ =>
      if is_transport_error e
      then (Suspend AtSleepFault s, [ASleep 5])
      else (Propagate e s, [])
  end.

(** Lines 202 to 207: the test of the response's class does nothing, then
    [self.synced.set()] and [self.synced.clear()]. *)
Definition finish_iteration (s : client) : next * list action :=
  let '(e, released) := event_set (synced s) in
  (Synced (set_synced (event_clear e) s), [ASyncedSet released; ASyncedClear]).

(** Lines 192 to 200, after the response of [keys_query] is in. *)
Definition after_keys_query (n : nio_state) (changed : option changed_devices)
    (s : client) : next * list action :=
  match changed with
  | None => finish_iteration s
  | Some ch =>
      if has_queue s
      then (Suspend AtQueuePut s, verify_devices ch ++ [AQueuePut (user_id n) ch])
      else (Propagate AttributeError s, verify_devices ch)
  end.

(** Line 192. *)
Definition after_keys_upload (n : nio_state) (s : client) : next * list action :=
  if should_query_keys n
  then (Suspend AtKeysQuery s, [AKeysQuery])
  else finish_iteration s.

(** Line 189. *)
Definition after_key_requests (n : nio_state) (s : client) : next * list action :=
  if should_upload_keys n
  then (Suspend AtKeysUpload s, [AKeysUpload])
  else after_keys_upload n s.

(** Line 187. *)
Definition gather_key_requests (s : client) : next * list action :=
  (Suspend AtGatherKeyRequests s, [AGatherKeyRequests (key_request_tasks s)]).

(** Line 181. *)
Definition gather_verifications (s : client) : next * list action :=
  (Suspend AtGatherVerifications s,
   [AGatherVerifications (key_verificatins_tasks s)]).

Fixpoint create_to_device_tasks (messages : list string) (s : client)
  : list nat * client * list action :=
  match messages with
  | [] => ([], s, [])
  | m :: ms =>
      let '(t, s1) := create_task s in
      let '(ts, s2, a) := create_to_device_tasks ms s1 in
      (t :: ts, s2, ACreateTask t (ToDevice m) :: a)
  end.

(** [PanClient.send_to_device_messages] followed by line 181. *)
Definition send_to_device_messages (n : nio_state) (s : client)
  : next * list action :=
  match outgoing_to_device_messages n with
  | [] => gather_verifications s
  | messages =>
      let '(ts, s1, a) := create_to_device_tasks messages s in
      (Suspend AtSend s1, a ++ [AGatherToDevice ts])
  end.

(** The loop resumed at [p] with [w], run to its next [await] or exit. *)
Definition resume (p : pc) (w : wake) (s : client) : next * list action :=
  match p, w_exn w with
  | AtSync, None =>
      let '(s1, a) := run_callbacks (w_nio w) (w_events w) s in
      if decide (w_status w = 200%Z)
      then let '(n, a') := send_to_device_messages (w_nio w) s1 in (n, a ++ a')
      else (Suspend AtSleepStatus s1, a ++ [ASleep 5])
  | AtSleepStatus, None => (Retry s, [])
  | AtSend, None => gather_verifications s
  | AtGatherVerifications, None =>
      gather_key_requests (set_key_verificatins_tasks [] s)
  | AtGatherVerifications, Some LocalProtocolError =>
      let '(n, a) := gather_key_requests (set_key_verificatins_tasks [] s) in
      (n, ALog InfoProtocolError :: a)
  | AtGatherKeyRequests, None => after_key_requests (w_nio w) s
  | AtKeysUpload, None => after_keys_upload (w_nio w) s
  | AtKeysQuery, None => after_keys_query (w_nio w) (w_changed w) s
  | AtQueuePut, None => finish_iteration s
  | AtSleepFault, None => (Retry s, [])
  | AtSleepFault, Some CancelledError =>
      let '(s1, a) := _loop_stop s in (Return s1, a)
  | AtSleepFault, Some e => (Propagate e s, [])
  | _, Some e => handle_exception e s
  end.

(** The first [await] of the [while True] body (lines 161 to 172); the
    test of [logged_in] before it does nothing. *)
Definition loop_top (s : client) : pc * client * list action :=
  (AtSync, s, [ASync 30000]).

(** Lines 153 to 157. *)
Definition loop_entry (n : nio_state) (s : client) : client * list action :=
  let s1 := set_loop_running true s in
  let s2 := set_loop_stopped (event_clear (loop_stopped s1)) s1 in
  let s3 := set_synced (event_clear (synced s2)) s2 in
  (s3, [ALog (InfoStartingLoop (user_id n))]).

(** The task of [loop()]: created and not yet run, suspended at an
    [await], returned, or ended by an exception. *)
Inductive config : Type :=
  | Created (s : client)
  | Running (p : pc) (s : client)
  | Stopped (s : client)
  | Crashed (e : exn) (s : client).

Definition config_client (c : config) : client :=
  match c with
  | Created s | Running _ s | Stopped s | Crashed _ s => s
  end.

(** [Task.done()] *)
Definition task_done (c : config) : bool :=
  match c with
  | Stopped _ | Crashed _ _ => true
  | _ => false
  end.

(** [PanClient.start_loop] *)
Definition start_loop (s : client) : nat * config * list action :=
  let '(t, s1) := create_task s in
  (t, Created (set_task (Some t) s1), [ACreateTask t SyncLoop]).

(** One scheduling of the loop task.  A task cancelled before it first
    runs ends without executing any of [loop()]. *)
Definition step (c : config) (w : wake) : config * list action :=
  match c with
  | Created s =>
      match w_exn w with
      | Some CancelledError => (Crashed CancelledError s, [])
      | _ =>
          let '(s1, a) := loop_entry (w_nio w) s in
          let '(p, s2, a') := loop_top s1 in
          (Running p s2, a ++ a')
      end
  | Running p s =>
      match resume p w s with
      | (Suspend p' s', a) => (Running p' s', a)
      | (Synced s', a) | (Retry s', a) =>
          let '(p', s'', a') := loop_top s' in
          (Running p' s'', a ++ a')
      | (Return s', a) => (Stopped s', a)
      | (Propagate e s', a) => (Crashed e s', a)
      end
  | Stopped _ | Crashed _ _ => (c, [])
  end.

(** The task scheduled once for each element of [ws]. *)
Fixpoint run (ws : list wake) (c : config) : config * list action :=
  match ws with
  | [] => (c, [])
  | w :: ws' =>
      let '(c1, a1) := step c w in
      let '(c2, a2) := run ws' c1 in
      (c2, a1 ++ a2)
  end.

(** One iteration of [while True], from its [await] at [p] on: where it
    ends ([Suspend] when [ws] runs out first) and what it did. *)
Fixpoint iteration (p : pc) (ws : list wake) (s : client) : next * list action :=
  match ws with
  | [] => (Suspend p s, [])
  | w :: ws' =>
      match resume p w s with
      | (Suspend p' s', a) =>
          let '(n, a') := iteration p' ws' s' in (n, a ++ a')
      | (n, a) => (n, a)
      end
  end.

(** ** [loop_stop] next to the loop *)

(** The caller of [loop_stop]: not yet called, blocked in
    [loop_stopped.wait()], returned. *)
Inductive stop_pc : Type :=
  | StopNotCalled
  | StopWaiting (waiter : nat)
  | StopReturned.

(** The loop task, whether [cancel()] was called on it since it last ran,
    and the caller of [loop_stop]. *)
Record system : Type := mkSystem {
  sys_loop : config;
  sys_cancel : bool;
  sys_stop : stop_pc
}.

Definition with_client (s : client) (c : config) : config :=
  match c with
  | Created _ => Created s
  | Running p _ => Running p s
  | Stopped _ => Stopped s
  | Crashed e _ => Crashed e s
  end.

(** [PanClient.loop_stop], called by coroutine [waiter], up to its return
    or its suspension in [wait()]. *)
Definition loop_stop (waiter : nat) (sys : system) : system :=
  match sys_stop sys with
  | StopNotCalled =>
      let s := config_client (sys_loop sys) in
      match task s with
      | None => mkSystem (sys_loop sys) (sys_cancel sys) StopReturned
      | Some _ =>
          if task_done (sys_loop sys)
          then mkSystem (sys_loop sys) (sys_cancel sys) StopReturned
          else
            let '(immediate, e) := event_wait waiter (loop_stopped s) in
            mkSystem (with_client (set_loop_stopped e s) (sys_loop sys)) true
              (if immediate then StopReturned else StopWaiting waiter)
      end
  | _ => sys
  end.

Definition cancelled (w : wake) : wake :=
  mkWake (Some CancelledError) (w_nio w) (w_status w) (w_events w) (w_changed w).

(** The event loop runs the loop task: a pending [cancel()] is delivered
    as [CancelledError] at the [await] the task is suspended in. *)
Definition loop_resume (w : wake) (sys : system) : system * list action :=
  let '(c, a) := step (sys_loop sys) (if sys_cancel sys then cancelled w else w) in
  (mkSystem c false (sys_stop sys), a).

(** The event loop runs the caller of [loop_stop], if [set()] released it. *)
Definition stop_resume (sys : system) : system :=
  match sys_stop sys with
  | StopWaiting waiter =>
      if decide (waiter ∈ ev_waiters (loop_stopped (config_client (sys_loop sys))))
      then sys
      else mkSystem (sys_loop sys) (sys_cancel sys) StopReturned
  | _ => sys
  end.

(** What the event loop may do next. *)
Inductive sched : Type :=
  | CallLoopStop (waiter : nat)
  | ResumeLoop (w : wake)
  | ResumeStop.

Definition sys_step (l : sched) (sys : system) : system :=
  match l with
  | CallLoopStop waiter => loop_stop waiter sys
  | ResumeLoop w => (loop_resume w sys).1
  | ResumeStop => stop_resume sys
  end.

Definition sys_run (ls : list sched) (sys : system) : system :=
  fold_left (fun sys l => sys_step l sys) ls sys.

(** ** Predicates used in the statements *)

(** [body["rooms"]["join"]] when it is there and is a dict. *)
Definition sync_join (body : pydict) : option pydict :=
  match dict_get "rooms" body with
  | Some rooms =>
      match py_getitem rooms "join" with
      | Ok (JDict items) => Some items
      | _ => None
      end
  | None => None
  end.

(** [room_dict["timeline"]["events"]] when it is there and is a list. *)
Definition room_events (room_dict : json) : option (list json) :=
  match py_getitem room_dict "timeline" with
  | Ok timeline =>
      match py_getitem timeline "events" with
      | Ok (JList l) => Some l
      | _ => None
      end
  | Raise _ => None
  end.

(** The room is known to the session and marked encrypted. *)
Definition room_is_encrypted (rooms : gmap string MatrixRoom)
    (room_id : string) : bool :=
  match rooms !! room_id with
  | Some room => encrypted room
  | None => false
  end.

Section Predicates.
Context {Olm : Type} `{!Engine Olm}.

(** The event is one [pan_decrypt_event] goes on to decrypt. *)
Definition is_megolm (event : json) : bool :=
  match parse_event event with
  | PMegolm _ => true
  | PNotMegolm => false
  end.

(** The event carries ["type": "m.room.encrypted"]. *)
Definition has_encrypted_type (event : json) : bool :=
  match py_getitem event "type" with
  | Ok t => is_str "m.room.encrypted" t
  | Raise _ => false
  end.

(** Position by position, every event that is not Megolm is as it was. *)
Definition events_frame (events events' : list json) : Prop :=
  Forall2 (λ e e', is_megolm e = false → e' = e) events events'.

(** The item of one room after the loop body ran on it: same room, the dict
    as it was unless the room is known and encrypted, and in any case every
    timeline event that is not Megolm as it was. *)
Definition room_frame (rooms : gmap string MatrixRoom)
    (item item' : string * json) : Prop :=
  item'.1 = item.1
  ∧ (room_is_encrypted rooms item.1 = false → item'.2 = item.2)
  ∧ ∀ events, room_events item.2 = Some events →
      ∃ events', room_events item'.2 = Some events'
                 ∧ events_frame events events'.

End Predicates.

(** Two clients that differ in their log at most. *)
Definition same_engine {Olm} (c c' : pan Olm) : Prop :=
  pan_olm c = pan_olm c' ∧ pan_rooms c = pan_rooms c'.

Definition is_synced_set (a : action) : bool :=
  match a with ASyncedSet _ => true | _ => false end.

(** How often the synced signal was set. *)
Definition synced_sets (acts : list action) : nat :=
  length (List.filter is_synced_set acts).

Definition next_client (n : next) : client :=
  match n with
  | Suspend _ s | Synced s | Retry s | Return s | Propagate _ s => s
  end.

(** The callbacks and the task bookkeeping leave these alone. *)
Definition same_signals (s s' : client) : Prop :=
  synced s' = synced s ∧ loop_stopped s' = loop_stopped s
  ∧ loop_running s' = loop_running s ∧ task s' = task s
  ∧ has_queue s' = has_queue s.

(** What one iteration, or a part of it, does to the synced signal when it
    starts with the flag down: an iteration that runs to the end of the
    [try] body sets the signal once, as the last thing but the [clear()],
    releasing every waiter; any other does not touch it. *)
Definition signals_once (s : client) (r : next * list action) : Prop :=
  match r with
  | (Synced s', acts) =>
      ∃ pre, acts = pre ++ [ASyncedSet (ev_waiters (synced s)); ASyncedClear]
             ∧ synced_sets pre = 0
             ∧ synced s' = mkEvent false []
  | (n, acts) => synced_sets acts = 0 ∧ synced (next_client n) = synced s
  end.


(** While the loop is suspended both of its signals are down and
    [loop_running] is up. *)
Definition flags_down (c : config) : Prop :=
  match c with
  | Running _ s =>
      ev_flag (synced s) = false ∧ ev_flag (loop_stopped s) = false
      ∧ loop_running s = true
  | _ => True
  end.

(** The steps 4 to 9 of an iteration: dispatch, the two gathers, key
    upload and query with what follows the query, and the synced signal. *)
Definition is_post_processing (a : action) : bool :=
  match a with
  | AGatherToDevice _ | AGatherVerifications _ | AGatherKeyRequests _
  | AKeysUpload | AKeysQuery | AVerifyDevice _ | AQueuePut _ _
  | ASyncedSet _ | ASyncedClear => true
  | _ => false
  end.

(** How often task [t] was handed to the [gather] of the key requests. *)
Fixpoint key_request_awaits (t : nat) (acts : list action) : nat :=
  match acts with
  | [] => 0
  | AGatherKeyRequests ts :: acts' =>
      length (filter (fun x => x = t) ts) + key_request_awaits t acts'
  | _ :: acts' => key_request_awaits t acts'
  end.

(** ** A small engine and inputs to run the definitions on *)

Definition demo_event (sid : string) : MegolmEvent :=
  mkMegolmEvent "@alice:example.org" "ALICEDEVICE" sid None "AwgAEnAC".

(** Parses as Megolm any dict of type [m.room.encrypted] whose content
    names a session. *)
Definition demo_parse (e : json) : parsed :=
  match e with
  | JDict d =>
      match dict_get "type" d, dict_get "content" d with
      | Some (JStr t), Some (JDict content) =>
          if bool_decide (t = "m.room.encrypted")
          then match dict_get "session_id" content with
               | Some (JStr sid) => PMegolm (demo_event sid)
               | _ => PNotMegolm
               end
          else PNotMegolm
      | _, _ => PNotMegolm
      end
  | _ => PNotMegolm
  end.

(** Holds the keys of session ["known"] only; the state counts the group
    sessions shared so far. *)
Definition demo_decrypt (event : MegolmEvent) (o : nat) : decrypted * nat :=
  if bool_decide (ev_session_id event = "known")
  then (DecOk [("type", JStr "m.room.message");
               ("content", JDict [("msgtype", JStr "m.text");
                                  ("body", JStr "hello")])] true, o)
  else (DecRaise EncryptionError, o).

Definition demo_super_encrypt (room_id msgtype : string) (content : json)
    (o : nat) : result json * nat :=
  match o with
  | O => (Raise GroupEncryptionError, o)
  | S _ => (Ok (JDict [("algorithm", JStr "m.megolm.v1.aes-sha2");
                      ("ciphertext", JStr "AwgAEnAC")]), o)
  end.

Definition demo_engine : Engine nat :=
  {| parse_event := demo_parse;
     decrypt_event := demo_decrypt;
     super_encrypt := demo_super_encrypt;
     share_group_session := fun _ o => (Ok (), S o) |}.

(** An engine in which sharing the group session does not help. *)
Definition stuck_engine : Engine nat :=
  {| parse_event := demo_parse;
     decrypt_event := demo_decrypt;
     super_encrypt := fun _ _ _ o => (Raise GroupEncryptionError, S o);
     share_group_session := fun _ o => (Ok (), S o) |}.

Definition demo_encrypted (sid : string) : json :=
  JDict [("type", JStr "m.room.encrypted");
         ("sender", JStr "@alice:example.org");
         ("content", JDict [("algorithm", JStr "m.megolm.v1.aes-sha2");
                            ("session_id", JStr sid);
                            ("ciphertext", JStr "AwgAEnAC")])].

Definition demo_plain : json :=
  JDict [("type", JStr "m.room.message");
         ("sender", JStr "@bob:example.org");
         ("content", JDict [("msgtype", JStr "m.text");
                            ("body", JStr "hi")])].

Definition demo_room (events : list json) : json :=
  JDict [("timeline", JDict [("events", JList events)])].

Definition demo_sync_rooms : pydict :=
  [("join",
    JDict [("!unknown:example.org", demo_room [demo_encrypted "known"]);
           ("!enc:example.org",
            demo_room [demo_plain; demo_encrypted "known"])])].

Definition demo_sync_body : pydict :=
  [("next_batch", JStr "s72595_4483_1934"); ("rooms", JDict demo_sync_rooms)].

(** A sync body without joined rooms, which is no messages body either. *)
Definition demo_leave_body : pydict :=
  [("next_batch", JStr "s72595_4483_1934");
   ("rooms", JDict [("leave", JDict [])])].

Definition demo_pan : pan nat :=
  mkPan 0 {[ "!enc:example.org" := mkRoom true "Encrypted room" ]} [].

Definition demo_nio : nio_state :=
  mkNio "@pan:example.org" true ∅ ∅ [] false false.

(** A wake with nothing to report: the awaited call returned. *)
Definition returned (n : nio_state) : wake := mkWake None n 200 [] None.

Definition raised (e : exn) (n : nio_state) : wake := mkWake (Some e) n 200 [] None.

Definition synced_with (status : Z) (events : list in_event) (n : nio_state)
  : wake := mkWake None n status events None.

(** nio with one to-device message to send and keys to upload. *)
Definition busy_nio : nio_state :=
  mkNio "@pan:example.org" true ∅ ∅ ["m.room_key_request"] true false.

(** One iteration: the sync succeeds, the to-device message is sent, both
    gathers return, and then [keys_upload] fails to connect; the sleep of
    the handler returns. *)
Definition fault_after_dispatch : list wake :=
  [synced_with 200 [] busy_nio; returned busy_nio; returned busy_nio;
   returned busy_nio; raised ConnectionRefusedError busy_nio;
   returned busy_nio].

(** The loop starts; the first sync delivers one undecryptable event and
    its iteration completes; so does a second iteration with no events. *)
Definition two_cycles : list wake :=
  [returned demo_nio;
   synced_with 200 [InMegolm "!enc:example.org" (demo_event "SESSION")] demo_nio;
   returned demo_nio; returned demo_nio;
   synced_with 200 [] demo_nio;
   returned demo_nio; returned demo_nio].

(** The devices of one user after a key query: one live, one deleted. *)
Definition demo_changed : changed_devices :=
  [("@alice:example.org",
    [("ALICEDEVICE", mkDevice "ALICEDEVICE" "@alice:example.org" false);
     ("OLDDEVICE", mkDevice "OLDDEVICE" "@alice:example.org" true)])].

(** The loop task of a fresh client, created by [start_loop]. *)
Definition demo_loop : config := (start_loop (init true)).1.2.

(** A client whose loop task is task 0, suspended somewhere in the loop. *)
Definition demo_running : client :=
  mkClient (Some 0) true true (mkEvent false []) (mkEvent false [5]) [] [] 1.

(** ** Further notions used in the statements *)

(** The event is a dict that does not carry the type [m.room.encrypted]. *)
Definition is_plain_dict (event : json) : bool :=
  match event with
  | JDict d =>
      match dict_get "type" d with
      | Some t => negb (is_str "m.room.encrypted" t)
      | None => true
      end
  | _ => false
  end.

(** [undecrypted_event_cb] spawns a task for this event: it is a Megolm
    event whose session is not in the registry. *)
Definition requests_key (n : nio_state) (e : in_event) : bool :=
  match e with
  | InMegolm _ event =>
      bool_decide (ev_session_id event ∉ outgoing_key_requests n)
  | InKeyVerification _ => false
  end.

(** [key_verification_cb] spawns a task for this event: it is a start or a
    mac event. *)
Definition accepts_verification (e : in_event) : bool :=
  match e with
  | InKeyVerification (KeyVerificationStart _)
  | InKeyVerification (KeyVerificationMac _) => true
  | _ => false
  end.

(** Every task on the two lists was created on the event loop, and none is
    listed twice. *)
Definition tasks_fresh (s : client) : Prop :=
  NoDup (key_verificatins_tasks s ++ key_request_tasks s)
  ∧ Forall (λ t, t < created_tasks s)
      (key_verificatins_tasks s ++ key_request_tasks s).

Definition is_encrypt_call (c : engine_call) : bool :=
  match c with CallEncrypt _ _ _ => true | CallShareGroupSession _ => false end.

(** The devices [verify_devices] passes to [verify_device], in order. *)
Definition verified_devices (acts : list action) : list Device :=
  omap (λ a, match a with AVerifyDevice d => Some d | _ => None end) acts.

(** The devices of a [changed] mapping, user by user, in order. *)
Definition changed_device_list (changed : changed_devices) : list Device :=
  flat_map (λ ud : string * list (string * Device), map snd ud.2) changed.

Definition is_gather (a : action) : bool :=
  match a with
  | AGatherVerifications _ | AGatherKeyRequests _ => true
  | _ => false
  end.

(** The states the system goes through once [loop_stop], called by
    [waiter], has cancelled a loop task that has not run yet: the task
    still to run with the cancellation pending, or ended by it; the signal
    down and the caller blocked on it. *)
Definition unstarted (waiter : nat) (sys : system) : Prop :=
  match sys_loop sys with
  | Created _ => sys_cancel sys = true
  | Crashed CancelledError _ => True
  | _ => False
  end
  ∧ sys_stop sys = StopWaiting waiter
  ∧ ev_flag (loop_stopped (config_client (sys_loop sys))) = false
  ∧ waiter ∈ ev_waiters (loop_stopped (config_client (sys_loop sys))).

(** The flags of the client as the state of the loop task has them. *)
Definition lifecycle_ok (c : config) : Prop :=
  match c with
  | Running _ s =>
      loop_running s = true ∧ ev_flag (loop_stopped s) = false
      ∧ ev_flag (synced s) = false
  | Stopped s => loop_running s = false ∧ ev_flag (loop_stopped s) = true
  | _ => True
  end.

(** ** The short authentication string of [key_verification_cb]

    Lines 103 to 115, over Python strings as lists of code points of any
    type [A]: what the callback logs for a key event of a known
    transaction. *)

(** [format(s, "^w")] with the default fill: [s] centred in [w] places,
    the odd place going to the right; a longer [s] is left as it is. *)
Definition center {A : Type} (fill : A) (width : nat) (s : list A) : list A :=
  let pad := width - length s in
  repeat fill (pad / 2) ++ s ++ repeat fill (pad - pad / 2).

(** A format string of seven fields [{:^w}] applied to [*args]: [None]
    stands for the [IndexError] raised when there are fewer than seven;
    arguments beyond the seventh are not used. *)
Definition format7 {A : Type} (fill : A) (width : nat) (args : list (list A))
  : option (list A) :=
  if decide (7 ≤ length args)%nat
  then Some (concat (map (center fill width) (take 7 args)))
  else None.

(** [short_string] of line 115 from [sas.get_emoji()]. *)
Definition short_string {A : Type} (space newline : A)
    (emoji : list (list A * list A)) : option (list A) :=
  match format7 space 10 (map fst emoji) with
  | None => None
  | Some emoji_str =>
      match format7 space 11 (map snd emoji) with
      | None => None
      | Some desc => Some (emoji_str ++ [newline] ++ desc)
      end
  end.

(** The callback nio runs for [e] raises: [e] is a key event of a known
    transaction whose [Sas] yields fewer than seven pairs, so that the
    seven-field format of lines 109 to 114 raises [IndexError]. *)
Definition callback_raises (n : nio_state) (e : in_event) : bool :=
  match e with
  | InKeyVerification (KeyVerificationKey txn) =>
      match key_verifications n !! txn with
      | Some sas => bool_decide (length (sas_emoji sas) < 7)%nat
      | None => false
      end
  | _ => false
  end.

(** nio in the middle of one verification, with the seven pairs of its
    short authentication string. *)
Definition verifying_nio : nio_state :=
  mkNio "@pan:example.org" true ∅
    {[ "TXN" := mkSas [("dog", "Dog"); ("cat", "Cat"); ("lion", "Lion");
                       ("horse", "Horse"); ("unicorn", "Unicorn");
                       ("pig", "Pig"); ("elephant", "Elephant")]
                  (mkDevice "ALICEDEVICE" "@alice:example.org" false) ]}
    [] false false.

(** ** The awaits of one iteration *)

(** [w] with the exception taken out: the same [await] returning. *)
Definition returning (w : wake) : wake :=
  mkWake None (w_nio w) (w_status w) (w_events w) (w_changed w).

(** The most [await]s an iteration suspended at [p] still goes through
    before it reaches the end of the [try] body, [p] included; 0 at the two
    sleeps, from which it does not get there. *)
Definition awaits_left (p : pc) : nat :=
  match p with
  | AtSync => 7
  | AtSend => 6
  | AtGatherVerifications => 5
  | AtGatherKeyRequests => 4
  | AtKeysUpload => 3
  | AtKeysQuery => 2
  | AtQueuePut => 1
  | AtSleepStatus | AtSleepFault => 0
  end.

(** The [await] at [p] reports a fault with [w]: the sync a status other
    than 200, or any [await] one of the three connection errors. *)
Definition reports_fault (p : pc) (w : wake) : Prop :=
  (p = AtSync ∧ w_exn w = None ∧ w_status w ≠ 200%Z)
  ∨ (∃ e, w_exn w = Some e ∧ is_transport_error e = true).

(** * Properties *)

(** ** Dictionaries *)

Lemma dict_get_set_eq (k : string) (v : json) (d : pydict) :
  dict_get k (dict_set k v d) = Some v.
Proof.
  induction d as [|[k' v'] d IH]; simpl.
  - by rewrite decide_True.
  - destruct (decide (k = k')) as [->|Hne]; simpl.
    + by rewrite decide_True.
    + by rewrite decide_False.
Qed.

Lemma dict_get_set_ne (k k' : string) (v : json) (d : pydict) :
  k ≠ k' → dict_get k (dict_set k' v d) = dict_get k d.
Proof.
  intros Hne. induction d as [|[k0 v0] d IH]; simpl.
  - by rewrite decide_False.
  - destruct (decide (k' = k0)) as [->|Hne0]; simpl.
    + by rewrite !decide_False.
    + destruct (decide (k = k0)); done.
Qed.

Lemma dict_update_placeholder (d : pydict) :
  dict_update d unable_to_decrypt =
  dict_set "content"
    (JDict [("msgtype", JStr "m.text"); ("body", JStr unable_to_decrypt_body)])
    (dict_set "type" (JStr "m.room.message") d).
Proof. reflexivity. Qed.

Lemma py_getitem_setitem (v : json) (k : string) (x y : json) :
  py_getitem v k = Ok y → py_getitem (py_setitem v k x) k = Ok x.
Proof.
  destruct v; simpl; try discriminate.
  intros _. by rewrite dict_get_set_eq.
Qed.

(** ** The decryption pipeline: one event *)

Section PipelineFacts.
Context {Olm : Type} `{!Engine Olm}.

Lemma pan_decrypt_event_not_megolm (event : json) (room_id : option string)
    (ignore_failures : bool) (c : pan Olm) :
  is_megolm event = false →
  pan_decrypt_event event room_id ignore_failures c =
  (event, Ok false, logged (WarnNotMegolm event) c).
Proof.
  unfold is_megolm, pan_decrypt_event.
  destruct (parse_event event); [discriminate|done].
Qed.

(** Whatever [pan_decrypt_event] does, the engine is the only part of the
    client, besides the log, that it changes. *)
Lemma pan_decrypt_event_rooms (event : json) (room_id : option string)
    (ig : bool) (c : pan Olm) :
  pan_rooms (pan_decrypt_event event room_id ig c).2 = pan_rooms c.
Proof.
  unfold pan_decrypt_event.
  destruct (parse_event event) as [ev|]; [|done].
  destruct (decrypt_event _ _) as [[source verified|e] o].
  - by destruct (py_update event source).
  - destruct e; try done.
    destruct ig; [|done].
    by destruct (py_update event unable_to_decrypt).
Qed.

End PipelineFacts.

(** C5.  An encrypted event whose decryption raises [EncryptionError]: with
    [ignore_failures] the event's ["type"] and ["content"] are overwritten
    with the fixed placeholder, every other key (so also ["decrypted"]) is
    left as it was and the call returns [False]; without [ignore_failures]
    the error is raised and the event is left as it was. *)
Theorem C5_decryption_failure_placeholder {Olm : Type} `{!Engine Olm}
    (d : pydict) (room_id : option string) (c : pan Olm)
    (event : MegolmEvent) (o : Olm) :
  parse_event (JDict d) = PMegolm event →
  decrypt_event (fill_room_id event room_id) (pan_olm c)
    = (DecRaise EncryptionError, o) →
  (∃ d' : pydict,
      pan_decrypt_event (JDict d) room_id true c
        = (JDict d', Ok false, logged WarnEncryptionError (with_olm o c))
      ∧ dict_get "type" d' = Some (JStr "m.room.message")
      ∧ dict_get "content" d' =
          Some (JDict
                  [("msgtype", JStr "m.text");
                   ("body", JStr "** Unable to decrypt: The sender's device has not sent us the keys for this message. **")])
      ∧ dict_get "decrypted" d' = dict_get "decrypted" d
      ∧ ∀ k, k ≠ "type" → k ≠ "content" → dict_get k d' = dict_get k d)
  ∧ pan_decrypt_event (JDict d) room_id false c
      = (JDict d, Raise EncryptionError, logged WarnEncryptionError (with_olm o c)).
Proof.
  intros Hparse Hdec. unfold pan_decrypt_event.
  rewrite Hparse, Hdec. simpl. split; [|done].
  exists (dict_update d unable_to_decrypt). rewrite dict_update_placeholder.
  split; [done|]. split.
  { rewrite dict_get_set_ne by done. apply dict_get_set_eq. }
  split; [apply dict_get_set_eq|]. split.
  { by rewrite !dict_get_set_ne. }
  intros k Ht Hc. by rewrite !dict_get_set_ne.
Qed.

Lemma C5_witness :
  let d := [("type", JStr "m.room.encrypted");
            ("decrypted", JBool false);
            ("content", JDict [("session_id", JStr "lost")])] in
  (∃ d' : pydict,
      @pan_decrypt_event nat demo_engine (JDict d) (Some "!enc:example.org")
        true demo_pan
        = (JDict d', Ok false, logged WarnEncryptionError (with_olm 0 demo_pan))
      ∧ dict_get "type" d' = Some (JStr "m.room.message")
      ∧ dict_get "content" d' =
          Some (JDict
                  [("msgtype", JStr "m.text");
                   ("body", JStr "** Unable to decrypt: The sender's device has not sent us the keys for this message. **")])
      ∧ dict_get "decrypted" d' = dict_get "decrypted" d
      ∧ ∀ k, k ≠ "type" → k ≠ "content" → dict_get k d' = dict_get k d)
  ∧ @pan_decrypt_event nat demo_engine (JDict d) (Some "!enc:example.org")
      false demo_pan
      = (JDict d, Raise EncryptionError,
         logged WarnEncryptionError (with_olm 0 demo_pan)).
Proof.
  apply (@C5_decryption_failure_placeholder nat demo_engine
           [("type", JStr "m.room.encrypted");
            ("decrypted", JBool false);
            ("content", JDict [("session_id", JStr "lost")])]
           (Some "!enc:example.org") demo_pan (demo_event "lost") 0);
    reflexivity.
Defined.

(** ** Encryption *)

(** C8.  When the first attempt raises [GroupEncryptionError], [encrypt]
    shares the group session and calls the engine's [encrypt] once more;
    whatever that second call produces, a value or any exception, is the
    outcome of [encrypt], and the engine is not called again. *)
Theorem C8_encrypt_retries_once {Olm : Type} `{!Engine Olm}
    (room_id msgtype : string) (content : json) (o o1 o2 o3 : Olm)
    (r : result json) :
  super_encrypt room_id msgtype content o = (Raise GroupEncryptionError, o1) →
  share_group_session room_id o1 = (Ok (), o2) →
  super_encrypt room_id msgtype content o2 = (r, o3) →
  encrypt room_id msgtype content o =
  (r, o3, [CallEncrypt room_id msgtype content;
           CallShareGroupSession room_id;
           CallEncrypt room_id msgtype content]).
Proof.
  intros H1 H2 H3. unfold encrypt. by rewrite H1, H2, H3.
Qed.

Lemma C8_witness :
  @encrypt nat stuck_engine "!enc:example.org" "m.room.message" demo_plain 0 =
  (Raise GroupEncryptionError, 3,
   [CallEncrypt "!enc:example.org" "m.room.message" demo_plain;
    CallShareGroupSession "!enc:example.org";
    CallEncrypt "!enc:example.org" "m.room.message" demo_plain]).
Proof.
  exact (@C8_encrypt_retries_once nat stuck_engine "!enc:example.org"
           "m.room.message" demo_plain 0 1 2 3 (Raise GroupEncryptionError)
           eq_refl eq_refl eq_refl).
Defined.

(** ** Loops that mutate their elements *)

Section PyFor.
Context {A S : Type} (body : A → S → A * result unit * S).

Lemma py_for_cons (x : A) (rest : list A) (s : S) :
  py_for body (x :: rest) s =
  match body x s with
  | (x', Raise e, s1) => (x' :: rest, Raise e, s1)
  | (x', Ok _, s1) =>
      match py_for body rest s1 with
      | (rest', r', s2) => (x' :: rest', r', s2)
      end
  end.
Proof.
  simpl. destruct (body x s) as [[x' r] s1]. by destruct r.
Qed.

(** Element by element, output and input are related by whatever relates
    the two sides of one run of the body, as long as the state stays
    within an invariant of the body. *)
Lemma py_for_Forall2 (I : S → Prop) (R : A → A → Prop) :
  (∀ x, R x x) →
  (∀ x s, I s → I (body x s).2) →
  (∀ x s, I s → R x (body x s).1.1) →
  ∀ l s, I s → Forall2 R l (py_for body l s).1.1 ∧ I (py_for body l s).2.
Proof.
  intros Hrefl Hinv Hbody. induction l as [|x rest IH]; intros s Hs.
  - simpl. split; [constructor|done].
  - rewrite py_for_cons.
    pose proof (Hinv x s Hs) as H1. pose proof (Hbody x s Hs) as H2.
    destruct (body x s) as [[x' r] s1]. simpl in H1, H2.
    destruct r as [[]|e]; simpl.
    + destruct (IH s1 H1) as [IH1 IH2].
      destruct (py_for body rest s1) as [[rest' r'] s2]. simpl in *.
      split; [by constructor|done].
    + split; [|done]. constructor; [done|]. by apply Forall_Forall2_diag, Forall_true.
Qed.

Lemma py_for_length (l : list A) (s : S) :
  length (py_for body l s).1.1 = length l.
Proof.
  destruct (py_for_Forall2 (λ _, True) (λ _ _, True)) with (l := l) (s := s)
    as [H _]; try done.
  symmetry. by eapply Forall2_length.
Qed.

Lemma py_for_app (l1 l2 : list A) (s : S) :
  py_for body (l1 ++ l2) s =
  match py_for body l1 s with
  | (l1', Raise e, s1) => (l1' ++ l2, Raise e, s1)
  | (l1', Ok _, s1) =>
      match py_for body l2 s1 with
      | (l2', r', s2) => (l1' ++ l2', r', s2)
      end
  end.
Proof.
  revert s. induction l1 as [|x rest IH]; intros s.
  - simpl. by destruct (py_for body l2 s) as [[l2' r'] s2].
  - rewrite <- app_comm_cons, !py_for_cons.
    destruct (body x s) as [[x' r] s1]. destruct r as [[]|e]; [|done].
    rewrite IH. destruct (py_for body rest s1) as [[rest' r'] s2].
    destruct r' as [[]|e]; [|done].
    by destruct (py_for body l2 s2) as [[l2' r''] s3].
Qed.

(** Two runs from states the body cannot tell apart agree. *)
Lemma py_for_rel (Q : S → S → Prop) :
  (∀ x s s', Q s s' →
     (body x s).1 = (body x s').1 ∧ Q (body x s).2 (body x s').2) →
  ∀ l s s', Q s s' →
    (py_for body l s).1 = (py_for body l s').1
    ∧ Q (py_for body l s).2 (py_for body l s').2.
Proof.
  intros Hbody. induction l as [|x rest IH]; intros s s' HQ.
  - done.
  - rewrite !py_for_cons. destruct (Hbody x s s' HQ) as [H1 H2].
    destruct (body x s) as [[x1 r1] s1], (body x s') as [[x2 r2] s2].
    simpl in H1, H2. injection H1 as -> ->.
    destruct r2 as [[]|e]; [|done].
    destruct (IH s1 s2 H2) as [H3 H4].
    destruct (py_for body rest s1) as [[l1 q1] t1],
             (py_for body rest s2) as [[l2 q2] t2].
    simpl in H3, H4. injection H3 as -> ->. done.
Qed.

(** An element the body passes over, touching the state in a way it cannot
    tell apart, might as well not be in the list. *)
Lemma py_for_skip (I : S → Prop) (Q : S → S → Prop) (x : A)
    (pre post : list A) (s : S) :
  (∀ s, Q s s) →
  (∀ y s, I s → I (body y s).2) →
  (∀ y s s', Q s s' →
     (body y s).1 = (body y s').1 ∧ Q (body y s).2 (body y s').2) →
  (∀ s, I s → (body x s).1 = (x, Ok ()) ∧ Q s (body x s).2) →
  I s →
  let with_x := py_for body (pre ++ x :: post) s in
  let without := py_for body (pre ++ post) s in
  with_x.1.2 = without.1.2
  ∧ Q without.2 with_x.2
  ∧ with_x.1.1 =
      take (length pre) without.1.1 ++ x :: drop (length pre) without.1.1.
Proof.
  intros Hrefl Hinv Hbody Hskip Hs. simpl. rewrite !py_for_app.
  pose proof (py_for_length pre s) as Hlen.
  destruct (py_for_Forall2 I (λ _ _, True)) with (l := pre) (s := s)
    as [_ Hs1]; try done.
  destruct (py_for body pre s) as [[pre' r] s1]. simpl in Hlen, Hs1.
  destruct r as [[]|e].
  - rewrite py_for_cons. destruct (Hskip s1 Hs1) as [Hx HQ].
    destruct (body x s1) as [[x' rx] s1x]. simpl in Hx, HQ.
    injection Hx as -> ->.
    destruct (py_for_rel Q Hbody post s1 s1x HQ) as [H1 H2].
    destruct (py_for body post s1) as [[l1 q1] t1],
             (py_for body post s1x) as [[l2 q2] t2].
    simpl in *. injection H1 as -> ->.
    rewrite <- Hlen, take_app_length, drop_app_length. done.
  - simpl. rewrite <- Hlen, take_app_length, drop_app_length. done.
Qed.

End PyFor.

(** ** The decryption pipeline: bodies *)

Section BodyFacts.
Context {Olm : Type} `{!Engine Olm}.

Lemma same_engine_refl (c : pan Olm) : same_engine c c.
Proof. done. Qed.

Lemma same_engine_logged (e : log_entry) (c : pan Olm) :
  same_engine c (logged e c).
Proof. done. Qed.

Lemma discard_fst {A B S : Type} (x : A * result B * S) :
  (discard x).1.1 = x.1.1 ∧ (discard x).2 = x.2.
Proof. destruct x as [[a [b|e]] s]; done. Qed.

Lemma decrypt_step_frame (event : json) (room_id : option string) (ig : bool)
    (c : pan Olm) :
  is_megolm event = false →
  (discard (pan_decrypt_event event room_id ig c)).1.1 = event.
Proof.
  intros Hm. by rewrite pan_decrypt_event_not_megolm.
Qed.

Lemma decrypt_step_rooms (event : json) (room_id : option string) (ig : bool)
    (c : pan Olm) :
  pan_rooms (discard (pan_decrypt_event event room_id ig c)).2 = pan_rooms c.
Proof.
  destruct (discard_fst (pan_decrypt_event event room_id ig c)) as [_ ->].
  apply pan_decrypt_event_rooms.
Qed.

Lemma decrypt_step_same (event : json) (room_id : option string) (ig : bool)
    (c c' : pan Olm) :
  same_engine c c' →
  (discard (pan_decrypt_event event room_id ig c)).1
    = (discard (pan_decrypt_event event room_id ig c')).1
  ∧ same_engine (discard (pan_decrypt_event event room_id ig c)).2
                (discard (pan_decrypt_event event room_id ig c')).2.
Proof.
  destruct c as [o rooms log], c' as [o' rooms' log'].
  intros [Ho Hr]. simpl in Ho, Hr. subst o' rooms'.
  unfold pan_decrypt_event. simpl.
  destruct (parse_event event) as [ev|]; [|done].
  destruct (decrypt_event _ o) as [[source verified|e] o1].
  - by destruct (py_update event source).
  - destruct e; try done.
    destruct ig; [|done].
    by destruct (py_update event unable_to_decrypt).
Qed.

Lemma messages_event_frame (event : json) (c : pan Olm) :
  has_encrypted_type event = false ∨ is_megolm event = false →
  (messages_event event c).1.1 = event.
Proof.
  unfold messages_event, has_encrypted_type.
  destruct (py_contains "type" event) as [[]|]; try done.
  destruct (py_getitem event "type") as [t|]; [|done].
  destruct (is_str "m.room.encrypted" t); [|done].
  intros [?|Hm]; [done|]. by apply decrypt_step_frame.
Qed.

Lemma events_frame_refl (events : list json) : events_frame events events.
Proof. by apply Forall_Forall2_diag, Forall_true. Qed.

Lemma sync_events_frame (room_id : option string) (ig : bool)
    (events : list json) (c : pan Olm) :
  let out := py_for (λ event c, discard (pan_decrypt_event event room_id ig c))
               events c in
  events_frame events out.1.1 ∧ pan_rooms out.2 = pan_rooms c.
Proof.
  apply (py_for_Forall2 _ (λ c', pan_rooms c' = pan_rooms c)
           (λ e e', is_megolm e = false → e' = e)); try done.
  - intros x s Hs. by rewrite decrypt_step_rooms.
  - intros x s _ Hm. by apply decrypt_step_frame.
Qed.

Lemma sync_room_unknown (ig : bool) (room_id : string) (room_dict : json)
    (c : pan Olm) :
  pan_rooms c !! room_id = None →
  sync_room ig (room_id, room_dict) c =
  ((room_id, room_dict), Ok (), logged (InfoUnknownRoom room_id) c).
Proof. intros Hr. unfold sync_room. by rewrite Hr. Qed.

Lemma room_frame_refl (rooms : gmap string MatrixRoom) (item : string * json) :
  room_frame rooms item item.
Proof.
  split; [done|]. split; [done|].
  intros events Hev. exists events. split; [done|apply events_frame_refl].
Qed.

Lemma sync_room_frame (ig : bool) (item : string * json) (c : pan Olm) :
  room_frame (pan_rooms c) item (sync_room ig item c).1.1
  ∧ pan_rooms (sync_room ig item c).2 = pan_rooms c.
Proof.
  destruct item as [room_id room_dict]. unfold sync_room.
  destruct (pan_rooms c !! room_id) as [room|] eqn:Hroom;
    [|split; [apply room_frame_refl|done]].
  destruct (encrypted room) eqn:Henc; simpl;
    [|split; [apply room_frame_refl|done]].
  destruct (py_getitem room_dict "timeline") as [timeline|] eqn:Htl;
    [|split; [apply room_frame_refl|done]].
  destruct (py_getitem timeline "events") as [evs|] eqn:Hevs;
    [|split; [apply room_frame_refl|done]].
  destruct (py_iter evs) as [events|] eqn:Hiter;
    [|split; [apply room_frame_refl|done]].
  destruct (sync_events_frame (Some room_id) ig events c) as [Hframe Hrooms].
  destruct (py_for _ events c) as [[events' r] c1]. simpl in Hframe, Hrooms.
  split; [|done]. split; [done|]. split.
  { unfold room_is_encrypted. simpl. rewrite Hroom, Henc. discriminate. }
  simpl. intros l. unfold room_events. rewrite Htl, Hevs.
  destruct evs as [| | | |l0|]; try discriminate.
  intros [= <-]. simpl in Hiter. injection Hiter as <-.
  exists events'. split; [|done].
  erewrite py_getitem_setitem by done.
  erewrite py_getitem_setitem by done. done.
Qed.

Lemma sync_room_same (ig : bool) (item : string * json) (c c' : pan Olm) :
  same_engine c c' →
  (sync_room ig item c).1 = (sync_room ig item c').1
  ∧ same_engine (sync_room ig item c).2 (sync_room ig item c').2.
Proof.
  intros Hsame. pose proof Hsame as [Ho Hr].
  destruct item as [room_id room_dict]. unfold sync_room. rewrite <- Hr.
  destruct (pan_rooms c !! room_id) as [room|]; [|done].
  destruct (encrypted room); simpl; [|done].
  destruct (py_getitem room_dict "timeline") as [timeline|]; [|done].
  destruct (py_getitem timeline "events") as [evs|]; [|done].
  destruct (py_iter evs) as [events|]; [|done].
  destruct (py_for_rel
              (λ event c, discard (pan_decrypt_event event (Some room_id) ig c))
              same_engine
              (λ x s s', decrypt_step_same x (Some room_id) ig s s')
              events c c' Hsame) as [H1 H2].
  destruct (py_for _ events c) as [[l1 r1] c1],
           (py_for _ events c') as [[l2 r2] c2].
  simpl in H1, H2. injection H1 as -> ->. done.
Qed.

Lemma sync_join_set (body rooms items items' : pydict) :
  dict_get "rooms" body = Some (JDict rooms) →
  dict_get "join" rooms = Some (JDict items) →
  sync_join (dict_set "rooms" (py_setitem (JDict rooms) "join" (JDict items')) body)
  = Some items'.
Proof.
  intros _ _. unfold sync_join. rewrite dict_get_set_eq. simpl.
  by rewrite dict_get_set_eq.
Qed.

Lemma sync_join_inv (body items : pydict) :
  sync_join body = Some items →
  ∃ rooms, dict_get "rooms" body = Some (JDict rooms)
           ∧ dict_get "join" rooms = Some (JDict items).
Proof.
  unfold sync_join. destruct (dict_get "rooms" body) as [rooms|]; [|done].
  destruct rooms as [| | | | |rooms]; try done. simpl.
  destruct (dict_get "join" rooms) as [join|] eqn:Hjoin; [|done].
  destruct join as [| | | | |d]; try done.
  intros [= ->]. exists rooms. by split.
Qed.

Lemma decrypt_sync_body_join (body rooms items : pydict) (ig : bool)
    (c : pan Olm) :
  dict_get "rooms" body = Some (JDict rooms) →
  dict_get "join" rooms = Some (JDict items) →
  decrypt_sync_body body ig c =
  match py_for (sync_room ig) items (logged InfoDecryptingSync c) with
  | (items', r, c1) =>
      (dict_set "rooms" (py_setitem (JDict rooms) "join" (JDict items')) body,
       r, c1)
  end.
Proof.
  intros Hrooms Hjoin. unfold decrypt_sync_body. rewrite Hrooms. simpl.
  by rewrite Hjoin.
Qed.

End BodyFacts.

(** C9.  What the pipeline leaves alone.
    - [pan_decrypt_event] returns [False] and the event as it was when the
      event does not parse as a Megolm event.
    - [decrypt_messages_body]: the chunk keeps its length, and every event
      that does not carry the type [m.room.encrypted], or does not parse as
      Megolm, is in the output chunk at its place as it was.
    - [decrypt_sync_body]: the joined rooms keep their number and ids; the
      dict of a room that is unknown, or known and not encrypted, is as it
      was; in every room each timeline event that does not parse as Megolm
      is at its place as it was.
    - The loop body on an unknown room returns without raising, and the
      whole call on a body with an unknown room ends as it does on the body
      without that room, with the same other rooms around the untouched
      one, the clients differing in their logs only. *)
Theorem C9_pipeline_frame {Olm : Type} `{!Engine Olm} :
  (∀ (event : json) (room_id : option string) (ig : bool) (c : pan Olm),
      is_megolm event = false →
      pan_decrypt_event event room_id ig c
      = (event, Ok false, logged (WarnNotMegolm event) c))
  ∧ (∀ (body : pydict) (chunk : list json) (c : pan Olm),
      dict_get "chunk" body = Some (JList chunk) →
      ∃ chunk' : list json,
        dict_get "chunk" (decrypt_messages_body body c).1.1 = Some (JList chunk')
        ∧ length chunk' = length chunk
        ∧ (∀ k, k ≠ "chunk" →
             dict_get k (decrypt_messages_body body c).1.1 = dict_get k body)
        ∧ ∀ (i : nat) (e : json),
            chunk !! i = Some e →
            has_encrypted_type e = false ∨ is_megolm e = false →
            chunk' !! i = Some e)
  ∧ (∀ (body items : pydict) (ig : bool) (c : pan Olm),
      sync_join body = Some items →
      ∃ items' : pydict,
        sync_join (decrypt_sync_body body ig c).1.1 = Some items'
        ∧ length items' = length items
        ∧ ∀ (i : nat) (room_id : string) (room_dict : json),
            items !! i = Some (room_id, room_dict) →
            ∃ room_dict' : json,
              items' !! i = Some (room_id, room_dict')
              ∧ (room_is_encrypted (pan_rooms c) room_id = false →
                 room_dict' = room_dict)
              ∧ ∀ events : list json,
                  room_events room_dict = Some events →
                  ∃ events' : list json,
                    room_events room_dict' = Some events'
                    ∧ length events' = length events
                    ∧ ∀ (j : nat) (e : json),
                        events !! j = Some e →
                        is_megolm e = false →
                        events' !! j = Some e)
  ∧ (∀ (ig : bool) (room_id : string) (room_dict : json) (c : pan Olm),
      pan_rooms c !! room_id = None →
      sync_room ig (room_id, room_dict) c
      = ((room_id, room_dict), Ok (), logged (InfoUnknownRoom room_id) c))
  ∧ (∀ (body rooms pre post : pydict) (room_id : string) (room_dict : json)
       (ig : bool) (c : pan Olm),
      dict_get "rooms" body = Some (JDict rooms) →
      dict_get "join" rooms = Some (JDict (pre ++ (room_id, room_dict) :: post)) →
      pan_rooms c !! room_id = None →
      let with_room := decrypt_sync_body body ig c in
      let without :=
        decrypt_sync_body
          (dict_set "rooms" (JDict (dict_set "join" (JDict (pre ++ post)) rooms))
             body) ig c in
      with_room.1.2 = without.1.2
      ∧ same_engine without.2 with_room.2
      ∧ ∃ items0 : pydict,
          sync_join without.1.1 = Some items0
          ∧ sync_join with_room.1.1 =
              Some (take (length pre) items0 ++ (room_id, room_dict)
                      :: drop (length pre) items0)).
Proof.
  split; [apply @pan_decrypt_event_not_megolm|].
  split.
  { intros body chunk c Hchunk. unfold decrypt_messages_body.
    rewrite Hchunk. simpl.
    destruct (py_for_Forall2 messages_event (λ _, True)
                (λ e e', has_encrypted_type e = false ∨ is_megolm e = false
                         → e' = e))
      with (l := chunk) (s := logged InfoDecryptingMessages c) as [Hall _];
      try done.
    { intros x s _. apply messages_event_frame. }
    destruct (py_for messages_event chunk _) as [[chunk' r] c1].
    simpl in *. exists chunk'. rewrite dict_get_set_eq.
    split; [done|]. split; [symmetry; by eapply Forall2_length|].
    split; [intros k Hk; by rewrite dict_get_set_ne|].
    intros i e Hi He.
    destruct (Forall2_lookup_l _ _ _ _ _ Hall Hi) as (e' & Hi' & Hee').
    by rewrite Hi', (Hee' He). }
  split.
  { intros body items ig c Hjoin.
    destruct (sync_join_inv _ _ Hjoin) as (rooms & Hrooms & Hitems).
    rewrite (decrypt_sync_body_join _ _ _ _ _ Hrooms Hitems).
    destruct (py_for_Forall2 (sync_room ig)
                (λ c', pan_rooms c' = pan_rooms c) (room_frame (pan_rooms c)))
      with (l := items) (s := logged InfoDecryptingSync c) as [Hall _];
      try done.
    { apply room_frame_refl. }
    { intros x s Hs. destruct (sync_room_frame ig x s) as [_ ->]. done. }
    { intros x s Hs. destruct (sync_room_frame ig x s) as [Hf _].
      by rewrite Hs in Hf. }
    destruct (py_for (sync_room ig) items _) as [[items' r] c1].
    simpl in *. exists items'.
    split; [by eapply sync_join_set|].
    split; [symmetry; by eapply Forall2_length|].
    intros i room_id room_dict Hi.
    destruct (Forall2_lookup_l _ _ _ _ _ Hall Hi)
      as ([rid' room_dict'] & Hi' & Hid & Hskip & Hevents).
    simpl in *. subst rid'. exists room_dict'.
    split; [done|]. split; [done|].
    intros events Hev. destruct (Hevents events Hev) as (events' & Hev' & Hfr).
    exists events'. split; [done|].
    split; [symmetry; by eapply Forall2_length|].
    intros j e Hj He.
    destruct (Forall2_lookup_l _ _ _ _ _ Hfr Hj) as (e' & Hj' & Hee').
    by rewrite Hj', (Hee' He). }
  split; [apply @sync_room_unknown|].
  intros body rooms pre post room_id room_dict ig c Hrooms Hjoin Hunknown.
  simpl.
  rewrite (decrypt_sync_body_join _ _ _ _ _ Hrooms Hjoin).
  rewrite (decrypt_sync_body_join _ (dict_set "join" (JDict (pre ++ post)) rooms)
             (pre ++ post));
    [|apply dict_get_set_eq|apply dict_get_set_eq].
  destruct (py_for_skip (sync_room ig) (λ c', pan_rooms c' = pan_rooms c)
              same_engine (room_id, room_dict)
              pre post (logged InfoDecryptingSync c))
    as (Hr & Hsame & Hitems); try done.
  { intros y s Hs. destruct (sync_room_frame ig y s) as [_ ->]. done. }
  { intros y s s'. apply sync_room_same. }
  { intros s Hs. rewrite sync_room_unknown by (by rewrite Hs). done. }
  destruct (py_for (sync_room ig) (pre ++ (room_id, room_dict) :: post) _)
    as [[items1 r1] c1].
  destruct (py_for (sync_room ig) (pre ++ post) _) as [[items0 r0] c0].
  simpl in *. split; [done|]. split; [done|].
  exists items0. split.
  - eapply sync_join_set; [apply dict_get_set_eq|apply dict_get_set_eq].
  - rewrite <- Hitems. by eapply sync_join_set.
Qed.

Lemma C9_witness :
  let with_room :=
    @decrypt_sync_body nat demo_engine demo_sync_body true demo_pan in
  let without :=
    @decrypt_sync_body nat demo_engine
      (dict_set "rooms"
         (JDict (dict_set "join"
                   (JDict ([] ++ [("!enc:example.org",
                                   demo_room [demo_plain; demo_encrypted "known"])]))
                   demo_sync_rooms))
         demo_sync_body) true demo_pan in
  with_room.1.2 = without.1.2
  ∧ same_engine without.2 with_room.2
  ∧ ∃ items0 : pydict,
      sync_join without.1.1 = Some items0
      ∧ sync_join with_room.1.1 =
          Some (take (length (@nil (string * json))) items0
                  ++ ("!unknown:example.org", demo_room [demo_encrypted "known"])
                  :: drop (length (@nil (string * json))) items0).
Proof.
  apply (proj2 (proj2 (proj2 (proj2 (@C9_pipeline_frame nat demo_engine))))
           demo_sync_body demo_sync_rooms []
           [("!enc:example.org", demo_room [demo_plain; demo_encrypted "known"])]
           "!unknown:example.org" (demo_room [demo_encrypted "known"])
           true demo_pan);
    reflexivity.
Defined.

(** C10.  [decrypt_sync_body] on a body without ["rooms"], or whose
    ["rooms"] is a dict without ["join"], raises [KeyError] having done
    nothing but log that it starts: the body is as it was and no room was
    looked at.  [decrypt_messages_body] on a body without ["chunk"] returns
    the body as it was and does nothing else. *)
Theorem C10_body_shape {Olm : Type} `{!Engine Olm}
    (body : pydict) (ig : bool) (c : pan Olm) :
  (dict_get "rooms" body = None
   ∨ (∃ rooms : pydict,
        dict_get "rooms" body = Some (JDict rooms)
        ∧ dict_get "join" rooms = None) →
   decrypt_sync_body body ig c
   = (body, Raise KeyError, logged InfoDecryptingSync c))
  ∧ (dict_get "chunk" body = None →
     decrypt_messages_body body c = (body, Ok (), c)).
Proof.
  split.
  - unfold decrypt_sync_body. intros [Hrooms|(rooms & Hrooms & Hjoin)].
    + by rewrite Hrooms.
    + rewrite Hrooms. simpl. by rewrite Hjoin.
  - unfold decrypt_messages_body. by intros ->.
Qed.

Lemma C10_witness :
  @decrypt_sync_body nat demo_engine demo_leave_body true demo_pan
  = (demo_leave_body, Raise KeyError, logged InfoDecryptingSync demo_pan)
  ∧ @decrypt_sync_body nat demo_engine [("next_batch", JStr "s1")] true demo_pan
    = ([("next_batch", JStr "s1")], Raise KeyError,
       logged InfoDecryptingSync demo_pan)
  ∧ @decrypt_messages_body nat demo_engine demo_leave_body demo_pan
    = (demo_leave_body, Ok (), demo_pan).
Proof.
  split; [|split].
  - apply (proj1 (@C10_body_shape nat demo_engine demo_leave_body true demo_pan)).
    right. exists [("leave", JDict [])]. split; reflexivity.
  - apply (proj1 (@C10_body_shape nat demo_engine [("next_batch", JStr "s1")]
                    true demo_pan)).
    left. reflexivity.
  - apply (proj2 (@C10_body_shape nat demo_engine demo_leave_body true demo_pan)).
    reflexivity.
Defined.

(** ** The callbacks *)

Lemma undecrypted_event_cb_requested (n : nio_state) (room_id : string)
    (event : MegolmEvent) (s : client) :
  ev_session_id event ∈ outgoing_key_requests n →
  undecrypted_event_cb n room_id event s =
  (s, [ALog (InfoUnableToDecrypt (ev_sender event) (ev_device_id event))]).
Proof. intros Hin. unfold undecrypted_event_cb. by rewrite decide_True. Qed.

Lemma undecrypted_event_cb_spawns (n : nio_state) (room_id : string)
    (event : MegolmEvent) (s : client) :
  ev_session_id event ∉ outgoing_key_requests n →
  let s' := (undecrypted_event_cb n room_id event s).1 in
  key_request_tasks s' = key_request_tasks s ++ [created_tasks s]
  ∧ created_tasks s' = S (created_tasks s).
Proof. intros Hin. unfold undecrypted_event_cb. by rewrite decide_False. Qed.

(** The callback reads the registry and never writes it: a second event of
    the same session, handled before nio has recorded the first request,
    spawns a second task. *)
Lemma undecrypted_event_cb_twice (n : nio_state) (room_id : string)
    (e1 e2 : MegolmEvent) (s : client) :
  ev_session_id e1 = ev_session_id e2 →
  ev_session_id e1 ∉ outgoing_key_requests n →
  key_request_tasks
    (run_callbacks n [InMegolm room_id e1; InMegolm room_id e2] s).1
  = key_request_tasks s ++ [created_tasks s; S (created_tasks s)].
Proof.
  intros Hsid Hin. simpl.
  destruct (undecrypted_event_cb_spawns n room_id e1 s Hin) as [H1 H1'].
  destruct (undecrypted_event_cb n room_id e1 s) as [s1 a1]. simpl in H1, H1'.
  rewrite Hsid in Hin.
  destruct (undecrypted_event_cb_spawns n room_id e2 s1 Hin) as [H2 _].
  destruct (undecrypted_event_cb n room_id e2 s1) as [s2 a2]. simpl in *.
  by rewrite H2, H1, H1', <- app_assoc.
Qed.

(** C1.  Two undecryptable events of one session, delivered by the same
    sync response while no request for that session is in the registry:
    both spawn a [request_room_key] task, so the list of key-request tasks
    grows by two. *)
Theorem C1_duplicate_key_request :
  let s := (run_callbacks demo_nio
              [InMegolm "!enc:example.org" (demo_event "SESSION");
               InMegolm "!enc:example.org" (demo_event "SESSION")]
              (init true)).1 in
  key_request_tasks (init true) = []
  ∧ key_request_tasks s = [0; 1]
  ∧ length (key_request_tasks s) = 2.
Proof.
  split; [done|].
  rewrite (undecrypted_event_cb_twice demo_nio "!enc:example.org"
             (demo_event "SESSION") (demo_event "SESSION") (init true)
             eq_refl); [done|].
  simpl. set_solver.
Qed.

(** ** The loop, one resumption at a time *)

Lemma same_signals_refl (s : client) : same_signals s s.
Proof. done. Qed.

Lemma same_signals_trans (s1 s2 s3 : client) :
  same_signals s1 s2 → same_signals s2 s3 → same_signals s1 s3.
Proof.
  unfold same_signals. intros (?&?&?&?&?) (?&?&?&?&?).
  repeat split; congruence.
Qed.

Lemma synced_sets_app (a b : list action) :
  synced_sets (a ++ b) = synced_sets a + synced_sets b.
Proof. unfold synced_sets. by rewrite List.filter_app, length_app. Qed.

Lemma run_callback_frame (n : nio_state) (e : in_event) (s : client) :
  let r := run_callback n e s in
  same_signals s r.1
  ∧ synced_sets r.2 = 0
  ∧ Forall (λ a, is_post_processing a = false) r.2
  ∧ key_request_tasks s `prefix_of` key_request_tasks r.1.
Proof.
  destruct e as [room_id event|event]; simpl.
  - unfold undecrypted_event_cb.
    destruct (decide _); simpl; repeat split; repeat constructor.
    + done.
    + by apply prefix_app_r.
  - destruct event as [txn|txn|txn|txn]; simpl;
      try destruct (key_verifications n !! txn);
      simpl; repeat split; repeat constructor; done.
Qed.

Lemma run_callbacks_frame (n : nio_state) (es : list in_event) (s : client) :
  let r := run_callbacks n es s in
  same_signals s r.1
  ∧ synced_sets r.2 = 0
  ∧ Forall (λ a, is_post_processing a = false) r.2
  ∧ key_request_tasks s `prefix_of` key_request_tasks r.1.
Proof.
  revert s. induction es as [|e es IH]; intros s; simpl.
  - repeat split; done.
  - destruct (run_callback_frame n e s) as (H1 & H2 & H3 & H4).
    destruct (run_callback n e s) as [s1 a1]. simpl in *.
    destruct (IH s1) as (H1' & H2' & H3' & H4').
    destruct (run_callbacks n es s1) as [s2 a2]. simpl in *.
    split; [by eapply same_signals_trans|].
    split; [by rewrite synced_sets_app, H2, H2'|].
    split; [by apply Forall_app|]. by etrans.
Qed.

Lemma create_to_device_tasks_frame (ms : list string) (s : client) :
  let r := create_to_device_tasks ms s in
  same_signals s r.1.2
  ∧ synced_sets r.2 = 0
  ∧ key_request_tasks r.1.2 = key_request_tasks s
  ∧ key_verificatins_tasks r.1.2 = key_verificatins_tasks s.
Proof.
  revert s. induction ms as [|m ms IH]; intros s; simpl; [done|].
  destruct (IH (create_task s).2) as (H1 & H2 & H3 & H4).
  destruct (create_to_device_tasks ms _) as [[ts s2] a]. simpl in *.
  split; [|done]. eapply same_signals_trans; [|done]. done.
Qed.

Lemma synced_sets_none (acts : list action) :
  Forall (λ a, is_synced_set a = false) acts → synced_sets acts = 0.
Proof.
  unfold synced_sets. induction 1 as [|a acts Ha _ IH]; simpl; [done|].
  by rewrite Ha.
Qed.

Lemma verify_devices_no_signal (changed : changed_devices) :
  synced_sets (verify_devices changed) = 0.
Proof.
  apply synced_sets_none. unfold verify_devices.
  induction changed as [|[user devices] changed IH]; simpl; [constructor|].
  apply Forall_app. split; [|done].
  unfold verify_user_devices. clear IH.
  induction devices as [|[k d] devices IH]; simpl; [constructor|].
  apply Forall_app. split; [|done].
  destruct (dev_deleted d); repeat constructor.
Qed.

Lemma finish_iteration_spec (s : client) :
  ev_flag (synced s) = false →
  finish_iteration s =
  (Synced (set_synced (mkEvent false []) s),
   [ASyncedSet (ev_waiters (synced s)); ASyncedClear]).
Proof.
  intros Hflag. unfold finish_iteration, event_set. by rewrite Hflag.
Qed.

Lemma finish_iteration_once (s : client) :
  ev_flag (synced s) = false → signals_once s (finish_iteration s).
Proof.
  intros Hflag. rewrite finish_iteration_spec by done. by exists [].
Qed.

Lemma handle_exception_quiet (e : exn) (s : client) :
  signals_once s (handle_exception e s).
Proof.
  unfold handle_exception, _loop_stop, event_set.
  destruct e; simpl; try done; by destruct (ev_flag (loop_stopped s)).
Qed.

Lemma send_to_device_messages_quiet (n : nio_state) (s s0 : client) :
  synced s = synced s0 →
  signals_once s0 (send_to_device_messages n s).
Proof.
  intros Hs. unfold send_to_device_messages.
  destruct (outgoing_to_device_messages n) as [|m ms]; [done|].
  destruct (create_to_device_tasks_frame (m :: ms) s) as ((H1 & _) & H2 & _).
  destruct (create_to_device_tasks (m :: ms) s) as [[ts s1] a].
  simpl in *. split; [|congruence].
  by rewrite synced_sets_app, H2.
Qed.

(** One resumption sets the synced signal only by running off the end of
    the [try] body. *)
Lemma resume_signals_once (p : pc) (w : wake) (s : client) :
  ev_flag (synced s) = false → signals_once s (resume p w s).
Proof.
  intros Hflag. unfold resume.
  destruct p, (w_exn w) as [e|];
    try apply handle_exception_quiet;
    try (by apply finish_iteration_once); try done.
  - destruct (run_callbacks_frame (w_nio w) (w_events w) s)
      as ((H1 & _) & H2 & _).
    destruct (run_callbacks _ _ s) as [s1 a]. simpl in *.
    destruct (decide _).
    + pose proof (send_to_device_messages_quiet (w_nio w) s1 s H1) as H3.
      destruct (send_to_device_messages _ s1) as [n' a'].
      destruct n'; simpl in *; try (destruct H3 as [H3 H4]; split;
        [by rewrite synced_sets_app, H2, H3|done]).
      destruct H3 as (pre & -> & H3 & H4). exists (a ++ pre).
      split; [by rewrite app_assoc|]. split; [|done].
      by rewrite synced_sets_app, H2, H3.
    + simpl. split; [|done]. by rewrite synced_sets_app, H2.
  - destruct e; try apply handle_exception_quiet. done.
  - unfold after_key_requests, after_keys_upload.
    destruct (should_upload_keys _); [done|].
    destruct (should_query_keys _); [done|]. by apply finish_iteration_once.
  - unfold after_keys_upload.
    destruct (should_query_keys _); [done|]. by apply finish_iteration_once.
  - unfold after_keys_query.
    destruct (w_changed w) as [ch|]; [|by apply finish_iteration_once].
    destruct (has_queue s); simpl; (split; [|done]).
    + by rewrite synced_sets_app, verify_devices_no_signal.
    + apply verify_devices_no_signal.
  - unfold _loop_stop, event_set.
    destruct e; simpl; try done; by destruct (ev_flag (loop_stopped s)).
Qed.

(** The same over a whole iteration. *)
Lemma iteration_signals_once (ws : list wake) (p : pc) (s : client) :
  ev_flag (synced s) = false → signals_once s (iteration p ws s).
Proof.
  revert p s. induction ws as [|w ws IH]; intros p s Hflag; [done|].
  simpl. pose proof (resume_signals_once p w s Hflag) as H1.
  destruct (resume p w s) as [n a]. destruct n as [p' s'| | | |]; try done.
  destruct H1 as [H1 H2]. simpl in H2.
  assert (ev_flag (synced s') = false) as Hflag' by congruence.
  pose proof (IH p' s' Hflag') as H3.
  destruct (iteration p' ws s') as [n' a'].
  destruct n'; simpl in *; rewrite H2 in H3;
    try (destruct H3 as [H3 H4]; split;
         [by rewrite synced_sets_app, H1, H3|done]).
  destruct H3 as (pre & -> & H3 & H4). exists (a ++ pre).
  split; [by rewrite app_assoc|]. split; [|done].
  by rewrite synced_sets_app, H1, H3.
Qed.

(** ** Transport faults *)

Lemma handle_transport_error (e : exn) (s : client) :
  is_transport_error e = true →
  handle_exception e s = (Suspend AtSleepFault s, [ASleep 5]).
Proof. by destruct e. Qed.

Lemma resume_transport_error (p : pc) (w : wake) (s : client) (e : exn) :
  p ≠ AtSleepFault →
  w_exn w = Some e →
  is_transport_error e = true →
  resume p w s = (Suspend AtSleepFault s, [ASleep 5]).
Proof.
  intros Hp Hw He. unfold resume. rewrite Hw.
  destruct p; try done; try by apply handle_transport_error.
  destruct e; try done.
Qed.

Lemma resume_sleep_over (w : wake) (s : client) :
  w_exn w = None → resume AtSleepFault w s = (Retry s, []).
Proof. intros Hw. unfold resume. by rewrite Hw. Qed.

(** C3, as the code has it.  A transport fault reported by the sync call
    itself, a status other than 200 or one of the three connection errors,
    is followed by a sleep of 5 seconds and the next iteration, and nothing
    of the iteration's post-processing is done.  One of the three
    connection errors raised at any later [await] of the iteration is
    followed by the same sleep and the next iteration as well, what the
    iteration did before staying done.  Either way the loop goes on with
    its next sync call, and an iteration that ends in such a sleep never
    sets the synced signal. *)
Theorem C3_transport_fault_backoff :
  (∀ (w w' : wake) (s : client),
      (w_exn w = None ∧ w_status w ≠ 200%Z)
      ∨ (∃ e, w_exn w = Some e ∧ is_transport_error e = true) →
      w_exn w' = None →
      ∃ (s' : client) (acts : list action),
        iteration AtSync [w; w'] s = (Retry s', acts ++ [ASleep 5])
        ∧ Forall (λ a, is_post_processing a = false) (acts ++ [ASleep 5])
        ∧ run [w; w'] (Running AtSync s)
          = (Running AtSync s', acts ++ [ASleep 5; ASync 30000]))
  ∧ (∀ (p : pc) (w w' : wake) (s : client) (e : exn),
      p ≠ AtSleepFault →
      w_exn w = Some e →
      is_transport_error e = true →
      w_exn w' = None →
      iteration p [w; w'] s = (Retry s, [ASleep 5])
      ∧ run [w; w'] (Running p s) = (Running AtSync s, [ASleep 5; ASync 30000]))
  ∧ (∀ (ws : list wake) (s s' : client) (acts : list action),
      ev_flag (synced s) = false →
      iteration AtSync ws s = (Retry s', acts) →
      synced_sets acts = 0 ∧ synced s' = synced s).
Proof.
  split; [|split].
  - intros w w' s [[Hw Hstatus]|(e & Hw & He)] Hw'.
    + destruct (run_callbacks_frame (w_nio w) (w_events w) s)
        as (_ & _ & Hquiet & _).
      unfold run, step, iteration.
      assert (resume AtSync w s
              = (Suspend AtSleepStatus (run_callbacks (w_nio w) (w_events w) s).1,
                 (run_callbacks (w_nio w) (w_events w) s).2 ++ [ASleep 5]))
        as ->.
      { unfold resume. rewrite Hw.
        destruct (run_callbacks (w_nio w) (w_events w) s) as [s1 a].
        by rewrite decide_False. }
      destruct (run_callbacks (w_nio w) (w_events w) s) as [s1 a].
      cbn [fst snd] in *.
      assert (resume AtSleepStatus w' s1 = (Retry s1, [])) as ->.
      { unfold resume. by rewrite Hw'. }
      simpl. exists s1, a. rewrite !app_nil_r, <- !app_assoc. simpl.
      split; [done|]. split; [|done].
      apply Forall_app. split; [done|]. by repeat constructor.
    + unfold run, step, iteration.
      rewrite (resume_transport_error AtSync w s e) by done.
      rewrite (resume_sleep_over w' s Hw'). simpl.
      exists s, []. split; [done|]. split; [|done]. by repeat constructor.
  - intros p w w' s e Hp Hw He Hw'. unfold run, step, iteration.
    rewrite (resume_transport_error p w s e) by done.
    by rewrite (resume_sleep_over w' s Hw').
  - intros ws s s' acts Hflag Hit.
    pose proof (iteration_signals_once ws AtSync s Hflag) as H.
    by rewrite Hit in H.
Qed.

Lemma C3_witness :
  iteration AtGatherKeyRequests
    [raised ServerDisconnectedError demo_nio; returned demo_nio] demo_running
  = (Retry demo_running, [ASleep 5])
  ∧ run [raised ServerDisconnectedError demo_nio; returned demo_nio]
      (Running AtGatherKeyRequests demo_running)
    = (Running AtSync demo_running, [ASleep 5; ASync 30000]).
Proof.
  apply (proj1 (proj2 C3_transport_fault_backoff) AtGatherKeyRequests
           (raised ServerDisconnectedError demo_nio) (returned demo_nio)
           demo_running ServerDisconnectedError);
    done.
Defined.

(** The claim as the specification words it: an iteration that ends in the
    sleep after a transport fault has done none of the post-processing.
    Here the sync succeeds, the pending to-device message is dispatched,
    both task lists are gathered and the key upload is started before
    [keys_upload] raises [ConnectionRefusedError]. *)
Lemma C3_counterexample :
  iteration AtSync fault_after_dispatch demo_running
  = (Retry (mkClient (Some 0) true true (mkEvent false []) (mkEvent false [5])
              [] [] 2),
     [ACreateTask 1 (ToDevice "m.room_key_request"); AGatherToDevice [1];
      AGatherVerifications []; AGatherKeyRequests []; AKeysUpload; ASleep 5])
  ∧ ¬ (∀ (ws : list wake) (s s' : client) (acts : list action),
         iteration AtSync ws s = (Retry s', acts) →
         Forall (λ a, is_post_processing a = false) acts).
Proof.
  assert (iteration AtSync fault_after_dispatch demo_running
          = (Retry (mkClient (Some 0) true true (mkEvent false [])
                      (mkEvent false [5]) [] [] 2),
             [ACreateTask 1 (ToDevice "m.room_key_request"); AGatherToDevice [1];
              AGatherVerifications []; AGatherKeyRequests []; AKeysUpload;
              ASleep 5])) as Hrun by reflexivity.
  split; [exact Hrun|].
  intros Hclaim. specialize (Hclaim _ _ _ _ Hrun).
  apply Forall_cons in Hclaim as [_ Hclaim].
  apply Forall_cons in Hclaim as [Hdispatch _].
  discriminate Hdispatch.
Qed.

(** ** The list of key-request tasks *)

Lemma handle_exception_key_requests (e : exn) (s : client) :
  key_request_tasks (next_client (handle_exception e s).1) = key_request_tasks s.
Proof.
  unfold handle_exception, _loop_stop, event_set.
  destruct e; simpl; try done; by destruct (ev_flag (loop_stopped s)).
Qed.

Lemma finish_iteration_key_requests (s : client) :
  key_request_tasks (next_client (finish_iteration s).1) = key_request_tasks s.
Proof.
  unfold finish_iteration, event_set. by destruct (ev_flag (synced s)).
Qed.

(** No resumption of the loop takes a task off the list of key requests. *)
Lemma resume_keeps_key_requests (p : pc) (w : wake) (s : client) :
  key_request_tasks s `prefix_of`
  key_request_tasks (next_client (resume p w s).1).
Proof.
  unfold resume.
  destruct p, (w_exn w) as [e|];
    try (rewrite handle_exception_key_requests; done);
    try (rewrite finish_iteration_key_requests; done);
    try done.
  - destruct (run_callbacks_frame (w_nio w) (w_events w) s) as (_ & _ & _ & H).
    destruct (run_callbacks _ _ s) as [s1 a]. simpl in H.
    destruct (decide _); [|done].
    unfold send_to_device_messages.
    destruct (outgoing_to_device_messages _) as [|m ms]; [done|].
    destruct (create_to_device_tasks_frame (m :: ms) s1) as (_ & _ & H' & _).
    destruct (create_to_device_tasks (m :: ms) s1) as [[ts s2] a'].
    simpl in *. by rewrite H'.
  - destruct e; try (rewrite handle_exception_key_requests; done). done.
  - unfold after_key_requests, after_keys_upload.
    destruct (should_upload_keys _); [done|].
    destruct (should_query_keys _); [done|].
    by rewrite finish_iteration_key_requests.
  - unfold after_keys_upload.
    destruct (should_query_keys _); [done|].
    by rewrite finish_iteration_key_requests.
  - unfold after_keys_query.
    destruct (w_changed w); [by destruct (has_queue s)|].
    by rewrite finish_iteration_key_requests.
  - unfold _loop_stop, event_set.
    destruct e; simpl; try done; by destruct (ev_flag (loop_stopped s)).
Qed.

Lemma step_keeps_key_requests (c : config) (w : wake) :
  key_request_tasks (config_client c) `prefix_of`
  key_request_tasks (config_client (step c w).1).
Proof.
  destruct c as [s|p s|s|e s]; simpl; try done.
  - by destruct (w_exn w) as [[]|].
  - pose proof (resume_keeps_key_requests p w s) as H.
    destruct (resume p w s) as [[] a]; done.
Qed.

Lemma run_keeps_key_requests (ws : list wake) (c : config) :
  key_request_tasks (config_client c) `prefix_of`
  key_request_tasks (config_client (run ws c).1).
Proof.
  revert c. induction ws as [|w ws IH]; intros c; simpl; [done|].
  pose proof (step_keeps_key_requests c w) as H1.
  destruct (step c w) as [c1 a1]. pose proof (IH c1) as H2.
  destruct (run ws c1) as [c2 a2]. simpl in *. by etrans.
Qed.

(** C2.  The loop never clears the list of key-request tasks: whatever the
    loop is resumed with, the tasks on the list stay on it, and each
    completed iteration hands the whole list to [gather] again.  In the
    run below the task spawned for the undecryptable event of the first
    sync is awaited in the first iteration and again in the second. *)
Theorem C2_key_request_task_awaited_again :
  (∀ (ws : list wake) (c : config),
      key_request_tasks (config_client c) `prefix_of`
      key_request_tasks (config_client (run ws c).1))
  ∧ (run two_cycles demo_loop).2
    = [ALog (InfoStartingLoop "@pan:example.org");
       ASync 30000;
       ALog (InfoUnableToDecrypt "@alice:example.org" "ALICEDEVICE");
       ALog InfoRequestingRoomKey;
       ACreateTask 1 (RequestRoomKey (demo_event "SESSION"));
       AGatherVerifications []; AGatherKeyRequests [1];
       ASyncedSet []; ASyncedClear;
       ASync 30000;
       AGatherVerifications []; AGatherKeyRequests [1];
       ASyncedSet []; ASyncedClear;
       ASync 30000]
  ∧ key_request_awaits 1 (run two_cycles demo_loop).2 = 2
  ∧ key_request_tasks (config_client (run two_cycles demo_loop).1) = [1].
Proof.
  split; [apply run_keeps_key_requests|]. by vm_compute.
Qed.

(** ** Cancellation *)












(** ** The flags while the loop runs *)

Lemma resume_keeps_running (p : pc) (w : wake) (s : client) :
  match (resume p w s).1 with
  | Suspend _ s' | Synced s' | Retry s' =>
      loop_stopped s' = loop_stopped s ∧ loop_running s' = loop_running s
  | _ => True
  end.
Proof.
  assert (∀ e, match (handle_exception e s).1 with
               | Suspend _ s' | Synced s' | Retry s' =>
                   loop_stopped s' = loop_stopped s
                   ∧ loop_running s' = loop_running s
               | _ => True
               end) as Hexn.
  { intros e. unfold handle_exception, _loop_stop, event_set.
    destruct e; simpl; try done; by destruct (ev_flag (loop_stopped s)). }
  assert (∀ s0, loop_stopped s0 = loop_stopped s →
                loop_running s0 = loop_running s →
                match (finish_iteration s0).1 with
                | Suspend _ s' | Synced s' | Retry s' =>
                    loop_stopped s' = loop_stopped s
                    ∧ loop_running s' = loop_running s
                | _ => True
                end) as Hfin.
  { intros s0 H1 H2. unfold finish_iteration, event_set.
    by destruct (ev_flag (synced s0)). }
  unfold resume.
  destruct p, (w_exn w) as [e|]; try apply Hexn; try (by apply Hfin); try done.
  - destruct (run_callbacks_frame (w_nio w) (w_events w) s)
      as ((_ & H1 & H2 & _) & _).
    destruct (run_callbacks _ _ s) as [s1 a]. simpl in H1, H2.
    destruct (decide _); [|done].
    unfold send_to_device_messages.
    destruct (outgoing_to_device_messages _) as [|m ms]; [done|].
    destruct (create_to_device_tasks_frame (m :: ms) s1)
      as ((_ & H3 & H4 & _) & _).
    destruct (create_to_device_tasks (m :: ms) s1) as [[ts s2] a'].
    simpl in *. split; congruence.
  - destruct e; try apply Hexn. done.
  - unfold after_key_requests, after_keys_upload.
    destruct (should_upload_keys _); [done|].
    destruct (should_query_keys _); [done|]. by apply Hfin.
  - unfold after_keys_upload.
    destruct (should_query_keys _); [done|]. by apply Hfin.
  - unfold after_keys_query.
    destruct (w_changed w); [by destruct (has_queue s)|]. by apply Hfin.
  - unfold _loop_stop, event_set.
    destruct e; simpl; try done; by destruct (ev_flag (loop_stopped s)).
Qed.

Lemma step_flags_down (c : config) (w : wake) :
  flags_down c → flags_down (step c w).1.
Proof.
  destruct c as [s|p s|s|e s]; simpl; try done.
  - by destruct (w_exn w) as [[]|].
  - intros (Hsynced & Hstopped & Hrunning).
    pose proof (resume_signals_once p w s Hsynced) as H1.
    pose proof (resume_keeps_running p w s) as H2.
    destruct (resume p w s) as [n a]. simpl in H2.
    destruct n as [p' s'|s'|s'|s'|e s']; simpl in *; try done.
    + destruct H1 as [_ H1], H2 as [H2 H3]. repeat split; congruence.
    + destruct H1 as (_ & _ & _ & H1), H2 as [H2 H3].
      rewrite H1. repeat split; congruence.
    + destruct H1 as [_ H1], H2 as [H2 H3]. repeat split; congruence.
Qed.

(** However the loop task is scheduled, from its creation on. *)
Lemma run_flags_down (ws : list wake) (c : config) :
  flags_down c → flags_down (run ws c).1.
Proof.
  revert c. induction ws as [|w ws IH]; intros c Hc; simpl; [done|].
  pose proof (step_flags_down c w Hc) as H1.
  destruct (step c w) as [c1 a1]. pose proof (IH c1 H1) as H2.
  by destruct (run ws c1) as [c2 a2].
Qed.

Lemma start_loop_flags_down (ws : list wake) (s : client) :
  flags_down (run ws (start_loop s).1.2).1.
Proof. by apply run_flags_down. Qed.

(** ** Iterations inside runs *)

(** [iteration] is [run] cut at the end of the iteration: the wakes it
    uses up take the loop task, scheduled by [run], to the same place with
    the same actions, followed by the next sync call when the loop goes
    round. *)
Lemma iteration_run (ws : list wake) (p : pc) (s : client) :
  ∃ ws1 ws2 : list wake,
    ws = ws1 ++ ws2
    ∧ match iteration p ws s with
      | (Suspend p' s', a) =>
          ws2 = [] ∧ run ws1 (Running p s) = (Running p' s', a)
      | (Synced s', a) | (Retry s', a) =>
          run ws1 (Running p s) = (Running AtSync s', a ++ [ASync 30000])
      | (Return s', a) => run ws1 (Running p s) = (Stopped s', a)
      | (Propagate e s', a) => run ws1 (Running p s) = (Crashed e s', a)
      end.
Proof.
  revert p s. induction ws as [|w ws IH]; intros p s.
  - by exists [], [].
  - cbn [iteration].
    destruct (resume p w s) as [n a] eqn:Hres.
    destruct n as [p' s'|s'|s'|s'|e s'].
    + destruct (IH p' s') as (ws1 & ws2 & -> & Hrun).
      exists (w :: ws1), ws2. split; [done|].
      cbn [run step]. rewrite Hres.
      destruct (iteration p' (ws1 ++ ws2) s') as [n' a'].
      destruct n'; [destruct Hrun as [-> Hrun]; split; [done|]|..];
        by rewrite Hrun, ?app_assoc.
    + exists [w], ws. split; [done|]. cbn [run step]. rewrite Hres.
      simpl. by rewrite app_nil_r.
    + exists [w], ws. split; [done|]. cbn [run step]. rewrite Hres.
      simpl. by rewrite app_nil_r.
    + exists [w], ws. split; [done|]. cbn [run step]. rewrite Hres.
      simpl. by rewrite app_nil_r.
    + exists [w], ws. split; [done|]. cbn [run step]. rewrite Hres.
      simpl. by rewrite app_nil_r.
Qed.

(** * Further properties *)

(** ** [pan_decrypt_event] on success *)

Lemma dict_get_absent (k : string) (d : pydict) :
  k ∉ d.*1 → dict_get k d = None.
Proof.
  induction d as [|[k' v] d IH]; simpl; [done|].
  intros Hk. apply not_elem_of_cons in Hk as [Hne Hk].
  rewrite decide_False by done. by apply IH.
Qed.

Lemma dict_update_get (d src : pydict) (k : string) :
  NoDup src.*1 →
  dict_get k (dict_update d src) =
  match dict_get k src with
  | Some v => Some v
  | None => dict_get k d
  end.
Proof.
  unfold dict_update. revert d.
  induction src as [|[k0 v0] src IH]; intros d Hnd; simpl; [done|].
  apply NoDup_cons in Hnd as [Hk0 Hnd]. rewrite (IH _ Hnd).
  destruct (decide (k = k0)) as [->|Hne].
  - rewrite (dict_get_absent k0 src Hk0). apply dict_get_set_eq.
  - destruct (dict_get k src); [done|]. by apply dict_get_set_ne.
Qed.

(** X1.  A Megolm event the engine decrypts: the call returns [True] whatever
    [ignore_failures] is; the event gets [decrypted = True] and
    [verified] as the engine says, also when the decrypted source carries
    keys of these names; every other key has the value of the decrypted
    source where the source has it and the event's own value where not. *)
Theorem pan_decrypt_event_success {Olm : Type} `{!Engine Olm}
    (d : pydict) (room_id : option string) (ig : bool) (c : pan Olm)
    (event : MegolmEvent) (source : pydict) (verified : bool) (o : Olm) :
  parse_event (JDict d) = PMegolm event →
  decrypt_event (fill_room_id event room_id) (pan_olm c)
    = (DecOk source verified, o) →
  NoDup source.*1 →
  ∃ d' : pydict,
    pan_decrypt_event (JDict d) room_id ig c
      = (JDict d', Ok true, logged (InfoDecrypted source) (with_olm o c))
    ∧ dict_get "decrypted" d' = Some (JBool true)
    ∧ dict_get "verified" d' = Some (JBool verified)
    ∧ ∀ k, k ≠ "decrypted" → k ≠ "verified" →
        dict_get k d' = match dict_get k source with
                        | Some v => Some v
                        | None => dict_get k d
                        end.
Proof.
  intros Hparse Hdec Hnd. unfold pan_decrypt_event.
  rewrite Hparse, Hdec. simpl. eexists. split; [done|].
  split; [by rewrite dict_get_set_ne, dict_get_set_eq|].
  split; [apply dict_get_set_eq|].
  intros k Hd Hv. rewrite !dict_get_set_ne by done.
  by apply dict_update_get.
Qed.

Lemma pan_decrypt_event_success_witness :
  ∃ d' : pydict,
    @pan_decrypt_event nat demo_engine (demo_encrypted "known") None false
      demo_pan
      = (JDict d', Ok true,
         logged (InfoDecrypted
                   [("type", JStr "m.room.message");
                    ("content", JDict [("msgtype", JStr "m.text");
                                       ("body", JStr "hello")])])
           (with_olm 0 demo_pan))
    ∧ dict_get "decrypted" d' = Some (JBool true)
    ∧ dict_get "verified" d' = Some (JBool true)
    ∧ ∀ k, k ≠ "decrypted" → k ≠ "verified" →
        dict_get k d' =
        match dict_get k [("type", JStr "m.room.message");
                          ("content", JDict [("msgtype", JStr "m.text");
                                             ("body", JStr "hello")])] with
        | Some v => Some v
        | None =>
            dict_get k
              [("type", JStr "m.room.encrypted");
               ("sender", JStr "@alice:example.org");
               ("content", JDict [("algorithm", JStr "m.megolm.v1.aes-sha2");
                                  ("session_id", JStr "known");
                                  ("ciphertext", JStr "AwgAEnAC")])]
        end.
Proof.
  apply (@pan_decrypt_event_success nat demo_engine
           [("type", JStr "m.room.encrypted");
            ("sender", JStr "@alice:example.org");
            ("content", JDict [("algorithm", JStr "m.megolm.v1.aes-sha2");
                               ("session_id", JStr "known");
                               ("ciphertext", JStr "AwgAEnAC")])]
           None false demo_pan (demo_event "known")
           [("type", JStr "m.room.message");
            ("content", JDict [("msgtype", JStr "m.text");
                               ("body", JStr "hello")])]
           true 0);
    [reflexivity|reflexivity|].
  apply (bool_decide_unpack _). reflexivity.
Defined.

(** ** More on loops and dictionaries *)

Section PyForMore.
Context {A S : Type} (body : A → S → A * result unit * S).

(** What holds of the outcome of every run of the body, and of falling off
    the end, holds of the outcome of the loop. *)
Lemma py_for_result (P : result unit → Prop) :
  P (Ok ()) →
  (∀ x s, P (body x s).1.2) →
  ∀ l s, P (py_for body l s).1.2.
Proof.
  intros Hok Hbody. induction l as [|x rest IH]; intros s; [done|].
  rewrite py_for_cons. pose proof (Hbody x s) as H1.
  destruct (body x s) as [[x' r] s1]. destruct r as [[]|e]; [|done].
  pose proof (IH s1) as H2. by destruct (py_for body rest s1) as [[l' r'] s2].
Qed.

(** A loop whose body passes over every element passes over the list. *)
Lemma py_for_id (I : S → Prop) (l : list A) (s : S) :
  Forall (λ x, ∀ s, I s → (body x s).1 = (x, Ok ()) ∧ I (body x s).2) l →
  I s →
  (py_for body l s).1 = (l, Ok ()) ∧ I (py_for body l s).2.
Proof.
  intros Hall. revert s.
  induction Hall as [|x rest Hx _ IH]; intros s Hs; [done|].
  rewrite py_for_cons. destruct (Hx s Hs) as [H1 H2].
  destruct (body x s) as [[x' r] s1]. simpl in H1, H2.
  injection H1 as -> ->. destruct (IH s1 H2) as [H3 H4].
  destruct (py_for body rest s1) as [[l' r'] s2]. simpl in *.
  by injection H3 as -> ->.
Qed.

End PyForMore.

Lemma dict_set_same (k : string) (v : json) (d : pydict) :
  dict_get k d = Some v → dict_set k v d = d.
Proof.
  induction d as [|[k' v'] d IH]; simpl; [done|].
  destruct (decide (k = k')) as [->|Hne]; [by intros [= ->]|].
  intros Hget. by rewrite IH.
Qed.

Lemma dict_set_keys (k : string) (v v0 : json) (d : pydict) :
  dict_get k d = Some v0 → (dict_set k v d).*1 = d.*1.
Proof.
  induction d as [|[k' v'] d IH]; simpl; [done|].
  destruct (decide (k = k')) as [->|Hne]; [done|].
  intros Hget. simpl. f_equal. by apply IH.
Qed.

Lemma py_getitem_error (v : json) (k : string) (e : exn) :
  py_getitem v k = Raise e → e = KeyError ∨ e = TypeError.
Proof.
  destruct v; simpl; try (intros [= <-]; by right).
  destruct (dict_get k d); [done|]. intros [= <-]. by left.
Qed.

Lemma py_iter_error (v : json) (e : exn) :
  py_iter v = Raise e → e = TypeError.
Proof. destruct v; simpl; congruence. Qed.

(** ** Decryption failures under [ignore_failures] *)

Section Swallowed.
Context {Olm : Type} `{!Engine Olm}.

Lemma pan_decrypt_event_swallows (event : json) (room_id : option string)
    (c : pan Olm) :
  (pan_decrypt_event event room_id true c).1.2 ≠ Raise EncryptionError.
Proof.
  unfold pan_decrypt_event.
  destruct (parse_event event) as [ev|]; [|done].
  destruct (decrypt_event _ _) as [[source verified|e] o].
  - by destruct event.
  - destruct e; try done. by destruct event.
Qed.

Lemma discard_result {B T : Type} (x : json * result B * T) (e : exn) :
  x.1.2 ≠ Raise e → (discard x).1.2 ≠ Raise e.
Proof.
  destruct x as [[a [b|e']] s]; simpl; [intros _; discriminate|].
  intros H [= ->]. by apply H.
Qed.

Lemma messages_event_swallows (event : json) (c : pan Olm) :
  (messages_event event c).1.2 ≠ Raise EncryptionError.
Proof.
  unfold messages_event.
  destruct (py_contains "type" event) as [[]|e] eqn:Hc; try done.
  - destruct (py_getitem event "type") as [t|e] eqn:Hg.
    + destruct (is_str "m.room.encrypted" t); [|done].
      apply discard_result, pan_decrypt_event_swallows.
    + simpl. by destruct (py_getitem_error _ _ _ Hg) as [-> | ->].
  - simpl. destruct event; simpl in Hc; congruence.
Qed.

Lemma sync_room_swallows (item : string * json) (c : pan Olm) :
  (sync_room true item c).1.2 ≠ Raise EncryptionError.
Proof.
  destruct item as [room_id room_dict]. unfold sync_room.
  destruct (pan_rooms c !! room_id) as [room|]; [|done].
  destruct (encrypted room); simpl; [|done].
  destruct (py_getitem room_dict "timeline") as [timeline|e] eqn:H1;
    [|simpl; by destruct (py_getitem_error _ _ _ H1) as [-> | ->]].
  destruct (py_getitem timeline "events") as [evs|e] eqn:H2;
    [|simpl; by destruct (py_getitem_error _ _ _ H2) as [-> | ->]].
  destruct (py_iter evs) as [events|e] eqn:H3;
    [|simpl; by rewrite (py_iter_error _ _ H3)].
  pose proof (py_for_result
                (λ event c, discard (pan_decrypt_event event (Some room_id)
                                       true c))
                (λ r, r ≠ Raise EncryptionError)) as Hfor.
  specialize (Hfor ltac:(done)
                (λ x s, discard_result _ _ (pan_decrypt_event_swallows x _ s))
                events c).
  by destruct (py_for _ events c) as [[events' r] c1].
Qed.

End Swallowed.

(** X2.  With [ignore_failures] on, which [decrypt_messages_body] always has, no
    call of the pipeline ever raises [EncryptionError], whatever the body
    and whatever the engine does. *)
Theorem decryption_failures_swallowed {Olm : Type} `{!Engine Olm} :
  (∀ (event : json) (room_id : option string) (c : pan Olm),
      (pan_decrypt_event event room_id true c).1.2 ≠ Raise EncryptionError)
  ∧ (∀ (body : pydict) (c : pan Olm),
      (decrypt_messages_body body c).1.2 ≠ Raise EncryptionError)
  ∧ (∀ (body : pydict) (c : pan Olm),
      (decrypt_sync_body body true c).1.2 ≠ Raise EncryptionError).
Proof.
  split; [apply @pan_decrypt_event_swallows|]. split.
  - intros body c. unfold decrypt_messages_body.
    destruct (dict_get "chunk" body) as [chunk|]; [|done].
    destruct (py_iter chunk) as [events|e] eqn:Hiter;
      [|simpl; by rewrite (py_iter_error _ _ Hiter)].
    pose proof (py_for_result messages_event (λ r, r ≠ Raise EncryptionError)
                  ltac:(done) messages_event_swallows events
                  (logged InfoDecryptingMessages c)) as Hfor.
    by destruct (py_for messages_event events _) as [[events' r] c1].
  - intros body c. unfold decrypt_sync_body.
    destruct (dict_get "rooms" body) as [rooms|]; [|done].
    destruct (py_getitem rooms "join") as [join|e] eqn:Hjoin;
      [|simpl; by destruct (py_getitem_error _ _ _ Hjoin) as [-> | ->]].
    destruct (py_items join) as [items|e] eqn:Hitems;
      [|destruct join; simpl in *; congruence].
    pose proof (py_for_result (sync_room true) (λ r, r ≠ Raise EncryptionError)
                  ltac:(done) sync_room_swallows items
                  (logged InfoDecryptingSync c)) as Hfor.
    by destruct (py_for (sync_room true) items _) as [[items' r] c1].
Qed.

(** ** Bodies with nothing to decrypt *)

Section NothingToDecrypt.
Context {Olm : Type} `{!Engine Olm}.

Lemma messages_event_plain (event : json) (c : pan Olm) :
  is_plain_dict event = true →
  (messages_event event c).1 = (event, Ok ())
  ∧ pan_olm (messages_event event c).2 = pan_olm c.
Proof.
  destruct event as [| | | | |d]; try done. unfold messages_event. simpl.
  unfold dict_mem. destruct (dict_get "type" d) as [t|]; [|done].
  intros Ht. apply negb_true_iff in Ht. by rewrite Ht.
Qed.

Lemma sync_room_skipped (ig : bool) (item : string * json) (c : pan Olm) :
  room_is_encrypted (pan_rooms c) item.1 = false →
  (sync_room ig item c).1 = (item, Ok ())
  ∧ pan_olm (sync_room ig item c).2 = pan_olm c
  ∧ pan_rooms (sync_room ig item c).2 = pan_rooms c.
Proof.
  destruct item as [room_id room_dict]. unfold room_is_encrypted, sync_room.
  simpl. destruct (pan_rooms c !! room_id) as [room|]; [|done].
  by intros ->.
Qed.

End NothingToDecrypt.

(** X3.  A messages body whose chunk is a list of dicts none of which has the
    type [m.room.encrypted]: the call returns the body exactly as it was
    and the engine is not touched. *)
Theorem decrypt_messages_body_plain {Olm : Type} `{!Engine Olm}
    (body : pydict) (chunk : list json) (c : pan Olm) :
  dict_get "chunk" body = Some (JList chunk) →
  Forall (λ e, is_plain_dict e = true) chunk →
  (decrypt_messages_body body c).1 = (body, Ok ())
  ∧ pan_olm (decrypt_messages_body body c).2 = pan_olm c.
Proof.
  intros Hchunk Hplain. unfold decrypt_messages_body. rewrite Hchunk. simpl.
  destruct (py_for_id messages_event (λ c', pan_olm c' = pan_olm c) chunk
              (logged InfoDecryptingMessages c)) as [H1 H2]; [|done|].
  { eapply Forall_impl; [exact Hplain|]. intros x Hx s Hs.
    destruct (messages_event_plain x s Hx) as [? ?]. split; congruence. }
  destruct (py_for messages_event chunk _) as [[chunk' r] c1].
  simpl in *. injection H1 as -> ->.
  by rewrite (dict_set_same _ _ _ Hchunk).
Qed.

Lemma decrypt_messages_body_plain_witness :
  let body := [("start", JStr "t47429-4392820_219380_26003_2265");
               ("chunk", JList [demo_plain; demo_plain]);
               ("end", JStr "t47409-4357353_219380_26003_2265")] in
  (@decrypt_messages_body nat demo_engine body demo_pan).1 = (body, Ok ())
  ∧ pan_olm (@decrypt_messages_body nat demo_engine body demo_pan).2
    = pan_olm demo_pan.
Proof.
  apply (@decrypt_messages_body_plain nat demo_engine _
           [demo_plain; demo_plain] demo_pan); [reflexivity|].
  repeat constructor.
Defined.

(** X4.  A sync body in which no joined room is known to the session and marked
    encrypted (none joined at all included): the call returns the body
    exactly as it was, whatever the rooms hold, and the engine is not
    touched. *)
Theorem decrypt_sync_body_nothing_encrypted {Olm : Type} `{!Engine Olm}
    (body items : pydict) (ig : bool) (c : pan Olm) :
  sync_join body = Some items →
  Forall (λ item, room_is_encrypted (pan_rooms c) item.1 = false) items →
  (decrypt_sync_body body ig c).1 = (body, Ok ())
  ∧ pan_olm (decrypt_sync_body body ig c).2 = pan_olm c.
Proof.
  intros Hjoin Hskip.
  destruct (sync_join_inv _ _ Hjoin) as (rooms & Hrooms & Hitems).
  rewrite (decrypt_sync_body_join _ _ _ _ _ Hrooms Hitems).
  destruct (py_for_id (sync_room ig)
              (λ c', pan_olm c' = pan_olm c ∧ pan_rooms c' = pan_rooms c)
              items (logged InfoDecryptingSync c)) as [H1 [H2 _]]; [|done|].
  { eapply Forall_impl; [exact Hskip|]. intros x Hx s [Hs1 Hs2].
    rewrite <- Hs2 in Hx.
    destruct (sync_room_skipped ig x s Hx) as (? & ? & ?).
    repeat split; congruence. }
  destruct (py_for (sync_room ig) items _) as [[items' r] c1].
  simpl in *. injection H1 as -> ->. split; [|done].
  rewrite (dict_set_same "join" _ rooms Hitems).
  by rewrite (dict_set_same "rooms" _ body Hrooms).
Qed.

Lemma decrypt_sync_body_nothing_encrypted_witness :
  let body :=
    [("next_batch", JStr "s72595_4483_1934");
     ("rooms",
      JDict [("join",
              JDict [("!unknown:example.org",
                      demo_room [demo_encrypted "known"])])])] in
  (@decrypt_sync_body nat demo_engine body false demo_pan).1 = (body, Ok ())
  ∧ pan_olm (@decrypt_sync_body nat demo_engine body false demo_pan).2
    = pan_olm demo_pan.
Proof.
  apply (@decrypt_sync_body_nothing_encrypted nat demo_engine _
           [("!unknown:example.org", demo_room [demo_encrypted "known"])]
           false demo_pan); [reflexivity|].
  repeat constructor.
Defined.

(** ** The shape of the bodies *)

(** X5.  Neither call adds, removes or reorders a top-level key of the body it
    is given, whether it returns or raises; and [decrypt_sync_body] keeps
    the joined rooms, with their ids, in their order. *)
Theorem bodies_keep_their_keys {Olm : Type} `{!Engine Olm} :
  (∀ (body : pydict) (c : pan Olm),
      (decrypt_messages_body body c).1.1.*1 = body.*1)
  ∧ (∀ (body : pydict) (ig : bool) (c : pan Olm),
      (decrypt_sync_body body ig c).1.1.*1 = body.*1)
  ∧ (∀ (body items : pydict) (ig : bool) (c : pan Olm),
      sync_join body = Some items →
      ∃ items' : pydict,
        sync_join (decrypt_sync_body body ig c).1.1 = Some items'
        ∧ items'.*1 = items.*1).
Proof.
  split; [|split].
  - intros body c. unfold decrypt_messages_body.
    destruct (dict_get "chunk" body) as [chunk|] eqn:Hchunk; [|done].
    destruct (py_iter chunk) as [events|]; [|done].
    destruct (py_for messages_event events _) as [[events' r] c1]. simpl.
    by eapply dict_set_keys.
  - intros body ig c. unfold decrypt_sync_body.
    destruct (dict_get "rooms" body) as [rooms|] eqn:Hrooms; [|done].
    destruct (py_getitem rooms "join") as [join|]; [|done].
    destruct (py_items join) as [items|]; [|done].
    destruct (py_for (sync_room ig) items _) as [[items' r] c1]. simpl.
    by eapply dict_set_keys.
  - intros body items ig c Hjoin.
    destruct (sync_join_inv _ _ Hjoin) as (rooms & Hrooms & Hitems).
    rewrite (decrypt_sync_body_join _ _ _ _ _ Hrooms Hitems).
    destruct (py_for_Forall2 (sync_room ig) (λ _, True) (λ x y, y.1 = x.1))
      with (l := items) (s := logged InfoDecryptingSync c) as [Hall _];
      try done.
    { intros x s _. by destruct (sync_room_frame ig x s) as [[? _] _]. }
    destruct (py_for (sync_room ig) items _) as [[items' r] c1].
    simpl in *. exists items'. split; [by eapply sync_join_set|].
    clear -Hall. induction Hall as [|x y l l' Hxy _ IH]; [done|].
    rewrite !fmap_cons. by rewrite Hxy, IH.
Qed.

(** X6.  The [except KeyError] of [decrypt_sync_body] covers the lookup of the
    room only.  A joined room that is known and encrypted and whose dict
    has no ["timeline"], or whose timeline has no ["events"], makes the
    call raise [KeyError]; when the rooms before it are all unknown or not
    encrypted the body is as it was. *)
Theorem decrypt_sync_body_missing_timeline {Olm : Type} `{!Engine Olm}
    (body rooms pre post d : pydict) (room_id : string) (room : MatrixRoom)
    (ig : bool) (c : pan Olm) :
  dict_get "rooms" body = Some (JDict rooms) →
  dict_get "join" rooms = Some (JDict (pre ++ (room_id, JDict d) :: post)) →
  Forall (λ item, room_is_encrypted (pan_rooms c) item.1 = false) pre →
  pan_rooms c !! room_id = Some room →
  encrypted room = true →
  dict_get "timeline" d = None
  ∨ (∃ timeline : pydict,
       dict_get "timeline" d = Some (JDict timeline)
       ∧ dict_get "events" timeline = None) →
  (decrypt_sync_body body ig c).1 = (body, Raise KeyError).
Proof.
  intros Hrooms Hjoin Hpre Hroom Henc Hmissing.
  rewrite (decrypt_sync_body_join _ _ _ _ _ Hrooms Hjoin).
  rewrite py_for_app.
  destruct (py_for_id (sync_room ig)
              (λ c', pan_olm c' = pan_olm c ∧ pan_rooms c' = pan_rooms c)
              pre (logged InfoDecryptingSync c)) as [H1 [_ H2]]; [|done|].
  { eapply Forall_impl; [exact Hpre|]. intros x Hx s [Hs1 Hs2].
    rewrite <- Hs2 in Hx.
    destruct (sync_room_skipped ig x s Hx) as (? & ? & ?).
    repeat split; congruence. }
  destruct (py_for (sync_room ig) pre _) as [[pre' r] c1].
  simpl in H1, H2. injection H1 as -> ->.
  rewrite py_for_cons.
  assert (sync_room ig (room_id, JDict d) c1
          = ((room_id, JDict d), Raise KeyError, c1)) as ->.
  { unfold sync_room. rewrite H2, Hroom, Henc. simpl.
    destruct Hmissing as [->|(timeline & -> & Hevents)]; [done|].
    simpl. by rewrite Hevents. }
  simpl. rewrite (dict_set_same "join" _ rooms Hjoin).
  by rewrite (dict_set_same "rooms" _ body Hrooms).
Qed.

Lemma decrypt_sync_body_missing_timeline_witness :
  let body :=
    [("rooms",
      JDict [("join",
              JDict [("!unknown:example.org", demo_room []);
                     ("!enc:example.org",
                      JDict [("timeline", JDict [("limited", JBool false)])]);
                     ("!later:example.org", demo_room [])])])] in
  (@decrypt_sync_body nat demo_engine body true demo_pan).1
  = (body, Raise KeyError).
Proof.
  apply (@decrypt_sync_body_missing_timeline nat demo_engine _
           [("join",
             JDict [("!unknown:example.org", demo_room []);
                    ("!enc:example.org",
                     JDict [("timeline", JDict [("limited", JBool false)])]);
                    ("!later:example.org", demo_room [])])]
           [("!unknown:example.org", demo_room [])]
           [("!later:example.org", demo_room [])]
           [("timeline", JDict [("limited", JBool false)])]
           "!enc:example.org" (mkRoom true "Encrypted room") true demo_pan);
    try reflexivity.
  - repeat constructor.
  - right. exists [("limited", JBool false)]. split; reflexivity.
Defined.

(** ** [verify_devices] *)

Lemma verify_devices_verified (changed : changed_devices) :
  verified_devices (verify_devices changed)
  = filter (λ d, dev_deleted d = false) (changed_device_list changed).
Proof.
  unfold verified_devices, verify_devices, changed_device_list.
  induction changed as [|[user devices] changed IH]; simpl; [done|].
  rewrite omap_app, filter_app, IH. f_equal. clear IH.
  unfold verify_user_devices.
  induction devices as [|[k d] devices IH]; simpl; [done|].
  rewrite omap_app, IH. simpl.
  destruct (dev_deleted d) eqn:Hd; simpl.
  - by rewrite filter_cons_False by (rewrite Hd; done).
  - by rewrite filter_cons_True by done.
Qed.

(** X7.  [verify_devices] passes to [verify_device] exactly the changed devices
    that are not deleted, each once, user by user in the order of the
    mapping; it logs one line for each of them and does nothing else. *)
Theorem verify_devices_skips_deleted (changed : changed_devices) :
  verified_devices (verify_devices changed)
  = filter (λ d, dev_deleted d = false) (changed_device_list changed)
  ∧ length (verify_devices changed)
    = 2 * length (verified_devices (verify_devices changed))
  ∧ Forall (λ a, match a with
                 | ALog (InfoAutoVerify _ _) | AVerifyDevice _ => True
                 | _ => False
                 end) (verify_devices changed).
Proof.
  split; [apply verify_devices_verified|].
  unfold verified_devices, verify_devices, verify_user_devices.
  induction changed as [|[user devices] changed [IH1 IH2]]; simpl; [done|].
  rewrite length_app, omap_app, length_app, IH1.
  assert (∀ devices : list (string * Device),
            let acts := flat_map
                          (λ kd : string * Device,
                             if dev_deleted kd.2 then []
                             else [ALog (InfoAutoVerify (dev_id kd.2) user);
                                   AVerifyDevice kd.2]) devices in
            length acts
            = 2 * length (omap (λ a, match a with
                                     | AVerifyDevice d => Some d
                                     | _ => None
                                     end) acts)
            ∧ Forall (λ a, match a with
                           | ALog (InfoAutoVerify _ _) | AVerifyDevice _ => True
                           | _ => False
                           end) acts) as Hdev.
  { clear. induction devices as [|[k d] devices [IH1 IH2]]; simpl in *; [done|].
    destruct (dev_deleted d); simpl in *; [done|].
    unfold omap in *. split; [lia|]. by repeat constructor. }
  destruct (Hdev devices) as [H1 H2]. simpl in *. unfold omap in *.
  split; [lia|]. by apply Forall_app.
Qed.

(** ** What a batch of callbacks spawns *)

Lemma run_callback_counts (n : nio_state) (e : in_event) (s : client) :
  let s' := (run_callback n e s).1 in
  key_request_tasks s' =
    key_request_tasks s ++ (if requests_key n e then [created_tasks s] else [])
  ∧ key_verificatins_tasks s' =
    key_verificatins_tasks s
      ++ (if accepts_verification e then [created_tasks s] else [])
  ∧ created_tasks s' =
    created_tasks s + (if requests_key n e then 1 else 0)
                    + (if accepts_verification e then 1 else 0).
Proof.
  destruct e as [room_id event|event]; simpl.
  - unfold undecrypted_event_cb.
    destruct (decide (ev_session_id event ∈ outgoing_key_requests n)) as [Hin|Hin].
    + rewrite bool_decide_eq_false_2 by auto. simpl.
      rewrite !app_nil_r. repeat split; lia.
    + rewrite bool_decide_eq_true_2 by done. simpl.
      rewrite app_nil_r. repeat split; lia.
  - destruct event as [txn|txn|txn|txn]; simpl;
      try destruct (key_verifications n !! txn); simpl;
      rewrite ?app_nil_r; repeat split; lia.
Qed.

(** Whether the format raises depends on the number of pairs alone, however
    the strings are read as code points. *)
Lemma callback_raises_format {A : Type} (space newline : A)
    (f : string → list A) (n : nio_state) (txn : string) (sas : Sas) :
  key_verifications n !! txn = Some sas →
  callback_raises n (InKeyVerification (KeyVerificationKey txn)) = true
  ↔ short_string space newline (map (λ p, (f p.1, f p.2)) (sas_emoji sas))
    = None.
Proof.
  intros Hsas. unfold callback_raises. rewrite Hsas.
  unfold short_string, format7. rewrite !length_map.
  destruct (decide (7 ≤ length (sas_emoji sas))%nat) as [Hle|Hlt].
  - rewrite bool_decide_eq_false_2 by lia. done.
  - rewrite bool_decide_eq_true_2 by lia. done.
Qed.

(** X8.  Over one batch of events none of whose callbacks raises (no key
    event of the batch belongs to a transaction whose [Sas] has fewer than
    seven pairs), the list of key-request tasks grows by one task for every
    Megolm event whose session is not in the registry, each duplicate
    counted, and by nothing else; the list of verification tasks grows by
    one task for every start and every mac event, and a key event spawns
    nothing; as many tasks were created as the lists grew; and the short
    string logged for each key event of a known transaction is formatted
    without an error. *)
Theorem callbacks_spawn_counts (n : nio_state) (es : list in_event)
    (s : client) :
  Forall (λ e, callback_raises n e = false) es →
  let s' := (run_callbacks n es s).1 in
  length (key_request_tasks s')
    = length (key_request_tasks s) + length (List.filter (requests_key n) es)
  ∧ length (key_verificatins_tasks s')
    = length (key_verificatins_tasks s)
      + length (List.filter accepts_verification es)
  ∧ created_tasks s'
    = created_tasks s + length (List.filter (requests_key n) es)
      + length (List.filter accepts_verification es)
  ∧ ∀ (A : Type) (space newline : A) (f : string → list A)
      (txn : string) (sas : Sas),
      InKeyVerification (KeyVerificationKey txn) ∈ es →
      key_verifications n !! txn = Some sas →
      is_Some (short_string space newline
                 (map (λ p, (f p.1, f p.2)) (sas_emoji sas))).
Proof.
  intros Hreturn. cbn zeta.
  assert (length (key_request_tasks (run_callbacks n es s).1)
          = length (key_request_tasks s)
            + length (List.filter (requests_key n) es)
          ∧ length (key_verificatins_tasks (run_callbacks n es s).1)
            = length (key_verificatins_tasks s)
              + length (List.filter accepts_verification es)
          ∧ created_tasks (run_callbacks n es s).1
            = created_tasks s + length (List.filter (requests_key n) es)
              + length (List.filter accepts_verification es)) as Hcount.
  { clear Hreturn.
    revert s. induction es as [|e es IH]; intros s; simpl; [lia|].
    destruct (run_callback_counts n e s) as (H1 & H2 & H3).
    destruct (run_callback n e s) as [s1 a1]. simpl in H1, H2, H3.
    destruct (IH s1) as (H1' & H2' & H3').
    destruct (run_callbacks n es s1) as [s2 a2]. simpl in *.
    rewrite H1', H2', H3', H1, H2, H3, !length_app.
    destruct (requests_key n e), (accepts_verification e); simpl; lia. }
  destruct Hcount as (H1 & H2 & H3). repeat (split; [done|]).
  intros A space newline f txn sas Hin Hsas.
    rewrite Forall_forall in Hreturn. specialize (Hreturn _ Hin).
    destruct (short_string space newline _) as [str|] eqn:Hstr; [by eexists|].
    apply (callback_raises_format space newline f n txn sas Hsas) in Hstr.
    congruence.
Qed.

Lemma callbacks_spawn_counts_witness :
  let es := [InKeyVerification (KeyVerificationStart "TXN");
             InKeyVerification (KeyVerificationKey "TXN");
             InMegolm "!enc:example.org" (demo_event "SESSION");
             InKeyVerification (KeyVerificationMac "TXN")] in
  let s' := (run_callbacks verifying_nio es demo_running).1 in
  length (key_request_tasks s')
    = length (key_request_tasks demo_running)
      + length (List.filter (requests_key verifying_nio) es)
  ∧ length (key_verificatins_tasks s')
    = length (key_verificatins_tasks demo_running)
      + length (List.filter accepts_verification es)
  ∧ created_tasks s'
    = created_tasks demo_running
      + length (List.filter (requests_key verifying_nio) es)
      + length (List.filter accepts_verification es)
  ∧ ∀ (A : Type) (space newline : A) (f : string → list A)
      (txn : string) (sas : Sas),
      InKeyVerification (KeyVerificationKey txn) ∈ es →
      key_verifications verifying_nio !! txn = Some sas →
      is_Some (short_string space newline
                 (map (λ p, (f p.1, f p.2)) (sas_emoji sas))).
Proof.
  apply (callbacks_spawn_counts verifying_nio
           [InKeyVerification (KeyVerificationStart "TXN");
            InKeyVerification (KeyVerificationKey "TXN");
            InMegolm "!enc:example.org" (demo_event "SESSION");
            InKeyVerification (KeyVerificationMac "TXN")]
           demo_running).
  repeat constructor.
Defined.

(** ** The ids on the task lists *)

Lemma tasks_fresh_spawn (s s' : client) (a b : list nat) :
  tasks_fresh s →
  (a = [] ∧ b = [] ∨ a = [created_tasks s] ∧ b = []
   ∨ a = [] ∧ b = [created_tasks s]) →
  key_verificatins_tasks s' = key_verificatins_tasks s ++ a →
  key_request_tasks s' = key_request_tasks s ++ b →
  (created_tasks s < created_tasks s')%nat ∨
    (a = [] ∧ b = [] ∧ (created_tasks s ≤ created_tasks s')%nat) →
  tasks_fresh s'.
Proof.
  unfold tasks_fresh. intros [Hnd Hlt] Hab -> -> Hcreated.
  assert (created_tasks s ∉ key_verificatins_tasks s ++ key_request_tasks s)
    as Hnew.
  { intros Hin. rewrite Forall_forall in Hlt. apply Hlt in Hin. lia. }
  assert (created_tasks s ≤ created_tasks s')%nat as Hle by (destruct Hcreated; lia).
  assert (Forall (λ t, (t < created_tasks s')%nat)
            (key_verificatins_tasks s ++ key_request_tasks s)) as Hlt'.
  { eapply Forall_impl; [exact Hlt|]. simpl. lia. }
  destruct Hab as [[-> ->]|[[-> ->]|[-> ->]]]; rewrite ?app_nil_r.
  - done.
  - assert (created_tasks s < created_tasks s')%nat by (destruct Hcreated as [|(?&?&?)]; [lia|done]).
    split.
    + rewrite <- app_assoc. simpl. apply NoDup_app in Hnd as (H1 & H2 & H3).
      apply not_elem_of_app in Hnew as [Hn1 Hn2].
      apply NoDup_app. split; [done|]. split.
      * intros x Hx. apply not_elem_of_cons. split; [|by apply H2].
        intros ->. done.
      * by apply NoDup_cons.
    + rewrite <- app_assoc. simpl. apply Forall_app in Hlt' as [H1 H2].
      apply Forall_app. split; [done|]. by apply Forall_cons.
  - assert (created_tasks s < created_tasks s')%nat by (destruct Hcreated as [|(?&?&?)]; [lia|done]).
    split.
    + rewrite app_assoc. apply NoDup_app. split; [done|]. split.
      * intros x Hx. apply not_elem_of_cons. split; [|apply not_elem_of_nil].
        intros ->. done.
      * apply NoDup_singleton.
    + rewrite app_assoc. apply Forall_app. split; [done|]. by apply Forall_singleton.
Qed.

Lemma tasks_fresh_cleared (s s' : client) :
  tasks_fresh s →
  key_verificatins_tasks s' = [] →
  key_request_tasks s' = key_request_tasks s →
  (created_tasks s ≤ created_tasks s')%nat →
  tasks_fresh s'.
Proof.
  unfold tasks_fresh. intros [Hnd Hlt] -> -> Hle. simpl.
  apply NoDup_app in Hnd as (_ & _ & Hnd). apply Forall_app in Hlt as [_ Hlt].
  split; [done|]. eapply Forall_impl; [exact Hlt|]. simpl. lia.
Qed.

Lemma tasks_fresh_same (s s' : client) :
  tasks_fresh s →
  key_verificatins_tasks s' = key_verificatins_tasks s →
  key_request_tasks s' = key_request_tasks s →
  (created_tasks s ≤ created_tasks s')%nat →
  tasks_fresh s'.
Proof.
  intros Hf H1 H2 Hle.
  apply (tasks_fresh_spawn s s' [] [] Hf); rewrite ?app_nil_r; auto.
Qed.

Lemma run_callbacks_fresh (n : nio_state) (es : list in_event) (s : client) :
  tasks_fresh s → tasks_fresh (run_callbacks n es s).1.
Proof.
  revert s. induction es as [|e es IH]; intros s Hf; simpl; [done|].
  destruct (run_callback_counts n e s) as (H1 & H2 & H3).
  destruct (run_callback n e s) as [s1 a1]. simpl in H1, H2, H3.
  specialize (IH s1). destruct (run_callbacks n es s1) as [s2 a2].
  simpl in *. apply IH.
  eapply (tasks_fresh_spawn s s1); [done| |exact H2|exact H1|].
  - destruct e as [room_id event|[]]; simpl; auto.
    destruct (bool_decide _); auto.
  - destruct e as [room_id event|[]]; simpl in *; try (left; lia);
      try (right; repeat split; lia).
    destruct (bool_decide _); [left; lia|right; repeat split; lia].
Qed.

Lemma create_to_device_tasks_created (ms : list string) (s : client) :
  let r := create_to_device_tasks ms s in
  r.1.1 = seq (created_tasks s) (length ms)
  ∧ created_tasks r.1.2 = created_tasks s + length ms
  ∧ r.2 = zip_with (λ t m, ACreateTask t (ToDevice m))
            (seq (created_tasks s) (length ms)) ms.
Proof.
  revert s. induction ms as [|m ms IH]; intros s; simpl.
  - repeat split; lia.
  - destruct (IH (create_task s).2) as (H1 & H2 & H3).
    destruct (create_to_device_tasks ms _) as [[ts s2] a]. simpl in *.
    rewrite H1, H2, H3. repeat split; lia.
Qed.

(** Where the lists and the count of created tasks stand after a
    resumption, relative to the client it started from or, at the sync
    call, to the client the callbacks left. *)
Lemma resume_lists (p : pc) (w : wake) (s : client) :
  let s' := next_client (resume p w s).1 in
  ∃ s1, (s1 = s ∨ s1 = (run_callbacks (w_nio w) (w_events w) s).1)
        ∧ key_request_tasks s' = key_request_tasks s1
        ∧ (key_verificatins_tasks s' = key_verificatins_tasks s1
           ∨ key_verificatins_tasks s' = [])
        ∧ (created_tasks s1 ≤ created_tasks s')%nat.
Proof.
  assert (∀ e, let s' := next_client (handle_exception e s).1 in
               key_request_tasks s' = key_request_tasks s
               ∧ key_verificatins_tasks s' = key_verificatins_tasks s
               ∧ created_tasks s' = created_tasks s) as Hexn.
  { intros e. unfold handle_exception, _loop_stop, event_set.
    destruct e; simpl; try done; by destruct (ev_flag (loop_stopped s)). }
  assert (∀ s0, let s' := next_client (finish_iteration s0).1 in
                key_request_tasks s' = key_request_tasks s0
                ∧ key_verificatins_tasks s' = key_verificatins_tasks s0
                ∧ created_tasks s' = created_tasks s0) as Hfin.
  { intros s0. unfold finish_iteration, event_set.
    by destruct (ev_flag (synced s0)). }
  assert (∀ r : next * list action,
            (let s' := next_client r.1 in
             key_request_tasks s' = key_request_tasks s
             ∧ key_verificatins_tasks s' = key_verificatins_tasks s
             ∧ created_tasks s' = created_tasks s) →
            ∃ s1, (s1 = s ∨ s1 = (run_callbacks (w_nio w) (w_events w) s).1)
                  ∧ key_request_tasks (next_client r.1) = key_request_tasks s1
                  ∧ (key_verificatins_tasks (next_client r.1)
                       = key_verificatins_tasks s1
                     ∨ key_verificatins_tasks (next_client r.1) = [])
                  ∧ (created_tasks s1 ≤ created_tasks (next_client r.1))%nat)
    as Hsame.
  { intros r (H1 & H2 & H3). exists s. repeat split; auto. lia. }
  simpl. unfold resume.
  destruct p, (w_exn w) as [e|];
    try (apply Hsame; apply Hexn); try (apply Hsame; apply Hfin);
    try (by apply Hsame).
  - exists (run_callbacks (w_nio w) (w_events w) s).1.
    split; [by right|].
    destruct (run_callbacks _ _ s) as [s1 a]. simpl.
    destruct (decide _); [|by auto].
    unfold send_to_device_messages.
    destruct (outgoing_to_device_messages _) as [|m ms]; [by auto|].
    destruct (create_to_device_tasks_frame (m :: ms) s1) as (_ & _ & H1 & H2).
    destruct (create_to_device_tasks_created (m :: ms) s1) as (_ & H3 & _).
    destruct (create_to_device_tasks (m :: ms) s1) as [[ts s2] a'].
    simpl in *. repeat split; auto. lia.
  - destruct e; try (apply Hsame; apply Hexn).
    exists s. simpl. auto.
  - exists s. simpl. auto.
  - apply Hsame. unfold after_key_requests, after_keys_upload.
    destruct (should_upload_keys _); [done|].
    destruct (should_query_keys _); [done|]. apply Hfin.
  - apply Hsame. unfold after_keys_upload.
    destruct (should_query_keys _); [done|]. apply Hfin.
  - apply Hsame. unfold after_keys_query.
    destruct (w_changed w); [by destruct (has_queue s)|]. apply Hfin.
  - apply Hsame. unfold _loop_stop, event_set.
    destruct e; simpl; try done; by destruct (ev_flag (loop_stopped s)).
Qed.

Lemma resume_fresh (p : pc) (w : wake) (s : client) :
  tasks_fresh s → tasks_fresh (next_client (resume p w s).1).
Proof.
  intros Hf. destruct (resume_lists p w s) as (s1 & Hs1 & H1 & H2 & H3).
  assert (tasks_fresh s1) as Hf1.
  { destruct Hs1 as [->| ->]; [done|by apply run_callbacks_fresh]. }
  destruct H2 as [H2|H2].
  - by apply (tasks_fresh_same s1).
  - by apply (tasks_fresh_cleared s1).
Qed.

(** X9.  From the construction of the client on, however the loop task is
    scheduled and whatever it is woken with: no task is on both lists or
    twice on one, and every task on them is one the event loop created. *)
Theorem task_lists_stay_fresh (queue : bool) (ws : list wake) :
  tasks_fresh (config_client (run ws (start_loop (init queue)).1.2).1).
Proof.
  assert (∀ ws c, tasks_fresh (config_client c) →
                  tasks_fresh (config_client (run ws c).1)) as Hrun.
  { clear ws. induction ws as [|w ws IH]; intros c Hc; simpl; [done|].
    assert (tasks_fresh (config_client (step c w).1)) as H1.
    { destruct c as [s|p s|s|e s]; simpl in *; try done.
      - by destruct (w_exn w) as [[]|].
      - pose proof (resume_fresh p w s Hc) as H.
        by destruct (resume p w s) as [[] a]. }
    destruct (step c w) as [c1 a1]. specialize (IH c1 H1).
    by destruct (run ws c1) as [c2 a2]. }
  apply Hrun. simpl. split; simpl; [apply NoDup_nil_2|apply Forall_nil_2].
Qed.

(** ** Dispatch of the to-device messages *)

(** X10.  After a sync with status 200: when nio holds pending to-device
    messages, the loop creates one task per message, in their order, and
    awaits exactly those tasks together; when it holds none it creates no
    task and goes straight to the gather of the verification tasks. *)
Theorem dispatch_one_task_per_message (w : wake) (s : client) :
  w_exn w = None →
  w_status w = 200%Z →
  let s1 := (run_callbacks (w_nio w) (w_events w) s).1 in
  let cb := (run_callbacks (w_nio w) (w_events w) s).2 in
  let ms := outgoing_to_device_messages (w_nio w) in
  let ts := seq (created_tasks s1) (length ms) in
  match ms with
  | [] =>
      resume AtSync w s
      = (Suspend AtGatherVerifications s1,
         cb ++ [AGatherVerifications (key_verificatins_tasks s1)])
  | _ :: _ =>
      ∃ s2, resume AtSync w s
            = (Suspend AtSend s2,
               cb ++ zip_with (λ t m, ACreateTask t (ToDevice m)) ts ms
                  ++ [AGatherToDevice ts])
            ∧ created_tasks s2 = created_tasks s1 + length ms
            ∧ key_verificatins_tasks s2 = key_verificatins_tasks s1
            ∧ key_request_tasks s2 = key_request_tasks s1
  end.
Proof.
  intros Hexn Hstatus. simpl. unfold resume. rewrite Hexn.
  destruct (run_callbacks (w_nio w) (w_events w) s) as [s1 a]. simpl.
  rewrite decide_True by done. unfold send_to_device_messages.
  destruct (outgoing_to_device_messages (w_nio w)) as [|m ms] eqn:Hms; [done|].
  destruct (create_to_device_tasks_frame (m :: ms) s1) as (_ & _ & H1 & H2).
  destruct (create_to_device_tasks_created (m :: ms) s1) as (H3 & H4 & H5).
  destruct (create_to_device_tasks (m :: ms) s1) as [[ts s2] a'].
  cbn [fst snd] in *. subst ts a'. exists s2. by rewrite app_assoc.
Qed.

Lemma dispatch_one_task_per_message_witness :
  ∃ s2, resume AtSync (synced_with 200 [] busy_nio) demo_running
        = (Suspend AtSend s2,
           [] ++ zip_with (λ t m, ACreateTask t (ToDevice m)) (seq 1 1)
                   ["m.room_key_request"]
              ++ [AGatherToDevice (seq 1 1)])
        ∧ created_tasks s2 = 1 + 1
        ∧ key_verificatins_tasks s2 = []
        ∧ key_request_tasks s2 = [].
Proof.
  apply (dispatch_one_task_per_message (synced_with 200 [] busy_nio)
           demo_running); reflexivity.
Defined.

(** ** Exceptions no handler of the loop takes *)

(** X11.  An exception raised at an [await] of the [try] body that is neither a
    cancellation nor one of the three connection errors, a
    [LocalProtocolError] from the gather of the verification tasks apart,
    leaves [loop()] at once: nothing is logged, [loop_running] stays as it
    was and [loop_stopped] is not set.  A [LocalProtocolError] from the
    gather of the key requests is such an exception.  A [loop_stop] called
    after that returns at once, without a cancellation and with the
    signal still down. *)
Theorem unexpected_exception_ends_loop (p : pc) (w : wake) (s : client)
    (e : exn) (t waiter : nat) :
  w_exn w = Some e →
  e ≠ CancelledError →
  is_transport_error e = false →
  ¬ (p = AtGatherVerifications ∧ e = LocalProtocolError) →
  task s = Some t →
  step (Running p s) w = (Crashed e s, [])
  ∧ loop_stop waiter (mkSystem (Crashed e s) false StopNotCalled)
    = mkSystem (Crashed e s) false StopReturned.
Proof.
  intros Hw Hc Ht Hlp Htask. split.
  - unfold step, resume. rewrite Hw.
    destruct p, e; simpl in *; try done.
    exfalso. by apply Hlp.
  - unfold loop_stop. simpl. by rewrite Htask.
Qed.

Lemma unexpected_exception_ends_loop_witness :
  step (Running AtGatherKeyRequests demo_running)
    (raised LocalProtocolError demo_nio)
  = (Crashed LocalProtocolError demo_running, [])
  ∧ loop_stop 7 (mkSystem (Crashed LocalProtocolError demo_running) false
                   StopNotCalled)
    = mkSystem (Crashed LocalProtocolError demo_running) false StopReturned.
Proof.
  apply (unexpected_exception_ends_loop AtGatherKeyRequests
           (raised LocalProtocolError demo_nio) demo_running
           LocalProtocolError 0 7); try reflexivity; try discriminate.
  intros [H _]. discriminate H.
Defined.

(** ** The response of [keys_query] *)

(** X12.  When [keys_query] returns a [KeysQueryResponse]: the devices that are
    not deleted are verified first, then one message with the user id and
    the whole [changed] mapping, deleted devices included, is put on the
    queue, and the iteration completes when the put returns.  A client
    built without a queue, the default of the constructor, verifies the
    devices and leaves the loop with [AttributeError].  Any other response
    completes the iteration with no device verified. *)
Theorem keys_query_response_handling (w : wake) (s : client) :
  w_exn w = None →
  match w_changed w with
  | Some changed =>
      if has_queue s
      then resume AtKeysQuery w s
           = (Suspend AtQueuePut s,
              verify_devices changed ++ [AQueuePut (user_id (w_nio w)) changed])
           ∧ verified_devices (verify_devices changed)
             = filter (λ d, dev_deleted d = false) (changed_device_list changed)
           ∧ ∀ w', w_exn w' = None →
               resume AtQueuePut w' s = finish_iteration s
      else step (Running AtKeysQuery s) w
           = (Crashed AttributeError s, verify_devices changed)
  | None => resume AtKeysQuery w s = finish_iteration s
  end.
Proof.
  intros Hw. unfold step, resume, after_keys_query. rewrite Hw.
  destruct (w_changed w) as [changed|]; [|done].
  destruct (has_queue s); [|done].
  split; [done|]. split; [apply verify_devices_verified|].
  by intros w' ->.
Qed.

Lemma keys_query_response_handling_witness :
  resume AtKeysQuery (mkWake None demo_nio 200 [] (Some demo_changed))
    demo_running
  = (Suspend AtQueuePut demo_running,
     verify_devices demo_changed
       ++ [AQueuePut "@pan:example.org" demo_changed])
  ∧ verified_devices (verify_devices demo_changed)
    = filter (λ d, dev_deleted d = false) (changed_device_list demo_changed)
  ∧ ∀ w', w_exn w' = None →
      resume AtQueuePut w' demo_running = finish_iteration demo_running.
Proof.
  apply (keys_query_response_handling
           (mkWake None demo_nio 200 [] (Some demo_changed)) demo_running).
  reflexivity.
Defined.

(** ** [encrypt] without a retry *)

(** X13.  When the first attempt returns, or raises anything but
    [GroupEncryptionError], that is the outcome of [encrypt] and the engine
    is called once, the group session not being shared.  When sharing the
    group session raises, that exception is the outcome and the encryption
    is not attempted again. *)
Theorem encrypt_without_retry {Olm : Type} `{!Engine Olm}
    (room_id msgtype : string) (content : json) (o : Olm) :
  match super_encrypt room_id msgtype content o with
  | (Raise GroupEncryptionError, o1) =>
      ∀ (e : exn) (o2 : Olm),
        share_group_session room_id o1 = (Raise e, o2) →
        encrypt room_id msgtype content o
        = (Raise e, o2, [CallEncrypt room_id msgtype content;
                         CallShareGroupSession room_id])
  | (r, o1) =>
      encrypt room_id msgtype content o
      = (r, o1, [CallEncrypt room_id msgtype content])
  end.
Proof.
  unfold encrypt.
  destruct (super_encrypt room_id msgtype content o) as [[v|e] o1]; [done|].
  destruct e; try done. by intros e o2 ->.
Qed.

(** ** Verification tasks after a transport fault *)

Lemma run_callbacks_verifications (n : nio_state) (es : list in_event)
    (s : client) :
  key_verificatins_tasks s `prefix_of`
  key_verificatins_tasks (run_callbacks n es s).1.
Proof.
  revert s. induction es as [|e es IH]; intros s; simpl; [done|].
  destruct (run_callback_counts n e s) as (_ & H & _).
  destruct (run_callback n e s) as [s1 a1]. simpl in H.
  specialize (IH s1). destruct (run_callbacks n es s1) as [s2 a2].
  simpl in *. etrans; [|exact IH]. rewrite H. by apply prefix_app_r.
Qed.

(** X14.  The list of verification tasks is emptied only on the path on which
    their gather returns or raises [LocalProtocolError].  When the gather
    raises one of the three connection errors the list is kept through the
    sleep, and the next iteration, its sync succeeding with nothing to
    dispatch, gathers the same tasks again, ahead of any spawned since. *)
Theorem verification_tasks_survive_transport_fault (s : client) (e : exn)
    (w1 w2 w3 : wake) :
  w_exn w1 = Some e →
  is_transport_error e = true →
  w_exn w2 = None →
  w_exn w3 = None →
  w_status w3 = 200%Z →
  outgoing_to_device_messages (w_nio w3) = [] →
  let s1 := (run_callbacks (w_nio w3) (w_events w3) s).1 in
  let cb := (run_callbacks (w_nio w3) (w_events w3) s).2 in
  run [w1; w2; w3] (Running AtGatherVerifications s)
  = (Running AtGatherVerifications s1,
     [ASleep 5; ASync 30000] ++ cb
       ++ [AGatherVerifications (key_verificatins_tasks s1)])
  ∧ key_verificatins_tasks s `prefix_of` key_verificatins_tasks s1.
Proof.
  intros H1 He H2 H3 Hstatus Hms s1 cb.
  split; [|apply run_callbacks_verifications].
  subst s1 cb. unfold run, step.
  rewrite (resume_transport_error AtGatherVerifications w1 s e) by done.
  rewrite (resume_sleep_over w2 s H2). cbn [loop_top].
  unfold resume. rewrite H3.
  destruct (run_callbacks (w_nio w3) (w_events w3) s) as [s1 a].
  rewrite decide_True by done. unfold send_to_device_messages.
  rewrite Hms. simpl. by rewrite app_nil_r.
Qed.

Lemma verification_tasks_survive_transport_fault_witness :
  let s := set_key_verificatins_tasks [3; 4] demo_running in
  let s1 := (run_callbacks demo_nio [] s).1 in
  let cb := (run_callbacks demo_nio [] s).2 in
  run [raised ServerDisconnectedError demo_nio; returned demo_nio;
       synced_with 200 [] demo_nio]
      (Running AtGatherVerifications s)
  = (Running AtGatherVerifications s1,
     [ASleep 5; ASync 30000] ++ cb
       ++ [AGatherVerifications (key_verificatins_tasks s1)])
  ∧ key_verificatins_tasks s `prefix_of` key_verificatins_tasks s1.
Proof.
  apply (verification_tasks_survive_transport_fault
           (set_key_verificatins_tasks [3; 4] demo_running)
           ServerDisconnectedError
           (raised ServerDisconnectedError demo_nio) (returned demo_nio)
           (synced_with 200 [] demo_nio));
    reflexivity.
Defined.

(** ** The life of the loop task *)

Lemma resume_return (p : pc) (w : wake) (s s' : client) (a : list action) :
  resume p w s = (Return s', a) →
  w_exn w = Some CancelledError ∧ s' = (_loop_stop s).1.
Proof.
  assert (∀ e, handle_exception e s = (Return s', a) →
               e = CancelledError ∧ s' = (_loop_stop s).1) as Hexn.
  { intros e. unfold handle_exception.
    destruct e; simpl; try done.
    destruct (_loop_stop s) as [s1 a1]. by intros [= <- _]. }
  assert (∀ s0, finish_iteration s0 ≠ (Return s', a)) as Hfin.
  { intros s0. unfold finish_iteration. by destruct (event_set (synced s0)). }
  unfold resume.
  destruct p, (w_exn w) as [e|];
    try (intros H; by destruct (Hexn e H) as [-> ->]);
    try (intros H; by apply Hfin in H); try done.
  - destruct (run_callbacks _ _ s) as [s1 a1].
    destruct (decide _); [|done]. unfold send_to_device_messages.
    destruct (outgoing_to_device_messages _); [done|].
    by destruct (create_to_device_tasks _ _) as [[ts s2] a2].
  - destruct e; try (intros H; by destruct (Hexn _ H) as [? ->]). done.
  - unfold after_key_requests, after_keys_upload.
    destruct (should_upload_keys _); [done|].
    destruct (should_query_keys _); [done|]. intros H. by apply Hfin in H.
  - unfold after_keys_upload.
    destruct (should_query_keys _); [done|]. intros H. by apply Hfin in H.
  - unfold after_keys_query.
    destruct (w_changed w); [by destruct (has_queue s)|].
    intros H. by apply Hfin in H.
  - destruct e; try done. destruct (_loop_stop s) as [s1 a1].
    by intros [= <- _].
Qed.

Lemma _loop_stop_flags (s : client) :
  loop_running (_loop_stop s).1 = false
  ∧ ev_flag (loop_stopped (_loop_stop s).1) = true.
Proof.
  unfold _loop_stop, event_set. simpl.
  by destruct (ev_flag (loop_stopped s)) eqn:H.
Qed.

Lemma step_lifecycle (c : config) (w : wake) :
  lifecycle_ok c → lifecycle_ok (step c w).1.
Proof.
  destruct c as [s|p s|s|e s]; simpl; try done.
  - by destruct (w_exn w) as [[]|].
  - intros (Hrunning & Hstopped & Hsynced).
    pose proof (step_flags_down (Running p s) w) as Hdown.
    simpl in Hdown. specialize (Hdown ltac:(done)).
    destruct (resume p w s) as [n a] eqn:Hres.
    destruct n as [p' s'|s'|s'|s'|e s']; simpl in *; try tauto.
    destruct (resume_return _ _ _ _ _ Hres) as [_ ->].
    apply _loop_stop_flags.
Qed.

Lemma step_stopped (c : config) (w : wake) (s' : client) :
  (step c w).1 = Stopped s' →
  c = Stopped s' ∨ w_exn w = Some CancelledError.
Proof.
  destruct c as [s|p s|s|e s]; simpl.
  - by destruct (w_exn w) as [[]|].
  - destruct (resume p w s) as [n a] eqn:Hres.
    destruct n as [p' s1|s1|s1|s1|e s1]; simpl; try done.
    intros _. right. by destruct (resume_return _ _ _ _ _ Hres).
  - intros [= ->]. by left.
  - done.
Qed.

(** X15.  From [start_loop] on, however the task is scheduled: while the loop is
    suspended at an [await], [loop_running] is true and both signals are
    down; once it has stopped, [loop_running] is false and [loop_stopped]
    is set, and one of the wakes delivered a cancellation.  Without a
    cancellation the loop never stops: no status, response or connection
    error makes it leave by [break]. *)
Theorem loop_lifecycle (ws : list wake) (s : client) :
  match (run ws (start_loop s).1.2).1 with
  | Created _ => ws = []
  | Running _ s' =>
      loop_running s' = true ∧ ev_flag (loop_stopped s') = false
      ∧ ev_flag (synced s') = false
  | Stopped s' =>
      loop_running s' = false ∧ ev_flag (loop_stopped s') = true
      ∧ ∃ w, w ∈ ws ∧ w_exn w = Some CancelledError
  | Crashed _ _ => True
  end.
Proof.
  assert (∀ ws c, lifecycle_ok c → lifecycle_ok (run ws c).1) as Hlife.
  { clear. induction ws as [|w ws IH]; intros c Hc; simpl; [done|].
    pose proof (step_lifecycle c w Hc) as H1.
    destruct (step c w) as [c1 a1]. specialize (IH c1 H1).
    by destruct (run ws c1) as [c2 a2]. }
  assert (∀ ws c s', (run ws c).1 = Stopped s' →
            c = Stopped s' ∨ ∃ w, w ∈ ws ∧ w_exn w = Some CancelledError)
    as Hstop.
  { clear. induction ws as [|w ws IH]; intros c s'; simpl; [by left|].
    pose proof (step_stopped c w s') as H1.
    destruct (step c w) as [c1 a1]. specialize (IH c1 s').
    destruct (run ws c1) as [c2 a2]. simpl in *. intros H.
    destruct (IH H) as [->|(w' & Hin & Hw')].
    - destruct (H1 eq_refl) as [->|Hw]; [by left|].
      right. exists w. split; [apply list_elem_of_here|done].
    - right. exists w'. split; [by apply list_elem_of_further|done]. }
  assert (∀ ws c s', (run ws c).1 = Created s' → ws = []) as Hcreated.
  { clear. intros [|w ws] c s'; [done|]. simpl.
    destruct (step c w) as [c1 a1] eqn:Hstep.
    assert (∀ s0, c1 ≠ Created s0) as Hc1.
    { intros s0 ->. destruct c as [s|p s|s|e s]; simpl in Hstep.
      - by destruct (w_exn w) as [[]|].
      - by destruct (resume p w s) as [[] a].
      - done.
      - done. }
    assert (∀ ws c, (∀ s0, c ≠ Created s0) →
                    ∀ s0, (run ws c).1 ≠ Created s0) as Hrun.
    { clear. induction ws as [|w ws IH]; intros c Hc s0; simpl; [apply Hc|].
      destruct (step c w) as [c1 a1] eqn:Hstep.
      assert (∀ s1, c1 ≠ Created s1) as Hc1.
      { intros s1 ->. destruct c as [s|p s|s|e s]; simpl in Hstep.
        - by destruct (Hc s).
        - by destruct (resume p w s) as [[] a].
        - done.
        - done. }
      specialize (IH c1 Hc1 s0). by destruct (run ws c1) as [c2 a2]. }
    specialize (Hrun ws c1 Hc1 s'). by destruct (run ws c1) as [c2 a2]. }
  pose proof (Hlife ws (start_loop s).1.2 ltac:(done)) as H1.
  pose proof (Hstop ws (start_loop s).1.2) as H2.
  pose proof (Hcreated ws (start_loop s).1.2) as H3.
  destruct (run ws (start_loop s).1.2).1 as [s'|p s'|s'|e s']; simpl in *.
  - by eapply H3.
  - done.
  - destruct H1 as [? ?]. repeat split; try done.
    destruct (H2 s' eq_refl) as [?|?]; done.
  - done.
Qed.

(** ** [loop_stop] right after [start_loop] *)

Lemma unstarted_step (waiter : nat) (l : sched) (sys : system) :
  unstarted waiter sys → unstarted waiter (sys_step l sys).
Proof.
  destruct sys as [c cancel stop]. unfold unstarted. simpl.
  intros (Hc & -> & Hflag & Hin). destruct l as [w'|w|].
  - unfold sys_step, loop_stop. simpl. done.
  - unfold sys_step, loop_resume. simpl.
    destruct c as [s|p s|s|e s]; try done.
    simpl in Hc. subst cancel. simpl. done.
  - unfold sys_step, stop_resume. cbn [sys_stop sys_loop sys_cancel].
    rewrite decide_True by done. done.
Qed.

(** X16.  [loop_stop] called on a fresh client after [start_loop] and before the
    loop task has run: the task is cancelled without executing any of
    [loop()], so [_loop_stop] never runs; in every schedule from then on
    the loop never reaches an [await], [loop_stopped] stays down and the
    caller of [loop_stop] stays blocked. *)
Theorem loop_stop_before_first_step (s : client) (waiter : nat)
    (ls : list sched) :
  ev_flag (loop_stopped s) = false →
  let sys :=
    sys_run ls
      (loop_stop waiter (mkSystem (start_loop s).1.2 false StopNotCalled)) in
  sys_stop sys = StopWaiting waiter
  ∧ ev_flag (loop_stopped (config_client (sys_loop sys))) = false
  ∧ ∀ p s', sys_loop sys ≠ Running p s'.
Proof.
  intros Hflag.
  assert (∀ ls sys, unstarted waiter sys → unstarted waiter (sys_run ls sys))
    as Hrun.
  { clear. induction ls as [|l ls IH]; intros sys Hs; [done|].
    simpl. apply IH. by apply unstarted_step. }
  assert (unstarted waiter
            (loop_stop waiter (mkSystem (start_loop s).1.2 false StopNotCalled)))
    as Hstart.
  { unfold loop_stop, event_wait, unstarted. simpl. rewrite Hflag. simpl.
    repeat split; try done. set_solver. }
  intros sys. destruct (Hrun ls _ Hstart) as (Hc & Hstop & Hdown & _).
  fold sys in Hc, Hstop, Hdown. repeat split; try done.
  intros p s' Hp. by rewrite Hp in Hc.
Qed.

Lemma loop_stop_before_first_step_witness :
  let sys :=
    sys_run [ResumeLoop (returned demo_nio); ResumeStop;
             ResumeLoop (returned demo_nio); ResumeStop]
      (loop_stop 7 (mkSystem (start_loop (init true)).1.2 false
                      StopNotCalled)) in
  sys_stop sys = StopWaiting 7
  ∧ ev_flag (loop_stopped (config_client (sys_loop sys))) = false
  ∧ ∀ p s', sys_loop sys ≠ Running p s'.
Proof.
  apply (loop_stop_before_first_step (init true) 7
           [ResumeLoop (returned demo_nio); ResumeStop;
            ResumeLoop (returned demo_nio); ResumeStop]).
  reflexivity.
Defined.

(** ** What a completed iteration has done *)

Lemma iteration_cons (p : pc) (w : wake) (ws : list wake) (s : client) :
  iteration p (w :: ws) s =
  match resume p w s with
  | (Suspend p' s', a) =>
      match iteration p' ws s' with (n, a') => (n, a ++ a') end
  | r => r
  end.
Proof.
  simpl. destruct (resume p w s) as [[p' s'| | | |] a]; try done.
Qed.

Lemma iteration_sleep_fault (ws : list wake) (s s' : client)
    (acts : list action) :
  iteration AtSleepFault ws s ≠ (Synced s', acts).
Proof.
  destruct ws as [|w ws]; [done|]. rewrite iteration_cons. unfold resume.
  destruct (w_exn w) as [[]|]; try done.
  by destruct (_loop_stop s).
Qed.

Lemma iteration_after_exception (e : exn) (ws : list wake) (s s' : client)
    (acts : list action) :
  match handle_exception e s with
  | (Suspend p' s1, a) =>
      match iteration p' ws s1 with (n, a') => (n, a ++ a') end
  | r => r
  end ≠ (Synced s', acts).
Proof.
  unfold handle_exception.
  destruct e; simpl; try done; try (by destruct (_loop_stop s));
    pose proof (iteration_sleep_fault ws s s') as H;
    destruct (iteration AtSleepFault ws s) as [n a']; intros [= -> <-];
    by eapply H.
Qed.

Lemma finish_iteration_lists (s s' : client) (a : list action) :
  finish_iteration s = (Synced s', a) →
  key_verificatins_tasks s' = key_verificatins_tasks s
  ∧ key_request_tasks s' = key_request_tasks s.
Proof.
  unfold finish_iteration. destruct (event_set (synced s)) as [e released].
  by intros [= <- _].
Qed.

Lemma iteration_from_queue_put (ws : list wake) (s s' : client)
    (acts : list action) :
  iteration AtQueuePut ws s = (Synced s', acts) →
  key_verificatins_tasks s' = key_verificatins_tasks s
  ∧ key_request_tasks s' = key_request_tasks s.
Proof.
  destruct ws as [|w ws]; [done|]. rewrite iteration_cons. unfold resume.
  destruct (w_exn w) as [e|].
  - intros H. by apply iteration_after_exception in H.
  - unfold finish_iteration. destruct (event_set (synced s)) as [ev released].
    by intros [= <- _].
Qed.

Lemma iteration_from_keys_query (ws : list wake) (s s' : client)
    (acts : list action) :
  iteration AtKeysQuery ws s = (Synced s', acts) →
  key_verificatins_tasks s' = key_verificatins_tasks s
  ∧ key_request_tasks s' = key_request_tasks s.
Proof.
  destruct ws as [|w ws]; [done|]. rewrite iteration_cons. unfold resume.
  destruct (w_exn w) as [e|].
  - intros H. by apply iteration_after_exception in H.
  - unfold after_keys_query. destruct (w_changed w) as [ch|].
    + destruct (has_queue s); [|done].
      destruct (iteration AtQueuePut ws s) as [n a'] eqn:Hit.
      intros [= -> <-]. by eapply iteration_from_queue_put.
    + unfold finish_iteration.
      destruct (event_set (synced s)) as [ev released]. by intros [= <- _].
Qed.

Lemma after_keys_upload_lists (n : nio_state) (ws : list wake) (s s' : client)
    (acts : list action) :
  match after_keys_upload n s with
  | (Suspend p' s1, a) =>
      match iteration p' ws s1 with (n, a') => (n, a ++ a') end
  | r => r
  end = (Synced s', acts) →
  key_verificatins_tasks s' = key_verificatins_tasks s
  ∧ key_request_tasks s' = key_request_tasks s.
Proof.
  unfold after_keys_upload. destruct (should_query_keys n).
  - destruct (iteration AtKeysQuery ws s) as [n' a'] eqn:Hit.
    intros [= -> <-]. by eapply iteration_from_keys_query.
  - unfold finish_iteration. destruct (event_set (synced s)) as [ev released].
    by intros [= <- _].
Qed.

Lemma iteration_from_keys_upload (ws : list wake) (s s' : client)
    (acts : list action) :
  iteration AtKeysUpload ws s = (Synced s', acts) →
  key_verificatins_tasks s' = key_verificatins_tasks s
  ∧ key_request_tasks s' = key_request_tasks s.
Proof.
  destruct ws as [|w ws]; [done|]. rewrite iteration_cons. unfold resume.
  destruct (w_exn w) as [e|].
  - intros H. by apply iteration_after_exception in H.
  - apply after_keys_upload_lists.
Qed.

Lemma iteration_from_key_requests (ws : list wake) (s s' : client)
    (acts : list action) :
  iteration AtGatherKeyRequests ws s = (Synced s', acts) →
  key_verificatins_tasks s' = key_verificatins_tasks s
  ∧ key_request_tasks s' = key_request_tasks s.
Proof.
  destruct ws as [|w ws]; [done|]. rewrite iteration_cons. unfold resume.
  destruct (w_exn w) as [e|].
  - intros H. by apply iteration_after_exception in H.
  - unfold after_key_requests. destruct (should_upload_keys (w_nio w)).
    + destruct (iteration AtKeysUpload ws s) as [n' a'] eqn:Hit.
      intros [= -> <-]. by eapply iteration_from_keys_upload.
    + apply after_keys_upload_lists.
Qed.

Lemma iteration_from_verifications (ws : list wake) (s s' : client)
    (acts : list action) :
  iteration AtGatherVerifications ws s = (Synced s', acts) →
  key_verificatins_tasks s' = []
  ∧ key_request_tasks s' = key_request_tasks s
  ∧ AGatherKeyRequests (key_request_tasks s) ∈ acts.
Proof.
  destruct ws as [|w ws]; [done|]. rewrite iteration_cons. unfold resume.
  assert (∀ log,
            match iteration AtGatherKeyRequests ws
                    (set_key_verificatins_tasks [] s) with
            | (n, a') => (n, (log ++ [AGatherKeyRequests (key_request_tasks s)])
                               ++ a')
            end = (Synced s', acts) →
            key_verificatins_tasks s' = []
            ∧ key_request_tasks s' = key_request_tasks s
            ∧ AGatherKeyRequests (key_request_tasks s) ∈ acts) as Hgo.
  { intros log.
    destruct (iteration AtGatherKeyRequests ws _) as [n a'] eqn:Hit.
    intros [= -> <-].
    destruct (iteration_from_key_requests _ _ _ _ Hit) as [H1 H2].
    split; [done|]. split; [done|]. set_solver. }
  destruct (w_exn w) as [e|].
  - destruct e; try (intros H; by apply iteration_after_exception in H).
    apply (Hgo [ALog InfoProtocolError]).
  - apply (Hgo []).
Qed.

Lemma iteration_from_send (ws : list wake) (s s' : client)
    (acts : list action) :
  iteration AtSend ws s = (Synced s', acts) →
  key_verificatins_tasks s' = []
  ∧ key_request_tasks s' = key_request_tasks s
  ∧ AGatherVerifications (key_verificatins_tasks s) ∈ acts
  ∧ AGatherKeyRequests (key_request_tasks s) ∈ acts.
Proof.
  destruct ws as [|w ws]; [done|]. rewrite iteration_cons. unfold resume.
  destruct (w_exn w) as [e|].
  - intros H. by apply iteration_after_exception in H.
  - unfold gather_verifications.
    destruct (iteration AtGatherVerifications ws s) as [n a'] eqn:Hit.
    intros [= -> <-].
    destruct (iteration_from_verifications _ _ _ _ Hit) as (H1 & H2 & H3).
    repeat split; try done; set_solver.
Qed.

Lemma iteration_sync_gathers (w : wake) (ws : list wake)
    (s s' : client) (acts : list action) :
  iteration AtSync (w :: ws) s = (Synced s', acts) →
  let s1 := (run_callbacks (w_nio w) (w_events w) s).1 in
  w_exn w = None
  ∧ w_status w = 200%Z
  ∧ AGatherVerifications (key_verificatins_tasks s1) ∈ acts
  ∧ AGatherKeyRequests (key_request_tasks s1) ∈ acts
  ∧ key_verificatins_tasks s' = []
  ∧ key_request_tasks s' = key_request_tasks s1.
Proof.
  rewrite iteration_cons. unfold resume.
  destruct (w_exn w) as [e|].
  { intros H. by apply iteration_after_exception in H. }
  destruct (run_callbacks (w_nio w) (w_events w) s) as [s1 cb]. simpl.
  destruct (decide (w_status w = 200%Z)) as [Hstatus|Hstatus].
  - unfold send_to_device_messages.
    destruct (outgoing_to_device_messages (w_nio w)) as [|m ms].
    + unfold gather_verifications.
      destruct (iteration AtGatherVerifications ws s1) as [n a'] eqn:Hit.
      intros [= -> <-].
      destruct (iteration_from_verifications _ _ _ _ Hit) as (H1 & H2 & H3).
      repeat split; try done; set_solver.
    + destruct (create_to_device_tasks_frame (m :: ms) s1) as (_ & _ & H1 & H2).
      destruct (create_to_device_tasks (m :: ms) s1) as [[ts s2] a].
      simpl in H1, H2.
      destruct (iteration AtSend ws s2) as [n a'] eqn:Hit.
      intros [= -> <-].
      destruct (iteration_from_send _ _ _ _ Hit) as (H3 & H4 & H5 & H6).
      rewrite H2 in H5. rewrite H1 in H4, H6.
      repeat split; try done; set_solver.
  - destruct (iteration AtSleepStatus ws s1) as [n a'] eqn:Hit.
    intros [= -> <-]. exfalso.
    destruct ws as [|w' ws']; [done|]. rewrite iteration_cons in Hit.
    unfold resume in Hit. destruct (w_exn w') as [e|]; [|done].
    by apply iteration_after_exception in Hit.
Qed.

(** X17.  An iteration that completes was started by a sync that returned with
    status 200, and it has handed to [gather], once it was past the
    dispatch, the whole list of verification tasks and the whole list of
    key-request tasks as the callbacks of that sync left them; it ends with
    the list of verification tasks empty and the list of key-request tasks
    still as the callbacks left it. *)
Theorem completed_iteration_gathers (w : wake) (ws : list wake)
    (s s' : client) (acts : list action) :
  iteration AtSync (w :: ws) s = (Synced s', acts) →
  let s1 := (run_callbacks (w_nio w) (w_events w) s).1 in
  w_exn w = None
  ∧ w_status w = 200%Z
  ∧ AGatherVerifications (key_verificatins_tasks s1) ∈ acts
  ∧ AGatherKeyRequests (key_request_tasks s1) ∈ acts
  ∧ key_verificatins_tasks s' = []
  ∧ key_request_tasks s' = key_request_tasks s1.
Proof. apply iteration_sync_gathers. Qed.

Lemma completed_iteration_gathers_witness :
  let w := synced_with 200 [InMegolm "!enc:example.org" (demo_event "SESSION")]
             demo_nio in
  let s1 := (run_callbacks (w_nio w) (w_events w) demo_running).1 in
  w_exn w = None
  ∧ w_status w = 200%Z
  ∧ AGatherVerifications (key_verificatins_tasks s1)
    ∈ [ALog (InfoUnableToDecrypt "@alice:example.org" "ALICEDEVICE");
       ALog InfoRequestingRoomKey;
       ACreateTask 1 (RequestRoomKey (demo_event "SESSION"));
       AGatherVerifications []; AGatherKeyRequests [1];
       ASyncedSet [5]; ASyncedClear]
  ∧ AGatherKeyRequests (key_request_tasks s1)
    ∈ [ALog (InfoUnableToDecrypt "@alice:example.org" "ALICEDEVICE");
       ALog InfoRequestingRoomKey;
       ACreateTask 1 (RequestRoomKey (demo_event "SESSION"));
       AGatherVerifications []; AGatherKeyRequests [1];
       ASyncedSet [5]; ASyncedClear]
  ∧ key_verificatins_tasks
      (mkClient (Some 0) true true (mkEvent false []) (mkEvent false [])
         [] [1] 2) = []
  ∧ key_request_tasks
      (mkClient (Some 0) true true (mkEvent false []) (mkEvent false [])
         [] [1] 2) = key_request_tasks s1.
Proof.
  apply (completed_iteration_gathers
           (synced_with 200
              [InMegolm "!enc:example.org" (demo_event "SESSION")] demo_nio)
           [returned demo_nio; returned demo_nio] demo_running).
  reflexivity.
Defined.

(** ** [decrypt_sync_body] without [ignore_failures] *)

Section Strict.
Context {Olm : Type} `{!Engine Olm}.

Lemma sync_events_not_megolm (room_id : option string) (ig : bool)
    (events : list json) (c : pan Olm) :
  Forall (λ x, is_megolm x = false) events →
  py_for (λ event c, discard (pan_decrypt_event event room_id ig c)) events c
  = (events, Ok (),
     mkPan (pan_olm c) (pan_rooms c) (pan_log c ++ map WarnNotMegolm events)).
Proof.
  intros Hall. revert c.
  induction Hall as [|x rest Hx _ IH]; intros c.
  - simpl. rewrite app_nil_r. by destruct c.
  - rewrite py_for_cons, pan_decrypt_event_not_megolm by done. simpl.
    rewrite IH. simpl. by rewrite <- app_assoc.
Qed.

End Strict.

(** X18.  With [ignore_failures] off, the first joined room known and encrypted,
    and in its timeline a Megolm event the engine cannot decrypt after
    events that are not Megolm: the call raises [EncryptionError] at that
    event.  The body is exactly as it was, the failing event included; the
    events and rooms after it are never looked at: the log holds the
    warnings for the events before it and the one for the failure, and
    the engine is as the failed attempt left it. *)
Theorem strict_mode_stops_at_first_failure {Olm : Type} `{!Engine Olm}
    (body rooms rest d timeline : pydict) (pre post : list json) (e : json)
    (room_id : string) (room : MatrixRoom) (event : MegolmEvent)
    (c : pan Olm) (o : Olm) :
  dict_get "rooms" body = Some (JDict rooms) →
  dict_get "join" rooms = Some (JDict ((room_id, JDict d) :: rest)) →
  pan_rooms c !! room_id = Some room →
  encrypted room = true →
  dict_get "timeline" d = Some (JDict timeline) →
  dict_get "events" timeline = Some (JList (pre ++ e :: post)) →
  Forall (λ x, is_megolm x = false) pre →
  parse_event e = PMegolm event →
  decrypt_event (fill_room_id event (Some room_id)) (pan_olm c)
    = (DecRaise EncryptionError, o) →
  decrypt_sync_body body false c
  = (body, Raise EncryptionError,
     mkPan o (pan_rooms c)
       (pan_log c ++ [InfoDecryptingSync] ++ map WarnNotMegolm pre
          ++ [WarnEncryptionError])).
Proof.
  intros Hrooms Hjoin Hroom Henc Htl Hevents Hpre Hparse Hdec.
  rewrite (decrypt_sync_body_join _ _ _ _ _ Hrooms Hjoin).
  rewrite py_for_cons. unfold sync_room at 1.
  cbn [logged pan_rooms]. rewrite Hroom, Henc. cbn [negb].
  cbn [py_getitem]. rewrite Htl. cbn [py_getitem]. rewrite Hevents.
  cbn [py_iter]. rewrite py_for_app.
  rewrite (sync_events_not_megolm (Some room_id) false pre _ Hpre).
  rewrite py_for_cons. unfold pan_decrypt_event at 1.
  rewrite Hparse. cbn [pan_olm].
  change (pan_olm (logged InfoDecryptingSync c)) with (pan_olm c).
  rewrite Hdec. simpl.
  rewrite (dict_set_same "events" _ timeline Hevents).
  rewrite (dict_set_same "timeline" _ d Htl).
  rewrite (dict_set_same "join" _ rooms Hjoin).
  rewrite (dict_set_same "rooms" _ body Hrooms).
  unfold logged, with_olm. simpl. by rewrite <- !app_assoc.
Qed.

Lemma strict_mode_stops_at_first_failure_witness :
  let body :=
    [("rooms",
      JDict [("join",
              JDict [("!enc:example.org",
                      demo_room [demo_plain; demo_encrypted "lost";
                                 demo_encrypted "known"]);
                     ("!unknown:example.org", demo_room [])])])] in
  @decrypt_sync_body nat demo_engine body false demo_pan
  = (body, Raise EncryptionError,
     mkPan 0 (pan_rooms demo_pan)
       (pan_log demo_pan ++ [InfoDecryptingSync]
          ++ map WarnNotMegolm [demo_plain] ++ [WarnEncryptionError])).
Proof.
  apply (@strict_mode_stops_at_first_failure nat demo_engine _
           [("join",
             JDict [("!enc:example.org",
                     demo_room [demo_plain; demo_encrypted "lost";
                                demo_encrypted "known"]);
                    ("!unknown:example.org", demo_room [])])]
           [("!unknown:example.org", demo_room [])]
           [("timeline",
             JDict [("events",
                     JList [demo_plain; demo_encrypted "lost";
                            demo_encrypted "known"])])]
           [("events",
             JList [demo_plain; demo_encrypted "lost"; demo_encrypted "known"])]
           [demo_plain] [demo_encrypted "known"] (demo_encrypted "lost")
           "!enc:example.org" (mkRoom true "Encrypted room")
           (demo_event "lost") demo_pan 0);
    try reflexivity.
  repeat constructor.
Defined.

(** ** The short authentication string *)

Lemma center_length {A : Type} (fill : A) (width : nat) (s : list A) :
  (length s ≤ width)%nat → length (center fill width s) = width.
Proof.
  intros Hle. unfold center. rewrite !length_app, !repeat_length.
  assert ((width - length s) / 2 ≤ width - length s)%nat
    by (apply Nat.Div0.div_le_upper_bound; lia).
  lia.
Qed.

Lemma format7_length {A : Type} (fill : A) (width : nat)
    (args : list (list A)) :
  (7 ≤ length args)%nat →
  Forall (λ a, (length a ≤ width)%nat) (take 7 args) →
  ∃ s, format7 fill width args = Some s ∧ length s = 7 * width.
Proof.
  intros Hlen Hall. unfold format7. rewrite decide_True by done.
  eexists. split; [done|].
  assert (length (take 7 args) = 7) as Htake by (rewrite length_take; lia).
  revert Htake Hall. generalize (take 7 args). clear.
  intros l. generalize 7. intros n. revert n.
  induction l as [|a l IH]; intros n Hn Hall; simpl in *; [subst; lia|].
  apply Forall_cons in Hall as [Ha Hall].
  destruct n as [|n]; [done|].
  rewrite length_app, center_length by done.
  rewrite (IH n) by (done || lia). lia.
Qed.

(** X19.  The string logged for a key event.  With fewer than seven emoji the
    formatting raises.  With seven or more, each of the first seven emoji
    at most 10 code points long and each description at most 11, it is a
    line of 70 places, a newline and a line of 77 places; and whatever
    their lengths only the first seven pairs are used. *)
Theorem short_string_layout {A : Type} (space newline : A)
    (emoji : list (list A * list A)) :
  ((length emoji < 7)%nat → short_string space newline emoji = None)
  ∧ ((7 ≤ length emoji)%nat →
     Forall (λ p, (length p.1 ≤ 10)%nat ∧ (length p.2 ≤ 11)%nat)
       (take 7 emoji) →
     ∃ s, short_string space newline emoji = Some s
          ∧ length s = 148
          ∧ s !! 70 = Some newline)
  ∧ ((7 ≤ length emoji)%nat →
     short_string space newline emoji
     = short_string space newline (take 7 emoji)).
Proof.
  split; [|split].
  - intros Hlt. unfold short_string, format7.
    rewrite decide_False by (rewrite length_map; lia). done.
  - intros Hlen Hall. unfold short_string.
    destruct (format7_length space 10 (map fst emoji)) as (s1 & -> & H1).
    { by rewrite length_map. }
    { rewrite <- fmap_take. apply Forall_fmap.
      eapply Forall_impl; [exact Hall|]. by intros p [? ?]. }
    destruct (format7_length space 11 (map snd emoji)) as (s2 & -> & H2).
    { by rewrite length_map. }
    { rewrite <- fmap_take. apply Forall_fmap.
      eapply Forall_impl; [exact Hall|]. by intros p [? ?]. }
    eexists. split; [done|]. split.
    + rewrite !length_app. simpl. lia.
    + rewrite lookup_app_r by lia. by rewrite H1.
  - intros Hlen. unfold short_string, format7.
    rewrite !length_map, length_take.
    rewrite !decide_True by lia.
    by rewrite <- !fmap_take, take_take.
Qed.

(** ** Iterations whose awaits all return *)

Lemma iteration_app (p : pc) (ws1 ws2 : list wake) (s : client) :
  iteration p (ws1 ++ ws2) s =
  match iteration p ws1 s with
  | (Suspend p' s', a) =>
      match iteration p' ws2 s' with (n, a') => (n, a ++ a') end
  | r => r
  end.
Proof.
  revert p s. induction ws1 as [|w ws1 IH]; intros p s.
  - simpl. by destruct (iteration p ws2 s).
  - rewrite <- app_comm_cons, !iteration_cons.
    destruct (resume p w s) as [[p' s'| | | |] a]; try done.
    rewrite IH.
    destruct (iteration p' ws1 s') as [[p'' s''| | | |] a']; try done.
    destruct (iteration p'' ws2 s'') as [n a'']. by rewrite app_assoc.
Qed.

Lemma finish_iteration_synced (s : client) :
  ∃ s' a, finish_iteration s = (Synced s', a).
Proof.
  unfold finish_iteration. destruct (event_set (synced s)). by eexists _, _.
Qed.

(** A resumption with the awaited call returning takes the iteration one
    [await] closer to the end of the [try] body, or to it. *)
Lemma resume_progress (p : pc) (w : wake) (s : client) :
  w_exn w = None →
  has_queue s = true →
  (0 < awaits_left p)%nat →
  (p = AtSync → w_status w = 200%Z) →
  match resume p w s with
  | (Suspend p' s', _) =>
      (0 < awaits_left p')%nat ∧ (awaits_left p' < awaits_left p)%nat
      ∧ has_queue s' = true
  | (Synced _, _) => True
  | _ => False
  end.
Proof.
  intros Hw Hqueue Hp Hstatus. unfold resume. rewrite Hw.
  assert (∀ s0, match finish_iteration s0 with
                | (Suspend p' s', _) =>
                    (0 < awaits_left p')%nat
                    ∧ (awaits_left p' < awaits_left p)%nat
                    ∧ has_queue s' = true
                | (Synced _, _) => True
                | _ => False
                end) as Hfinish.
  { intros s0. by destruct (finish_iteration_synced s0) as (s' & a & ->). }
  destruct p; simpl in Hp; try lia.
  - destruct (run_callbacks_frame (w_nio w) (w_events w) s)
      as ((_ & _ & _ & _ & H1) & _).
    destruct (run_callbacks (w_nio w) (w_events w) s) as [s1 a].
    simpl in H1. rewrite decide_True by auto.
    unfold send_to_device_messages.
    destruct (outgoing_to_device_messages (w_nio w)) as [|m ms].
    + simpl. split; [lia|]. split; [lia|]. congruence.
    + destruct (create_to_device_tasks_frame (m :: ms) s1)
        as ((_ & _ & _ & _ & H2) & _).
      destruct (create_to_device_tasks (m :: ms) s1) as [[ts s2] a'].
      simpl in *. split; [lia|]. split; [lia|]. congruence.
  - simpl. split; [lia|]. split; [lia|]. done.
  - simpl. split; [lia|]. split; [lia|]. done.
  - unfold after_key_requests, after_keys_upload.
    destruct (should_upload_keys (w_nio w)); [simpl; repeat split; lia || done|].
    destruct (should_query_keys (w_nio w)); [simpl; repeat split; lia || done|].
    apply Hfinish.
  - unfold after_keys_upload.
    destruct (should_query_keys (w_nio w)); [simpl; repeat split; lia || done|].
    apply Hfinish.
  - unfold after_keys_query. destruct (w_changed w) as [ch|]; [|apply Hfinish].
    rewrite Hqueue. simpl. repeat split; lia || done.
  - apply Hfinish.
Qed.

(** With enough returning wakes the iteration runs to the end of the [try]
    body. *)
Lemma iteration_completes (ws : list wake) (p : pc) (s : client) :
  Forall (λ w, w_exn w = None) ws →
  has_queue s = true →
  (0 < awaits_left p)%nat →
  (awaits_left p ≤ length ws)%nat →
  (p = AtSync → ∃ w ws', ws = w :: ws' ∧ w_status w = 200%Z) →
  ∃ s' acts, iteration p ws s = (Synced s', acts).
Proof.
  revert p s. induction ws as [|w ws IH]; intros p s Hall Hqueue Hp Hlen Hsync.
  { simpl in Hlen. lia. }
  apply Forall_cons in Hall as [Hw Hall]. rewrite iteration_cons.
  pose proof (resume_progress p w s Hw Hqueue Hp) as Hstep.
  destruct (resume p w s) as [[p' s'|s'|s'|s'|e s'] a].
  - destruct Hstep as (Hp' & Hlt & Hqueue').
    { intros ->. destruct (Hsync eq_refl) as (w0 & ws0 & [= <- <-] & H). done. }
    destruct (IH p' s' Hall Hqueue' Hp') as (s'' & acts & ->).
    + simpl in Hlen. lia.
    + intros ->. destruct p; simpl in Hlt; lia.
    + by eexists _, _.
  - by eexists _, _.
  - destruct Hstep.
    intros ->. destruct (Hsync eq_refl) as (w0 & ws0 & [= <- <-] & H). done.
  - destruct Hstep.
    intros ->. destruct (Hsync eq_refl) as (w0 & ws0 & [= <- <-] & H). done.
  - destruct Hstep.
    intros ->. destruct (Hsync eq_refl) as (w0 & ws0 & [= <- <-] & H). done.
Qed.

Lemma iteration_sleep_status (ws : list wake) (s s' : client)
    (acts : list action) :
  iteration AtSleepStatus ws s ≠ (Synced s', acts).
Proof.
  destruct ws as [|w ws]; [done|]. rewrite iteration_cons. unfold resume.
  destruct (w_exn w) as [e|]; [|done]. apply iteration_after_exception.
Qed.

(** An iteration in which an [await] reports a fault does not reach the
    end of the [try] body, whatever it is resumed with afterwards. *)
Lemma fault_not_synced (p : pc) (w : wake) (ws : list wake) (s s' : client)
    (acts : list action) :
  reports_fault p w →
  iteration p (w :: ws) s ≠ (Synced s', acts).
Proof.
  intros [(-> & Hw & Hstatus)|(e & Hw & He)]; rewrite iteration_cons.
  - unfold resume. rewrite Hw.
    destruct (run_callbacks (w_nio w) (w_events w) s) as [s1 a].
    rewrite decide_False by done.
    pose proof (iteration_sleep_status ws s1 s') as H.
    destruct (iteration AtSleepStatus ws s1) as [n a'].
    intros [= -> <-]. by eapply H.
  - assert (p = AtSleepFault ∨ p ≠ AtSleepFault) as [->|Hp]
      by (destruct p; (by left) || (by right)).
    + unfold resume. rewrite Hw. by destruct e.
    + rewrite (resume_transport_error p w s e) by done.
      pose proof (iteration_sleep_fault ws s s') as H.
      destruct (iteration AtSleepFault ws s) as [n a'].
      intros [= -> <-]. by eapply H.
Qed.

(** ** The synced signal *)

(** C6.  The synced signal over one cycle, by what the cycle's [await]s
    report.  When the sync returns with status 200 and every [await] after
    it returns, the iteration runs to the end of the [try] body: it sets the
    signal exactly once, as its last action but the [clear()] that follows
    at once, after both gathers, releasing every coroutine that waits on
    it; and a [wait()] that comes after the [clear()] blocks until the next
    such cycle.  When the sync reports a status other than 200, or any
    [await] of the iteration raises one of the three connection errors, the
    iteration does not get to the end of the [try] body however it is
    resumed afterwards, it never sets the signal, and the waiters stay
    blocked.  In general an iteration sets the signal once if it runs to the
    end of the [try] body and not at all otherwise, and the waiters released
    are all those blocked at the resumption that completes it. *)
Theorem C6_synced_signal :
  (∀ (w : wake) (ws : list wake) (s : client),
      ev_flag (synced s) = false →
      has_queue s = true →
      w_exn w = None →
      w_status w = 200%Z →
      Forall (λ w', w_exn w' = None) ws →
      (6 ≤ length ws)%nat →
      let s1 := (run_callbacks (w_nio w) (w_events w) s).1 in
      ∃ (s' : client) (pre : list action),
        iteration AtSync (w :: ws) s
        = (Synced s',
           pre ++ [ASyncedSet (ev_waiters (synced s)); ASyncedClear])
        ∧ synced_sets pre = 0
        ∧ AGatherVerifications (key_verificatins_tasks s1) ∈ pre
        ∧ AGatherKeyRequests (key_request_tasks s1) ∈ pre
        ∧ synced s' = mkEvent false []
        ∧ ∀ waiter,
            event_wait waiter (synced s') = (false, mkEvent false [waiter]))
  ∧ (∀ (ws1 : list wake) (w : wake) (ws2 : list wake) (s s1 : client)
       (p : pc) (a1 : list action),
      ev_flag (synced s) = false →
      iteration AtSync ws1 s = (Suspend p s1, a1) →
      reports_fault p w →
      ∃ (n : next) (acts : list action),
        iteration AtSync (ws1 ++ w :: ws2) s = (n, acts)
        ∧ (∀ s', n ≠ Synced s')
        ∧ synced_sets acts = 0
        ∧ synced (next_client n) = synced s)
  ∧ (∀ (ws : list wake) (s : client),
      ev_flag (synced s) = false →
      match iteration AtSync ws s with
      | (Synced s', acts) =>
          (∃ pre,
              acts = pre ++ [ASyncedSet (ev_waiters (synced s)); ASyncedClear]
              ∧ synced_sets pre = 0)
          ∧ synced_sets acts = 1
          ∧ synced s' = mkEvent false []
          ∧ ∀ waiter,
              event_wait waiter (synced s') = (false, mkEvent false [waiter])
      | (n, acts) =>
          synced_sets acts = 0 ∧ synced (next_client n) = synced s
      end)
  ∧ (∀ (p : pc) (w : wake) (s1 s2 : client) (acts : list action),
      ev_flag (synced s1) = false →
      resume p w s1 = (Synced s2, acts) →
      ∃ pre, acts = pre ++ [ASyncedSet (ev_waiters (synced s1)); ASyncedClear]).
Proof.
  split; [|split; [|split]].
  - intros w ws s Hflag Hqueue Hw Hstatus Hall Hlen s1.
    destruct (iteration_completes (w :: ws) AtSync s) as (s' & acts & Hit).
    { by constructor. }
    { done. }
    { simpl. lia. }
    { simpl. lia. }
    { intros _. by exists w, ws. }
    pose proof (iteration_signals_once (w :: ws) AtSync s Hflag) as Honce.
    rewrite Hit in Honce. destruct Honce as (pre & -> & Hpre & Hsynced).
    destruct (iteration_sync_gathers w ws s s' _ Hit)
      as (_ & _ & Hgv & Hgk & _).
    exists s', pre. split; [done|]. split; [done|].
    split.
    { apply elem_of_app in Hgv as [Hgv|Hgv]; [done|].
      apply elem_of_cons in Hgv as [Hgv|Hgv]; [done|].
      apply elem_of_cons in Hgv as [Hgv|Hgv]; [done|].
      by apply elem_of_nil in Hgv. }
    split.
    { apply elem_of_app in Hgk as [Hgk|Hgk]; [done|].
      apply elem_of_cons in Hgk as [Hgk|Hgk]; [done|].
      apply elem_of_cons in Hgk as [Hgk|Hgk]; [done|].
      by apply elem_of_nil in Hgk. }
    split; [done|]. intros waiter. by rewrite Hsynced.
  - intros ws1 w ws2 s s1 p a1 Hflag Hsus Hfault.
    pose proof (iteration_signals_once ws1 AtSync s Hflag) as Hpre.
    rewrite Hsus in Hpre. destruct Hpre as [Ha1 Hs1]. simpl in Hs1.
    assert (ev_flag (synced s1) = false) as Hflag1 by congruence.
    pose proof (iteration_signals_once (w :: ws2) p s1 Hflag1) as Honce.
    pose proof (fault_not_synced p w ws2 s1) as Hnot.
    rewrite iteration_app, Hsus.
    destruct (iteration p (w :: ws2) s1) as [n a].
    exists n, (a1 ++ a). split; [done|].
    destruct n as [p' s'|s'|s'|s'|e s'];
      try (destruct Honce as [Ha Hs]; simpl in Hs;
           split; [done|]; split;
           [by rewrite synced_sets_app, Ha1, Ha|simpl; congruence]).
    exfalso. by eapply Hnot.
  - intros ws s Hflag.
    pose proof (iteration_signals_once ws AtSync s Hflag) as H.
    destruct (iteration AtSync ws s) as [n acts].
    destruct n; try done. simpl in H. destruct H as (pre & -> & H1 & H2).
    split; [by exists pre|]. split; [by rewrite synced_sets_app, H1|].
    split; [done|]. intros waiter. by rewrite H2.
  - intros p w s1 s2 acts Hflag1 Hres.
    pose proof (resume_signals_once p w s1 Hflag1) as H. rewrite Hres in H.
    destruct H as (pre & -> & _). by exists pre.
Qed.

Lemma C6_witness :
  (let w := synced_with 200
              [InMegolm "!enc:example.org" (demo_event "SESSION")] demo_nio in
   let ws := [returned demo_nio; returned demo_nio; returned demo_nio;
              returned demo_nio; returned demo_nio; returned demo_nio] in
   let s1 := (run_callbacks (w_nio w) (w_events w) demo_running).1 in
   ∃ (s' : client) (pre : list action),
     iteration AtSync (w :: ws) demo_running
     = (Synced s',
        pre ++ [ASyncedSet (ev_waiters (synced demo_running)); ASyncedClear])
     ∧ synced_sets pre = 0
     ∧ AGatherVerifications (key_verificatins_tasks s1) ∈ pre
     ∧ AGatherKeyRequests (key_request_tasks s1) ∈ pre
     ∧ synced s' = mkEvent false []
     ∧ ∀ waiter,
         event_wait waiter (synced s') = (false, mkEvent false [waiter]))
  ∧ ∃ (n : next) (acts : list action),
      iteration AtSync
        ([synced_with 200 [] busy_nio; returned busy_nio; returned busy_nio;
          returned busy_nio]
           ++ raised ConnectionRefusedError busy_nio :: [returned busy_nio])
        demo_running = (n, acts)
      ∧ (∀ s', n ≠ Synced s')
      ∧ synced_sets acts = 0
      ∧ synced (next_client n) = synced demo_running.
Proof.
  split.
  - apply (proj1 C6_synced_signal
             (synced_with 200
                [InMegolm "!enc:example.org" (demo_event "SESSION")] demo_nio)
             [returned demo_nio; returned demo_nio; returned demo_nio;
              returned demo_nio; returned demo_nio; returned demo_nio]
             demo_running);
      try reflexivity; repeat constructor.
  - apply (proj1 (proj2 C6_synced_signal)
             [synced_with 200 [] busy_nio; returned busy_nio;
              returned busy_nio; returned busy_nio]
             (raised ConnectionRefusedError busy_nio) [returned busy_nio]
             demo_running
             (mkClient (Some 0) true true (mkEvent false [])
                (mkEvent false [5]) [] [] 2)
             AtKeysUpload
             [ACreateTask 1 (ToDevice "m.room_key_request");
              AGatherToDevice [1]; AGatherVerifications [];
              AGatherKeyRequests []; AKeysUpload]).
    + reflexivity.
    + reflexivity.
    + right. exists ConnectionRefusedError. split; reflexivity.
Defined.

(** ** The gather of the verification tasks *)

Lemma resume_verifications_gathered (w : wake) (s : client) :
  w_exn w = None ∨ w_exn w = Some LocalProtocolError →
  resume AtGatherVerifications w s
  = (Suspend AtGatherKeyRequests (set_key_verificatins_tasks [] s),
     match w_exn w with
     | Some _ => [ALog InfoProtocolError]
     | None => []
     end ++ [AGatherKeyRequests (key_request_tasks s)]).
Proof. unfold resume. by intros [->| ->]. Qed.

(** C7, as the code has it.  When the [gather] of the verification tasks
    returns, or raises a [LocalProtocolError], the loop goes on to the
    [gather] of the key requests in the same iteration with the list of
    verification tasks emptied; the error is logged and nothing else is
    done: no task is created or cancelled and the list of key-request tasks
    is as it was.  From there on the iteration, and the loop after it, does
    after a [LocalProtocolError] exactly what it does after a return, one
    log entry apart; and when the [await]s that follow return, it runs to
    the end of the [try] body with the key requests gathered and the list
    of verification tasks empty. *)
Theorem C7_verification_errors_swallowed :
  (∀ (w : wake) (s : client),
      w_exn w = None ∨ w_exn w = Some LocalProtocolError →
      ∃ log : list action,
        resume AtGatherVerifications w s
        = (Suspend AtGatherKeyRequests (set_key_verificatins_tasks [] s),
           log ++ [AGatherKeyRequests (key_request_tasks s)])
        ∧ log = match w_exn w with
                | Some _ => [ALog InfoProtocolError]
                | None => []
                end
        ∧ key_verificatins_tasks (set_key_verificatins_tasks [] s) = []
        ∧ key_request_tasks (set_key_verificatins_tasks [] s)
          = key_request_tasks s
        ∧ created_tasks (set_key_verificatins_tasks [] s) = created_tasks s
        ∧ step (Running AtGatherVerifications s) w
          = (Running AtGatherKeyRequests (set_key_verificatins_tasks [] s),
             log ++ [AGatherKeyRequests (key_request_tasks s)]))
  ∧ (∀ (w : wake) (ws : list wake) (s : client),
      w_exn w = Some LocalProtocolError →
      iteration AtGatherVerifications (w :: ws) s
      = (let '(n, a) := iteration AtGatherVerifications (returning w :: ws) s in
         (n, ALog InfoProtocolError :: a))
      ∧ run (w :: ws) (Running AtGatherVerifications s)
        = (let '(c, a) := run (returning w :: ws)
                            (Running AtGatherVerifications s) in
           (c, ALog InfoProtocolError :: a)))
  ∧ (∀ (w : wake) (ws : list wake) (s : client),
      w_exn w = None ∨ w_exn w = Some LocalProtocolError →
      has_queue s = true →
      Forall (λ w', w_exn w' = None) ws →
      (4 ≤ length ws)%nat →
      ∃ (s' : client) (acts : list action),
        iteration AtGatherVerifications (w :: ws) s = (Synced s', acts)
        ∧ AGatherKeyRequests (key_request_tasks s) ∈ acts
        ∧ key_verificatins_tasks s' = []
        ∧ key_request_tasks s' = key_request_tasks s).
Proof.
  split; [|split].
  - intros w s Hw. eexists. split; [by apply resume_verifications_gathered|].
    split; [done|]. repeat (split; [done|]).
    unfold step. by rewrite resume_verifications_gathered.
  - intros w ws s Hw. split.
    + rewrite !iteration_cons.
      rewrite (resume_verifications_gathered w) by auto.
      rewrite (resume_verifications_gathered (returning w)) by (left; done).
      rewrite Hw. simpl.
      by destruct (iteration AtGatherKeyRequests ws _).
    + cbn [run step].
      rewrite (resume_verifications_gathered w) by auto.
      rewrite (resume_verifications_gathered (returning w)) by (left; done).
      rewrite Hw. simpl.
      by destruct (run ws _).
  - intros w ws s Hw Hqueue Hall Hlen.
    rewrite iteration_cons, resume_verifications_gathered by done.
    destruct (iteration_completes ws AtGatherKeyRequests
                (set_key_verificatins_tasks [] s))
      as (s' & acts & Hit); try done.
    { simpl. lia. }
    rewrite Hit. eexists _, _. split; [done|].
    destruct (iteration_from_key_requests _ _ _ _ Hit) as [H1 H2].
    split; [|done].
    apply elem_of_app. left. apply elem_of_app. right. by left.
Qed.

Lemma C7_witness :
  let s := set_key_verificatins_tasks [3; 4] demo_running in
  let w := raised LocalProtocolError demo_nio in
  let ws := [returned demo_nio; returned demo_nio; returned demo_nio;
             returned demo_nio] in
  ∃ (s' : client) (acts : list action),
    iteration AtGatherVerifications (w :: ws) s = (Synced s', acts)
    ∧ AGatherKeyRequests (key_request_tasks s) ∈ acts
    ∧ key_verificatins_tasks s' = []
    ∧ key_request_tasks s' = key_request_tasks s.
Proof.
  apply (proj2 (proj2 C7_verification_errors_swallowed)
           (raised LocalProtocolError demo_nio)
           [returned demo_nio; returned demo_nio; returned demo_nio;
            returned demo_nio]
           (set_key_verificatins_tasks [3; 4] demo_running)).
  - right. reflexivity.
  - reflexivity.
  - repeat constructor.
  - simpl. lia.
Defined.

(** The claim as the specification words it: the list of verification
    tasks is emptied whether the [gather] returned or raised.  Here the
    [gather] of tasks 3 and 4 raises [ConnectionRefusedError]: line 185 is
    skipped, the loop sleeps with both tasks still on the list, and the next
    iteration hands the same two tasks to [gather] again. *)
Lemma C7_counterexample :
  let s := set_key_verificatins_tasks [3; 4] demo_running in
  resume AtGatherVerifications (raised ConnectionRefusedError demo_nio) s
  = (Suspend AtSleepFault s, [ASleep 5])
  ∧ key_verificatins_tasks s = [3; 4]
  ∧ run [raised ConnectionRefusedError demo_nio; returned demo_nio;
         synced_with 200 [] demo_nio]
      (Running AtGatherVerifications s)
    = (Running AtGatherVerifications s,
       [ASleep 5; ASync 30000; AGatherVerifications [3; 4]])
  ∧ ¬ (∀ (w : wake) (s0 : client),
         key_verificatins_tasks
           (next_client (resume AtGatherVerifications w s0).1) = []).
Proof.
  cbn zeta. split; [reflexivity|]. split; [reflexivity|].
  split; [reflexivity|].
  intros H.
  specialize (H (raised ConnectionRefusedError demo_nio)
                (set_key_verificatins_tasks [3; 4] demo_running)).
  discriminate H.
Qed.
